(** * Port scanner pipeline: a shallow embedding and its properties

    The development follows the Python sources module by module:
    [banner_analyzer.py], [utils.py], [models.py], [storage.py],
    [scanner.py], [notify.py] and [main.py].  Every Python function that a
    property talks about is transcribed as a Rocq function of the same name;
    mutation of objects is written as explicit state passing, exceptions as
    values of a sum type, and the outside world (network, sub-process, file
    system, clock, random identifiers) as explicit arguments or as fields of
    a world record.

    A Python [str] is represented by a [string]; its characters stand for
    code points below 128.  Text with wider code points occurs only as
    literal segments that the code copies through unchanged (they are kept
    as their UTF-8 bytes). *)

From Stdlib Require Import String Ascii List ZArith NArith Lia Bool.
From Stdlib Require Import DecimalString.
From stdpp Require Import base list gmap strings.

Local Open Scope string_scope.
Local Open Scope list_scope.

(** ** Part I — definitions *)

(** *** Python built-ins on [str] *)

Module Py.

Definition code (a : ascii) : N := N_of_ascii a.

(** [str.isspace] on one character, for code points below 128:
    TAB, LF, VT, FF, CR, the four separators FS GS RS US, and SPACE. *)
Definition isspace (a : ascii) : bool :=
  let n := code a in
  ((9 <=? n) && (n <=? 13) || (28 <=? n) && (n <=? 32))%N.

Definition isdigit (a : ascii) : bool :=
  let n := code a in ((48 <=? n) && (n <=? 57))%N.

(** [str.lower] on one character (ASCII letters only). *)
Definition lower (a : ascii) : ascii :=
  let n := code a in
  if ((65 <=? n) && (n <=? 90))%N then ascii_of_N (n + 32) else a.

Definition is_empty (s : string) : bool :=
  match s with EmptyString => true | String _ _ => false end.

(** Truthiness of a [str]: a string is true iff it is not empty. *)
Definition truthy (s : string) : bool := negb (is_empty s).

Fixpoint lstrip (s : string) : string :=
  match s with
  | EmptyString => EmptyString
  | String a s' => if isspace a then lstrip s' else s
  end.

Fixpoint rstrip (s : string) : string :=
  match s with
  | EmptyString => EmptyString
  | String a s' =>
      let t := rstrip s' in
      if is_empty t && isspace a then EmptyString else String a t
  end.

(** [s.strip()] *)
Definition strip (s : string) : string := rstrip (lstrip s).

(** [s.split('\n')[0]]: everything before the first line feed. *)
Fixpoint first_line (s : string) : string :=
  match s with
  | EmptyString => EmptyString
  | String a s' =>
      if Ascii.eqb a "010"%char then EmptyString else String a (first_line s')
  end.

(** [s[:n]] *)
Fixpoint take (n : nat) (s : string) : string :=
  match n, s with
  | O, _ => EmptyString
  | S _, EmptyString => EmptyString
  | S n', String a s' => String a (take n' s')
  end.

(** [str(n)] for an integer. *)
Definition str_of_Z (n : Z) : string :=
  NilZero.string_of_int (Z.to_int n).

Definition str_of_nat (n : nat) : string :=
  NilZero.string_of_uint (Nat.to_uint n).

(** [s.lower()] *)
Fixpoint lower_str (s : string) : string :=
  match s with
  | EmptyString => EmptyString
  | String a s' => String (lower a) (lower_str s')
  end.

(** [needle in hay] *)
Fixpoint contains (needle hay : string) : bool :=
  String.prefix needle hay ||
  match hay with
  | EmptyString => false
  | String _ hay' => contains needle hay'
  end.

(** [l[:limit]] for a list: a negative limit counts from the end. *)
Definition slice_to {A} (limit : Z) (l : list A) : list A :=
  if (limit <? 0)%Z
  then firstn (length l - Z.to_nat (- limit)) l
  else firstn (Z.to_nat limit) l.

End Py.

(** *** The fragment of [re] used by the pattern table

    The patterns of [BannerAnalyzer.PATTERNS] are built from literal
    characters, the classes [\d] and [[...]], concatenation, the greedy
    operators [?] and [+] (the latter always applied to a single class),
    non-capturing groups and at most one capturing group.  [search] is the
    backtracking matcher of [re.search]: the leftmost start position wins,
    and at one position greedy alternatives are tried first. *)

Module Re.

Inductive atom : Type :=
| Lit (c : ascii)      (* a literal character *)
| Digit.               (* \d *)

Inductive regex : Type :=
| Eps                              (* the empty pattern *)
| One (cls : list atom)            (* one character of a class; a literal is a one-element class *)
| Seq (r1 r2 : regex)              (* r1 r2 *)
| Opt (r : regex)                  (* (?:r)? greedy *)
| Many1 (cls : list atom)          (* [cls]+ greedy *)
| Group (r : regex).               (* (r), the capturing group *)

(** A match object: what [groups()] returns (one entry per capturing group
    of the pattern, [None] for a group that did not take part). *)
Record match_object : Type := { groups : list (option string) }.

Definition atom_matches (ignorecase : bool) (x : atom) (a : ascii) : bool :=
  match x with
  | Lit c => if ignorecase then Ascii.eqb (Py.lower a) (Py.lower c) else Ascii.eqb a c
  | Digit => Py.isdigit a
  end.

Definition class_matches (ignorecase : bool) (cls : list atom) (a : ascii) : bool :=
  existsb (fun x => atom_matches ignorecase x a) cls.

(** The text consumed between [s] and its suffix [rest]. *)
Definition consumed (s rest : string) : string :=
  Py.take (String.length s - String.length rest) s.

Section Matcher.
Variable ignorecase : bool.
Context {R : Type}.

(** [cls+] at [s]: the longest run first, then shorter ones. *)
Fixpoint many1 (cls : list atom) (s : string) (cap : option string)
         (k : string -> option string -> option R) : option R :=
  match s with
  | EmptyString => None
  | String a s' =>
      if class_matches ignorecase cls a then
        match many1 cls s' cap k with
        | Some x => Some x
        | None => k s' cap
        end
      else None
  end.

(** Match [r] at the start of [s], then hand the rest of the subject and
    the capture to the continuation [k]; [None] makes the matcher
    backtrack. *)
Fixpoint run (r : regex) (s : string) (cap : option string)
         (k : string -> option string -> option R) : option R :=
  match r with
  | Eps => k s cap
  | One cls =>
      match s with
      | EmptyString => None
      | String a s' => if class_matches ignorecase cls a then k s' cap else None
      end
  | Seq r1 r2 => run r1 s cap (fun s' cap' => run r2 s' cap' k)
  | Opt r1 =>
      match run r1 s cap k with
      | Some x => Some x
      | None => k s cap
      end
  | Many1 cls => many1 cls s cap k
  | Group r1 => run r1 s cap (fun s' _ => k s' (Some (consumed s s')))
  end.
End Matcher.

Fixpoint has_group (r : regex) : bool :=
  match r with
  | Eps | One _ | Many1 _ => false
  | Seq r1 r2 => has_group r1 || has_group r2
  | Opt r1 => has_group r1
  | Group _ => true
  end.

(** [re.match]-like attempt at one start position. *)
Definition match_here (r : regex) (s : string) (ignorecase : bool) : option match_object :=
  run ignorecase r s None
      (fun _ cap => Some {| groups := if has_group r then [cap] else [] |}).

(** [re.search(pattern, s, flags)]: the first start position, from the
    left, at which the pattern matches (the end of the subject included). *)
Fixpoint search (r : regex) (s : string) (ignorecase : bool) : option match_object :=
  match match_here r s ignorecase with
  | Some m => Some m
  | None =>
      match s with
      | EmptyString => None
      | String _ s' => search r s' ignorecase
      end
  end.

(** [m.group(1)] *)
Definition group1 (m : match_object) : option string :=
  match groups m with
  | g :: _ => g
  | [] => None
  end.

(** Pattern-building shorthands. *)
Fixpoint lit (s : string) : regex :=
  match s with
  | EmptyString => Eps
  | String a EmptyString => One [Lit a]
  | String a s' => Seq (One [Lit a]) (lit s')
  end.

Definition digits : regex := Many1 [Digit].
Definition dot : regex := One [Lit "."%char].
Definition sep : regex := One [Lit "_"%char; Lit "-"%char].      (* [_\-] *)
Definition seqs (rs : list regex) : regex := fold_right Seq Eps rs.

(** [\s]: for code points below 128, the characters of [str.isspace]. *)
Definition space : list atom :=
  map Lit [ "009"; "010"; "011"; "012"; "013"; "028"; "029"; "030"; "031"; " " ]%char.

(** A range [[a-b]] of a character class. *)
Definition range (a b : ascii) : list atom :=
  map (fun n => Lit (ascii_of_nat n))
      (seq (nat_of_ascii a) (S (nat_of_ascii b) - nat_of_ascii a)).

End Re.

(** *** banner_analyzer.py *)

Module BannerAnalyzer.
Import Re.

(** The tail [[_\-]?([\d\.]+)?] shared by several patterns. *)
Definition opt_version : regex :=
  Seq (Opt sep) (Opt (Group (Many1 [Digit; Lit "."%char]))).

(** [(?:/(\d+\.\d+\.\d+))?] *)
Definition opt_slash_triple : regex :=
  Opt (Seq (One [Lit "/"%char])
           (Group (seqs [digits; dot; digits; dot; digits]))).

(** [PATTERNS]: a [dict], iterated in insertion order, which for a
    dictionary display is the order of declaration (the keys are pairwise
    different, so no entry overwrites another). *)
Definition PATTERNS : list (regex * (string * string)) :=
  [ (Seq (lit "Apache") opt_slash_triple, ("Apache", "web_server"));
    (Seq (lit "nginx") opt_slash_triple, ("Nginx", "web_server"));
    (Seq (lit "Microsoft-IIS/") (Group (seqs [digits; dot; digits])), ("IIS", "web_server"));
    (seqs [lit "OpenSSH"; Opt sep;
           Opt (Group (Many1 [Digit; Lit "."%char; Lit "p"%char]))], ("OpenSSH", "ssh"));
    (lit "OpenSSL", ("OpenSSL", "crypto"));
    (seqs [lit "MySQL"; sep; lit "Server"; opt_version], ("MySQL", "database"));
    (Seq (lit "PostgreSQL") opt_version, ("PostgreSQL", "database"));
    (lit "MongoDB", ("MongoDB", "database"));
    (Seq (lit "Redis") opt_version, ("Redis", "cache"));
    (lit "Elasticsearch", ("Elasticsearch", "search"));
    (lit "Docker", ("Docker", "container"));
    (seqs [lit "FTP"; sep; lit "Server"], ("FTP Server", "ftp"));
    (seqs [lit "Telnet"; sep; lit "Server"], ("Telnet", "telnet"));
    (lit "SMTP", ("SMTP", "mail"));
    (lit "POP3", ("POP3", "mail"));
    (lit "IMAP", ("IMAP", "mail"));
    (lit "Jenkins", ("Jenkins", "ci_cd"));
    (Seq (lit "Tomcat") opt_version, ("Tomcat", "web_server"));
    (lit "Joomla", ("Joomla", "cms"));
    (lit "WordPress", ("WordPress", "cms"));
    (lit "Drupal", ("Drupal", "cms"));
    (lit "Nextcloud", ("Nextcloud", "file_sync"));
    (lit "OwnCloud", ("OwnCloud", "file_sync"));
    (lit "Grafana", ("Grafana", "monitoring"));
    (lit "Prometheus", ("Prometheus", "monitoring"));
    (lit "Consul", ("Consul", "service_discovery"));
    (lit "etcd", ("etcd", "key_value"));
    (lit "RabbitMQ", ("RabbitMQ", "message_queue"));
    (lit "Kafka", ("Kafka", "message_queue"));
    (lit "Cassandra", ("Cassandra", "database"));
    (lit "CouchDB", ("CouchDB", "database"));
    (lit "InfluxDB", ("InfluxDB", "database"));
    (lit "Solr", ("Solr", "search"));
    (lit "Zookeeper", ("Zookeeper", "orchestration"));
    (lit "Memcached", ("Memcached", "cache"));
    (lit "haproxy", ("HAProxy", "load_balancer"));
    (lit "nginx", ("Nginx", "reverse_proxy"));
    (seqs [lit "Apache"; sep; lit "HTTP"], ("Apache", "web_server"));
    (lit "Jetty", ("Jetty", "web_server"));
    (lit "Kestrel", ("Kestrel", "web_server"));
    (lit "Caddy", ("Caddy", "web_server"));
    (lit "Hyper", ("Hyper", "web_server")) ].

(** What one iteration of the loop returns once [pattern] has matched. *)
Definition on_match (service_name : string) (m : match_object) : string :=
  let version := match groups m with [] => None | _ :: _ => group1 m end in
  match version with
  | Some v => if Py.truthy v then service_name +:+ " " +:+ v else service_name
  | None => service_name
  end.

(** The [for pattern, (service_name, service_type) in ...items()] loop:
    [Some] is the value of the [return] inside the loop, [None] means the
    loop ran to its end. *)
Fixpoint try_patterns (table : list (regex * (string * string)))
         (banner_normalized : string) : option string :=
  match table with
  | [] => None
  | (pattern, (service_name, service_type)) :: rest =>
      match search pattern banner_normalized true with
      | Some m => Some (on_match service_name m)
      | None => try_patterns rest banner_normalized
      end
  end.

(** [analyze], over an arbitrary table. *)
Definition analyze_with (table : list (regex * (string * string)))
           (banner : string) : string :=
  if Py.is_empty banner then "Unknown"
  else
    let banner_normalized := Py.strip banner in
    match try_patterns table banner_normalized with
    | Some service => service
    | None =>
        let first_line := Py.first_line banner_normalized in
        if Py.truthy first_line then Py.take 50 first_line else "Unknown"
    end.

(** [BannerAnalyzer.analyze] *)
Definition analyze (banner : string) : string := analyze_with PATTERNS banner.

(** [vulnerable_patterns] of [is_vulnerable]. *)
Definition vulnerable_patterns : list regex :=
  [ seqs [lit "Apache"; Many1 space; lit "2"; dot; One (range "0" "2")];
    seqs [lit "Apache"; Many1 space; lit "1"; dot];
    seqs [lit "OpenSSH"; Many1 space; One (range "1" "5"); dot];
    seqs [lit "nginx"; Many1 space; lit "0"; dot];
    seqs [lit "IIS"; Many1 space; One (range "5" "6")] ].

(** [is_vulnerable]: the loop returns [True] at the first pattern that is
    found in the banner as given. *)
Definition is_vulnerable (banner : string) : bool :=
  existsb (fun pattern =>
             match search pattern banner true with
             | Some _ => true
             | None => false
             end)
          vulnerable_patterns.

(** [(\d+\.\d+(?:\.\d+)?(?:[a-zA-Z]\d+)?)] *)
Definition version_pattern : regex :=
  Group (seqs [ digits; dot; digits;
                Opt (Seq dot digits);
                Opt (Seq (One (range "a" "z" ++ range "A" "Z")) digits) ]).

(** [extract_version]: the search is case-sensitive. *)
Definition extract_version (banner : string) : option string :=
  match search version_pattern banner false with
  | Some m => group1 m
  | None => None
  end.

End BannerAnalyzer.


(** *** models.py *)

Module Models.

(** [datetime] values are points of a discrete clock. *)
Definition datetime : Type := nat.

Inductive ScanStatus : Type := PENDING | RUNNING | COMPLETED | FAILED.

(** [ScanStatus.value] *)
Definition status_value (st : ScanStatus) : string :=
  match st with
  | PENDING => "pending"
  | RUNNING => "running"
  | COMPLETED => "completed"
  | FAILED => "failed"
  end.

Record ScanResult : Type := mkScanResult {
  ip : string;
  port : Z;
  service : option string;
  banner : option string;
  is_new : bool;
  timestamp : datetime;
  scan_id : option string;
}.

(** The field constraint [ge=1, le=65535] that the constructor validates. *)
Definition valid_port (p : Z) : bool := ((1 <=? p) && (p <=? 65535))%Z.

Record ScanSession : Type := mkScanSession {
  id : string;
  status : ScanStatus;
  start_time : datetime;
  end_time : option datetime;
  targets : list string;
  results : list ScanResult;
  total_results : nat;
  new_results : nat;
  errors : list string;
}.

(** Attribute assignments [obj.field = value]. *)
Definition set_banner (v : option string) (r : ScanResult) : ScanResult :=
  mkScanResult (ip r) (port r) (service r) v (is_new r) (timestamp r) (scan_id r).
Definition set_service (v : option string) (r : ScanResult) : ScanResult :=
  mkScanResult (ip r) (port r) v (banner r) (is_new r) (timestamp r) (scan_id r).
Definition set_is_new (v : bool) (r : ScanResult) : ScanResult :=
  mkScanResult (ip r) (port r) (service r) (banner r) v (timestamp r) (scan_id r).

Definition set_status (v : ScanStatus) (s : ScanSession) : ScanSession :=
  mkScanSession (id s) v (start_time s) (end_time s) (targets s) (results s)
                (total_results s) (new_results s) (errors s).
Definition set_end_time (v : option datetime) (s : ScanSession) : ScanSession :=
  mkScanSession (id s) (status s) (start_time s) v (targets s) (results s)
                (total_results s) (new_results s) (errors s).
Definition set_results (v : list ScanResult) (s : ScanSession) : ScanSession :=
  mkScanSession (id s) (status s) (start_time s) (end_time s) (targets s) v
                (total_results s) (new_results s) (errors s).
Definition set_total_results (v : nat) (s : ScanSession) : ScanSession :=
  mkScanSession (id s) (status s) (start_time s) (end_time s) (targets s) (results s)
                v (new_results s) (errors s).
Definition set_new_results (v : nat) (s : ScanSession) : ScanSession :=
  mkScanSession (id s) (status s) (start_time s) (end_time s) (targets s) (results s)
                (total_results s) v (errors s).
Definition append_error (e : string) (s : ScanSession) : ScanSession :=
  mkScanSession (id s) (status s) (start_time s) (end_time s) (targets s) (results s)
                (total_results s) (new_results s) (errors s ++ [e]).

(** [ScanSession.duration_seconds] (whole clock ticks). *)
Definition duration_seconds (s : ScanSession) : option Z :=
  match end_time s with
  | Some e => Some (Z.of_nat e - Z.of_nat (start_time s))%Z
  | None => None
  end.

(** [ScanStatus(value)]: the member with that value, if there is one. *)
Definition status_of_value (value : string) : option ScanStatus :=
  if String.eqb value "pending" then Some PENDING
  else if String.eqb value "running" then Some RUNNING
  else if String.eqb value "completed" then Some COMPLETED
  else if String.eqb value "failed" then Some FAILED
  else None.

End Models.

(** *** utils.py *)

Module Utils.

(** [COMMON_SERVICES] *)
Definition COMMON_SERVICES : gmap Z string :=
  list_to_map
    [ (21, "FTP"); (22, "SSH"); (23, "Telnet"); (25, "SMTP"); (53, "DNS");
      (80, "HTTP"); (110, "POP3"); (143, "IMAP"); (443, "HTTPS");
      (465, "SMTPS"); (587, "SMTP"); (993, "IMAPS"); (995, "POP3S");
      (3306, "MySQL"); (3389, "RDP"); (5432, "PostgreSQL"); (5900, "VNC");
      (6379, "Redis"); (8080, "HTTP-Proxy"); (8443, "HTTPS-Alt");
      (27017, "MongoDB"); (50070, "Hadoop") ]%Z.

Definition service_keywords : list (string * string) :=
  [ ("apache", "Apache"); ("nginx", "Nginx"); ("microsoft-iis", "IIS");
    ("openssh", "OpenSSH"); ("openssl", "OpenSSL"); ("mysql", "MySQL");
    ("postgresql", "PostgreSQL"); ("mongodb", "MongoDB"); ("redis", "Redis");
    ("elasticsearch", "Elasticsearch"); ("docker", "Docker");
    ("jenkins", "Jenkins") ].

(** [get_service_name(port, banner="")] *)
Definition get_service_name (port : Z) (banner : string) : string :=
  let banner_lower := if Py.truthy banner then Py.lower_str banner else "" in
  match List.find (fun kw => Py.contains (fst kw) banner_lower) service_keywords with
  | Some (_, service) => service
  | None => default "Unknown" (COMMON_SERVICES !! port)
  end.

(** One entry of [new_results]: a [dict] with the keys ['ip'], ['port']
    and ['service']. *)
Record discovery : Type := mkDiscovery {
  d_ip : string;
  d_port : Z;
  d_service : string;
}.

(** [format_notification_message(new_results, summary)]; the reading of
    the clock, already formatted, is the extra first argument, and
    [summary] is the dictionary passed by the caller. *)
Definition format_notification_message (timestamp : string)
           (new_results : list discovery) (summary : gmap string Z) : string :=
  let message := "
🔍 *Результаты сканирования портов*

⏰ Время: " +:+ timestamp +:+ "
📊 Найдено новых: " +:+ Py.str_of_nat (length new_results) +:+ "
⏱️ Длительность: "
    +:+ match summary !! "duration" with Some d => Py.str_of_Z d | None => "N/A" end
    +:+ "с
📈 Всего найдено портов: "
    +:+ Py.str_of_Z (default 0%Z (summary !! "total_ports")) +:+ "

*Новые открытые порты:*
" in
  let message :=
    fold_left (fun message result =>
                 message +:+ "
• " +:+ d_ip result +:+ ":" +:+ Py.str_of_Z (d_port result) +:+ " - " +:+ d_service result)
              (firstn 10 new_results) message in
  let message :=
    if (10 <? length new_results)%nat
    then message +:+ "
• ... и ещё " +:+ Py.str_of_nat (length new_results - 10)
    else message in
  let message := message +:+ "

✅ Сканирование завершено успешно" in
  Py.strip message.

End Utils.

(** *** Exceptions, effects and the outside world *)

Module World.
Import Models.

(** The exception classes the code distinguishes; every other subclass of
    [Exception] is [OtherException]. *)
Inductive exn_kind : Type :=
| TimeoutError
| ConnectionRefusedError
| RuntimeError
| IntegrityError
| OtherException.

Record exn : Type := mkExn { kind : exn_kind; message : string }.

(** [str(e)] *)
Definition str_exn (e : exn) : string := message e.

#[global] Instance exn_kind_eq_dec : EqDecision exn_kind.
Proof. solve_decision. Defined.
#[global] Instance exn_eq_dec : EqDecision exn.
Proof. solve_decision. Defined.

(** The outcome of a call: a value, or a raised exception. *)
Inductive result (A : Type) : Type :=
| Ok (a : A)
| Raise (e : exn).
Arguments Ok {A} a.
Arguments Raise {A} e.

#[global] Instance result_eq_dec {A} `{EqDecision A} : EqDecision (result A).
Proof. solve_decision. Defined.

(** Computations over a state [S] that may raise.  Effects performed before
    an exception is raised stay in place. *)
Definition M (S A : Type) : Type := S -> result A * S.

#[global] Instance M_ret {S} : MRet (M S) := fun A a s => (Ok a, s).
#[global] Instance M_bind {S} : MBind (M S) := fun A B f m s =>
  match m s with
  | (Ok a, s') => f a s'
  | (Raise e, s') => (Raise e, s')
  end.

Definition raise {S A} (e : exn) : M S A := fun s => (Raise e, s).
Definition get {S} : M S S := fun s => (Ok s, s).
Definition modify {S} (f : S -> S) : M S unit := fun s => (Ok tt, f s).

(** [try: m  except Exception as e: h e] *)
Definition try_except {S A} (m : M S A) (h : exn -> M S A) : M S A := fun s =>
  match m s with
  | (Ok a, s') => (Ok a, s')
  | (Raise e, s') => h e s'
  end.

(** [try: m  finally: fin] *)
Definition try_finally {S A} (m : M S A) (fin : M S unit) : M S A := fun s =>
  match m s with
  | (r, s') =>
      match fin s' with
      | (Ok _, s'') => (r, s'')
      | (Raise e, s'') => (Raise e, s'')
      end
  end.

(** A frame with one mutable local object of type [X] on top of the state
    [S]: [zoom] runs a callee that does not see the object, [local] reads
    it, [assign] updates it, and [with_local] opens the frame. *)
Definition zoom {S X A} (m : M S A) : M (X * S) A := fun xs =>
  match m (snd xs) with
  | (r, s') => (r, (fst xs, s'))
  end.
Definition local {S X} : M (X * S) X := fun xs => (Ok (fst xs), xs).
Definition assign {S X} (f : X -> X) : M (X * S) unit := fun xs =>
  (Ok tt, (f (fst xs), snd xs)).
Definition with_local {S X A} (x0 : X) (m : M (X * S) A) : M S A := fun s =>
  match m (x0, s) with
  | (r, xs) => (r, snd xs)
  end.

(** [for x in xs: body x] *)
Fixpoint for_each {S A} (xs : list A) (body : A -> M S unit) : M S unit :=
  match xs with
  | [] => mret tt
  | x :: rest => _ ← body x; for_each rest body
  end.

(** [await asyncio.gather( *tasks, return_exceptions=True)]: every task
    runs to its end and its outcome, value or exception, is collected at
    its position; the call itself does not raise.  The tasks of one call
    act on disjoint objects, so their interleaving is not visible and they
    are run in list order. *)
Fixpoint gather {S A} (tasks : list (M S A)) : M S (list (result A)) :=
  match tasks with
  | [] => mret []
  | t :: rest => fun s =>
      match t s with
      | (r, s') =>
          match gather rest s' with
          | (Ok rs, s'') => (Ok (r :: rs), s'')
          | (Raise e, s'') => (Raise e, s'')
          end
      end
  end.

End World.

(** *** Persistent state: the SQLite database and the JSON file *)

Module Disk.
Import Models World.

(** A row of table [scan_sessions]. *)
Record session_row : Type := mkSessionRow {
  s_id : string;                          (* TEXT PRIMARY KEY *)
  s_status : string;
  s_start_time : datetime;
  s_end_time : option datetime;
  s_targets : list string;
  s_total_results : nat;
  s_new_results : nat;
  s_errors : option (list string);
}.

(** A row of table [scan_results]; the table declares [id] as primary key
    and [UNIQUE(ip, port)]. *)
Record result_row : Type := mkResultRow {
  r_id : string;                          (* TEXT PRIMARY KEY *)
  r_scan_id : string;
  r_ip : string;
  r_port : Z;
  r_service : option string;
  r_banner : option string;
  r_is_new : bool;                        (* INTEGER, 1 or 0 *)
  r_timestamp : datetime;
}.

(** What can be wrong with the database file: [sqlite3.connect] raises
    [OperationalError(msg)] (a path that cannot be opened), or the
    connection is made and every [cursor.execute] raises
    [OperationalError(msg)] (a locked or damaged file, or tables that
    [_init_db] could not create). *)
Inductive db_fault : Type :=
| CannotOpen (msg : string)
| CannotExecute (msg : string).

Definition fault_message (f : db_fault) : string :=
  match f with
  | CannotOpen msg => msg
  | CannotExecute msg => msg
  end.

(** The database file. *)
Record sqlite_db : Type := mkDb {
  scan_sessions : list session_row;
  scan_results : list result_row;
  fault : option db_fault;
}.

Definition empty_db : sqlite_db := mkDb [] [] None.

(** An entry of the ['sessions'] list of the JSON document. *)
Record session_dict : Type := mkSessionDict {
  sd_id : string;
  sd_status : string;
  sd_start_time : datetime;
  sd_end_time : option datetime;
  sd_targets : list string;
  sd_total_results : nat;
  sd_new_results : nat;
}.

(** An entry of the ['results'] list of the JSON document. *)
Record result_dict : Type := mkResultDict {
  rd_ip : string;
  rd_port : Z;
  rd_service : option string;
  rd_banner : option string;
  rd_is_new : bool;
  rd_timestamp : datetime;
  rd_scan_id : string;
}.

Record json_data : Type := mkData {
  doc_sessions : list session_dict;     (* data['sessions'] *)
  doc_results : list result_dict;       (* data['results'] *)
}.

(** [{'sessions': [], 'results': []}] *)
Definition initial_data : json_data := mkData [] [].

(** The JSON file: it loads as a document; or opening/decoding it raises;
    or it decodes to a value that is no document, on which the
    subscription [data[key]] raises [getitem key] for both keys (a list, a
    number or [null] raise a [TypeError], a dictionary without the two
    lists a [KeyError]).  [writable] tells whether opening the file for
    writing succeeds. *)
Inductive json_content : Type :=
| Document (data : json_data)
| Unreadable
| Foreign (getitem : string -> exn).

(** What [json.load] returns. *)
Inductive json_value : Type :=
| Dict (data : json_data)
| NoDict (getitem : string -> exn).

Record json_file : Type := mkFile {
  content : json_content;
  writable : bool;
}.

Definition initial_file : json_file := mkFile (Document initial_data) true.

End Disk.

(** *** The world the program runs in *)

Module Env.
Import Models World Disk.

(** One line of the scan engine's output file, as [json.loads] sees it. *)
Record host_data : Type := mkHost {
  addr : option string;        (* host_data['addr'][0]['addr']; None: the lookup raises *)
  ports : list (option Z);     (* port_data['port'][0]['portid'] of each entry; None: the lookup raises *)
}.

Inductive json_line : Type :=
| Blank                              (* nothing but white space *)
| Malformed                          (* json.loads raises JSONDecodeError *)
| Record_ (hosts : list host_data).   (* data.get('host', []) *)

(** What the peer of one probe does at each step of the exchange. *)
Record probe_script : Type := mkScript {
  on_connect : option exn;     (* wait_for(open_connection(..), 3): None = connected *)
  on_drain : option exn;       (* writer.drain() *)
  on_read : exn + string;      (* wait_for(reader.read(1024), 2), decoded with errors='ignore' *)
  on_wait_closed : option exn; (* writer.wait_closed() *)
}.

(** The state of the scan engine's process. *)
Inductive proc_state : Type :=
| NoProcess
| ProcRunning
| ProcExited (returncode : Z)
| ProcKilled.

(** Calls that leave the program. *)
Inductive event : Type :=
| Spawned (cmd : list string)                  (* create_subprocess_exec *)
| Connecting (ip : string) (port : Z)          (* open_connection *)
| SendCalled (notifier : string) (message : string).  (* notifier.send *)

(** Everything the program can change. *)
Record world : Type := mkWorld {
  clock : nat;                               (* readings of datetime.now() so far *)
  uuid_count : nat;                          (* calls of uuid.uuid4() so far *)
  proc : proc_state;
  files : gmap string (list json_line);      (* output files of the scan engine *)
  db : sqlite_db;
  json : json_file;
  trace : list event;                        (* oldest first *)
}.

(** Everything the program cannot change but depends on. *)
Record env : Type := mkEnv {
  uuid4_at : nat -> string;                  (* the n-th value drawn by uuid.uuid4() *)
  spawn_error : option exn;                  (* create_subprocess_exec raises *)
  masscan_finished : option (Z * string);    (* (returncode, stderr), or None when the
                                                program is still running at the timeout *)
  masscan_written : option (list json_line); (* what it has written to its output file *)
  unlink_error : option exn;                 (* Path(output_file).unlink raises *)
  net : string -> Z -> probe_script;
  http_post : string -> exn + Z;             (* url -> response status *)
  smtp_send : option exn;                    (* the SMTP dialogue raises *)
  strftime : nat -> string;                  (* datetime formatting *)
}.

Definition set_clock (v : nat) (w : world) : world :=
  mkWorld v (uuid_count w) (proc w) (files w) (db w) (json w) (trace w).
Definition set_uuid_count (v : nat) (w : world) : world :=
  mkWorld (clock w) v (proc w) (files w) (db w) (json w) (trace w).
Definition set_proc (v : proc_state) (w : world) : world :=
  mkWorld (clock w) (uuid_count w) v (files w) (db w) (json w) (trace w).
Definition set_files (v : gmap string (list json_line)) (w : world) : world :=
  mkWorld (clock w) (uuid_count w) (proc w) v (db w) (json w) (trace w).
Definition set_db (v : sqlite_db) (w : world) : world :=
  mkWorld (clock w) (uuid_count w) (proc w) (files w) v (json w) (trace w).
Definition set_json (v : json_file) (w : world) : world :=
  mkWorld (clock w) (uuid_count w) (proc w) (files w) (db w) v (trace w).
Definition set_trace (v : list event) (w : world) : world :=
  mkWorld (clock w) (uuid_count w) (proc w) (files w) (db w) (json w) v.

(** [datetime.now()] *)
Definition now : M world datetime := fun w =>
  (Ok (clock w), set_clock (S (clock w)) w).

(** [str(uuid.uuid4())] *)
Definition uuid4 (E : env) : M world string := fun w =>
  (Ok (uuid4_at E (uuid_count w)), set_uuid_count (S (uuid_count w)) w).

Definition emit (ev : event) : M world unit :=
  modify (fun w => set_trace (trace w ++ [ev]) w).

Definition initial_world : world :=
  mkWorld 0 0 NoProcess ∅ empty_db initial_file [].

End Env.

(** *** storage.py *)

(** The dictionary returned by [get_statistics]. *)
Module Stats.
Record statistics : Type := mkStatistics {
  total_results : nat;
  unique_hosts : nat;
  total_scans : nat;
  popular_ports : list (Z * nat);   (* port -> count, in the order of the dictionary *)
}.
End Stats.

Module Storage.
Import Models World Disk Env.

(** [class BaseStorage(ABC)]: the methods the pipeline uses.  A method
    returns, next to its value, the session object as the call leaves it. *)
Class BaseStorage (T : Type) : Type := {
  save_scan_session : T -> env -> ScanSession -> M world (bool * ScanSession);
  check_is_new_result : T -> ScanResult -> M world bool;
  get_statistics : T -> M world (option Stats.statistics);
}.

(** Counting the rows of each port, ports in order of first appearance
    ([port_counts[port] = port_counts.get(port, 0) + 1]). *)
Fixpoint bump (port : Z) (counts : list (Z * nat)) : list (Z * nat) :=
  match counts with
  | [] => [(port, 1)]
  | (p, c) :: rest =>
      if (p =? port)%Z then (p, S c) :: rest else (p, c) :: bump port rest
  end.

Definition port_counts (ports : list Z) : list (Z * nat) :=
  fold_left (fun counts port => bump port counts) ports [].

(** [sorted(items, key=lambda x: x[1], reverse=True)]: stable, so entries
    with equal counts keep their order. *)
Fixpoint insert_by_count (x : Z * nat) (l : list (Z * nat)) : list (Z * nat) :=
  match l with
  | [] => [x]
  | y :: l' =>
      if (snd y <=? snd x)%nat then x :: y :: l' else y :: insert_by_count x l'
  end.

Definition sort_by_count_desc (l : list (Z * nat)) : list (Z * nat) :=
  fold_right insert_by_count [] l.

(** Ascending order of the port, for the groups of [GROUP BY port]. *)
Fixpoint insert_by_port (x : Z * nat) (l : list (Z * nat)) : list (Z * nat) :=
  match l with
  | [] => [x]
  | y :: l' =>
      if (fst x <=? fst y)%Z then x :: y :: l' else y :: insert_by_port x l'
  end.

Definition sort_by_port (l : list (Z * nat)) : list (Z * nat) :=
  fold_right insert_by_port [] l.

(** [COUNT(DISTINCT ip)] and [len(set(...))] *)
Definition count_distinct (ips : list string) : nat :=
  size (list_to_set ips : gset string).

(** The constructors, called with stored values: [ScanResult(...)] rejects
    a port out of range and [ScanSession(...)] a status that is no value
    of [ScanStatus]; the session starts with an empty result list. *)
Definition new_ScanResult {S} (ip : string) (port : Z) (service banner : option string)
           (is_new : bool) (timestamp : datetime) (scan_id : option string)
  : M S ScanResult :=
  if valid_port port
  then mret (mkScanResult ip port service banner is_new timestamp scan_id)
  else raise (mkExn OtherException "validation error").

Definition new_ScanSession {S} (id status : string) (start_time : datetime)
           (end_time : option datetime) (targets : list string)
           (total_results new_results : nat) (errors : list string)
  : M S ScanSession :=
  match status_of_value status with
  | Some st =>
      mret (mkScanSession id st start_time end_time targets [] total_results
                          new_results errors)
  | None => raise (mkExn OtherException "validation error")
  end.

(** [session.results.append(result)] and [results.append(result)] *)
Definition append_result (result : ScanResult) (session : ScanSession) : ScanSession :=
  set_results (results session ++ [result]) session.

(** The range of [datetime]: the first point of the clock is
    [datetime.min], [day] points make one day, and [datetime.max] is the
    last point of day 3652059 (the 31st of December of the year 9999). *)
Definition in_datetime_range (day : nat) (d : Z) : bool :=
  ((0 <=? d) && (d <? 3652059 * Z.of_nat day))%Z.

(** [timedelta(days=days)] takes at most 999999999 days. *)
Definition in_timedelta_range (days : Z) : bool :=
  (Z.abs days <=? 999999999)%Z.

(** [datetime.now() - timedelta(days=days)], for the reading [t] of the
    clock: both steps raise [OverflowError] out of their range. *)
Definition cutoff_date {S} (t : datetime) (day : nat) (days : Z) : M S Z :=
  if negb (in_timedelta_range days)
  then raise (mkExn OtherException
                    ("days=" +:+ Py.str_of_Z days +:+ "; must have magnitude <= 999999999"))
  else
    let d := (Z.of_nat t - days * Z.of_nat day)%Z in
    if in_datetime_range day d
    then mret d
    else raise (mkExn OtherException "date value out of range").

(** Descending order of the timestamp; rows with equal timestamps keep
    their order. *)
Fixpoint insert_by_time {A} (time : A -> datetime) (x : A) (l : list A) : list A :=
  match l with
  | [] => [x]
  | y :: l' =>
      if (time y <=? time x)%nat then x :: y :: l' else y :: insert_by_time time x l'
  end.

Definition sort_by_time_desc {A} (time : A -> datetime) (l : list A) : list A :=
  fold_right (insert_by_time time) [] l.

End Storage.

Module SQLite.
Import Models World Disk Env Storage.

Record SQLiteStorage : Type := { db_path : string }.

(** [self._get_connection()] *)
Definition _get_connection (self : SQLiteStorage) : M world unit := fun w =>
  match fault (db w) with
  | Some (CannotOpen msg) => (Raise (mkExn OtherException msg), w)
  | _ => (Ok tt, w)
  end.

(** [cursor.execute(...)] of a statement [q] on the database. *)
Definition execute {A} (q : sqlite_db -> result A * sqlite_db) : M world A := fun w =>
  match fault (db w) with
  | Some f => (Raise (mkExn OtherException (fault_message f)), w)
  | None =>
      match q (db w) with
      | (r, d) => (r, set_db d w)
      end
  end.

(** [INSERT OR REPLACE INTO scan_sessions ...]: a row with the same primary
    key is removed first. *)
Definition upsert_session (row : session_row) (d : sqlite_db) : result unit * sqlite_db :=
  (Ok tt,
   mkDb (filter (fun s => s_id s ≠ s_id row) (scan_sessions d) ++ [row])
        (scan_results d) (fault d)).

(** The constraints that [INSERT INTO scan_results] checks: the primary key
    [id] and [UNIQUE(ip, port)]. *)
Definition violates (row : result_row) (table : list result_row) : bool :=
  existsb (fun r => String.eqb (r_id r) (r_id row)
                    || (String.eqb (r_ip r) (r_ip row) && (r_port r =? r_port row)%Z))
          table.

(** [INSERT INTO scan_results ...] *)
Definition insert_result (row : result_row) (d : sqlite_db) : result unit * sqlite_db :=
  if violates row (scan_results d)
  then (Raise (mkExn IntegrityError "UNIQUE constraint failed"), d)
  else (Ok tt, mkDb (scan_sessions d) (scan_results d ++ [row]) (fault d)).

Definition session_row_of (session : ScanSession) : session_row :=
  mkSessionRow (id session) (status_value (status session)) (start_time session)
               (end_time session) (targets session)
               (Models.total_results session) (new_results session)
               (match errors session with [] => None | es => Some es end).

Definition result_row_of (result_id session_id : string) (result : ScanResult) : result_row :=
  mkResultRow result_id session_id (ip result) (port result) (service result)
              (banner result) (is_new result) (timestamp result).

(** [conn.rollback()]: back to the state at the start of the transaction. *)
Definition rollback (snapshot : sqlite_db) : M world unit :=
  modify (set_db snapshot).

(** [result.is_new = False] on the [i]-th result of the session. *)
Definition mark_not_new (i : nat) (session : ScanSession) : ScanSession :=
  set_results (alter (set_is_new false) i (results session)) session.

(** One iteration of the loop over [session.results], for the result at
    position [fst ir].  The local object is the session. *)
Definition save_result (E : env) (session_id : string) (ir : nat * ScanResult)
  : M (ScanSession * world) unit :=
  result_id ← zoom (uuid4 E);
  try_except
    (zoom (execute (insert_result (result_row_of result_id session_id (snd ir)))))
    (fun e =>
       match kind e with
       | IntegrityError => assign (mark_not_new (fst ir))
       | _ => raise e
       end).

(** [SQLiteStorage.save_scan_session]; the connection is made before the
    [try] block. *)
Definition save_scan_session (self : SQLiteStorage) (E : env) (session : ScanSession)
  : M world (bool * ScanSession) :=
  _ ← _get_connection self;
  w0 ← get;
  with_local session (
    ok ← try_except
           (_ ← zoom (execute (upsert_session (session_row_of session)));
            _ ← for_each (imap pair (results session)) (save_result E (id session));
            mret true)
           (fun e => _ ← zoom (rollback (db w0)); mret false);
    s ← local;
    mret (ok, s)).

(** [SELECT COUNT( * ) FROM scan_results WHERE ip = ? AND port = ?] *)
Definition count_matching (ip : string) (port : Z) (d : sqlite_db) : result nat * sqlite_db :=
  (Ok (length (filter (fun r => r_ip r = ip ∧ r_port r = port) (scan_results d))), d).

(** [SQLiteStorage.check_is_new_result] *)
Definition check_is_new_result (self : SQLiteStorage) (result : ScanResult) : M world bool :=
  _ ← _get_connection self;
  try_except
    (count ← execute (count_matching (ip result) (port result));
     mret (count =? 0)%nat)
    (fun e => mret true).

(** The four queries of [get_statistics].  SQL leaves the order of groups
    with equal counts open; SQLite, with the tables and indexes of
    [_init_db], gives them in descending order of the port, and so they
    come here. *)
Definition select_statistics (d : sqlite_db) : result Stats.statistics * sqlite_db :=
  let total_results := length (scan_results d) in
  let unique_hosts := count_distinct (map r_ip (scan_results d)) in
  let total_scans :=
    length (filter (fun s => s_status s = "completed") (scan_sessions d)) in
  let popular_ports :=
    firstn 10 (sort_by_count_desc
                 (rev (sort_by_port (port_counts (map r_port (scan_results d)))))) in
  (Ok (Stats.mkStatistics total_results unique_hosts total_scans popular_ports), d).

(** [SQLiteStorage.get_statistics]; [None] is the empty dictionary that the
    handler returns. *)
Definition get_statistics (self : SQLiteStorage) : M world (option Stats.statistics) :=
  _ ← _get_connection self;
  try_except
    (st ← execute select_statistics; mret (Some st))
    (fun e => mret None).

#[global] Instance SQLite_storage : BaseStorage SQLiteStorage := {
  Storage.save_scan_session := save_scan_session;
  Storage.check_is_new_result := check_is_new_result;
  Storage.get_statistics := get_statistics;
}.

(** [SELECT * FROM scan_sessions WHERE id = ?] with [fetchone()] *)
Definition select_session (scan_id : string) (d : sqlite_db)
  : result (option session_row) * sqlite_db :=
  (Ok (List.find (fun s => String.eqb (s_id s) scan_id) (scan_sessions d)), d).

(** [SELECT * FROM scan_results WHERE scan_id = ?] *)
Definition select_results_of (scan_id : string) (d : sqlite_db)
  : result (list result_row) * sqlite_db :=
  (Ok (filter (fun r => r_scan_id r = scan_id) (scan_results d)), d).

(** [ScanResult(...)] from a row. *)
Definition result_of_row {S} (row : result_row) : M S ScanResult :=
  new_ScanResult (r_ip row) (r_port row) (r_service row) (r_banner row)
                 (r_is_new row) (r_timestamp row) (Some (r_scan_id row)).

(** [SQLiteStorage.get_scan_session]; the local object is [session]. *)
Definition get_scan_session (self : SQLiteStorage) (scan_id : string)
  : M world (option ScanSession) :=
  _ ← _get_connection self;
  try_except
    (session_row ← execute (select_session scan_id);
     match session_row with
     | None => mret None
     | Some row =>
         session ← new_ScanSession (s_id row) (s_status row) (s_start_time row)
                     (s_end_time row) (s_targets row) (s_total_results row)
                     (s_new_results row) (default [] (s_errors row));
         rows ← execute (select_results_of scan_id);
         with_local session (
           _ ← for_each rows (fun row =>
                  result ← result_of_row row;
                  assign (append_result result));
           session ← local;
           mret (Some session))
     end)
    (fun e => mret None).

(** [SELECT * FROM scan_results ORDER BY timestamp DESC].  SQL leaves the
    order of rows with equal timestamps open; SQLite reads the index on
    the timestamp backwards, which gives them the last inserted first, and
    so they come here. *)
Definition select_all_results (d : sqlite_db) : result (list result_row) * sqlite_db :=
  (Ok (sort_by_time_desc r_timestamp (rev (scan_results d))), d).

(** [SQLiteStorage.get_all_results]; the local object is [results]. *)
Definition get_all_results (self : SQLiteStorage) : M world (list ScanResult) :=
  _ ← _get_connection self;
  try_except
    (rows ← execute select_all_results;
     with_local [] (
       _ ← for_each rows (fun row =>
              result ← result_of_row row;
              assign (fun results => results ++ [result]));
       local))
    (fun e => mret []).

(** [DELETE FROM scan_results WHERE timestamp < ?]; the value is
    [cursor.rowcount]. *)
Definition delete_older (cutoff : Z) (d : sqlite_db) : result nat * sqlite_db :=
  let kept := filter (fun r => (cutoff ≤ Z.of_nat (r_timestamp r))%Z) (scan_results d) in
  (Ok (length (scan_results d) - length kept),
   mkDb (scan_sessions d) kept (fault d)).

(** [SQLiteStorage.delete_old_results] *)
Definition delete_old_results (self : SQLiteStorage) (day : nat) (days : Z)
  : M world nat :=
  _ ← _get_connection self;
  w0 ← get;
  try_except
    (t ← now;
     cutoff_date ← cutoff_date t day days;
     deleted_count ← execute (delete_older cutoff_date);
     mret deleted_count)
    (fun e => _ ← rollback (db w0); mret 0).

(** An integer that can be bound to a parameter of a statement: the
    range of a signed 64-bit integer. *)
Definition fits_integer (n : Z) : bool :=
  ((- 2 ^ 63 <=? n) && (n <? 2 ^ 63))%Z.

(** [SELECT id FROM scan_sessions ORDER BY start_time DESC LIMIT ?]: a
    negative limit is no limit, and a limit that does not fit an INTEGER
    raises [OverflowError] when it is bound.  SQL leaves the order of
    sessions that started at the same time open; SQLite gives them in the
    order in which they were stored, and so they come here. *)
Definition select_recent (limit : Z) (d : sqlite_db) : result (list string) * sqlite_db :=
  if negb (fits_integer limit)
  then (Raise (mkExn OtherException "Python int too large to convert to SQLite INTEGER"), d)
  else
    let ids := map s_id (sort_by_time_desc s_start_time (scan_sessions d)) in
    (Ok (if (limit <? 0)%Z then ids else firstn (Z.to_nat limit) ids), d).

(** [SQLiteStorage.get_scan_history]; the local object is [sessions]. *)
Definition get_scan_history (self : SQLiteStorage) (limit : Z)
  : M world (list ScanSession) :=
  _ ← _get_connection self;
  try_except
    (ids ← execute (select_recent limit);
     with_local [] (
       _ ← for_each ids (fun id =>
              session ← zoom (get_scan_session self id);
              match session with
              | Some session => assign (fun sessions => sessions ++ [session])
              | None => mret tt
              end);
       local))
    (fun e => mret []).

End SQLite.

Module JSON.
Import Models World Disk Env Storage.

Record JSONStorage : Type := { file_path : string }.

(** [_load_data]: a file that cannot be read yields the empty document. *)
Definition _load_data : M world json_value := fun w =>
  match content (json w) with
  | Document data => (Ok (Dict data), w)
  | Unreadable => (Ok (Dict initial_data), w)
  | Foreign getitem => (Ok (NoDict getitem), w)
  end.

(** The first subscription [data[key]] that a method makes on the value
    it has loaded: it raises on a value that is no document; otherwise the
    value is the dictionary with both lists. *)
Definition subscript {S} (data : json_value) (key : string) : M S json_data :=
  match data with
  | Dict data => mret data
  | NoDict getitem => raise (getitem key)
  end.

(** [_save_data]: [False] when the file cannot be written. *)
Definition _save_data (data : json_data) : M world bool := fun w =>
  if writable (json w)
  then (Ok true, set_json (mkFile (Document data) true) w)
  else (Ok false, w).

Definition session_dict_of (session : ScanSession) : session_dict :=
  mkSessionDict (id session) (status_value (status session)) (start_time session)
                (end_time session) (targets session)
                (Models.total_results session) (new_results session).

Definition result_dict_of (session_id : string) (result : ScanResult) : result_dict :=
  mkResultDict (ip result) (port result) (service result) (banner result)
               (is_new result) (timestamp result) session_id.

(** One iteration of the loop over [session.results]. *)
Definition add_result (session_id : string) (data : json_data) (result : ScanResult)
  : json_data :=
  let result_dict := result_dict_of session_id result in
  let exists_ :=
    existsb (fun r => String.eqb (rd_ip r) (ip result) && (rd_port r =? port result)%Z)
            (doc_results data) in
  if negb exists_
  then mkData (doc_sessions data) (doc_results data ++ [result_dict])
  else data.

(** [JSONStorage.save_scan_session] *)
Definition save_scan_session (self : JSONStorage) (E : env) (session : ScanSession)
  : M world (bool * ScanSession) :=
  data ← _load_data;
  let session_dict := session_dict_of session in
  data ← subscript data "sessions";
  let data :=
    mkData (filter (fun s => sd_id s ≠ id session) (doc_sessions data) ++ [session_dict])
           (doc_results data) in
  let data := fold_left (add_result (id session)) (results session) data in
  ok ← _save_data data;
  mret (ok, session).

(** [JSONStorage.check_is_new_result] *)
Definition check_is_new_result (self : JSONStorage) (result : ScanResult) : M world bool :=
  data ← _load_data;
  data ← subscript data "results";
  mret (negb (existsb (fun r => String.eqb (rd_ip r) (ip result)
                                && (rd_port r =? port result)%Z)
                      (doc_results data))).

(** [JSONStorage.get_statistics] *)
Definition get_statistics (self : JSONStorage) : M world (option Stats.statistics) :=
  data ← _load_data;
  data ← subscript data "results";
  let total_results := length (doc_results data) in
  let unique_hosts := count_distinct (map rd_ip (doc_results data)) in
  let port_counts := port_counts (map rd_port (doc_results data)) in
  let popular_ports := firstn 10 (sort_by_count_desc port_counts) in
  mret (Some (Stats.mkStatistics total_results unique_hosts
                                 (length (doc_sessions data)) popular_ports)).

#[global] Instance JSON_storage : BaseStorage JSONStorage := {
  Storage.save_scan_session := save_scan_session;
  Storage.check_is_new_result := check_is_new_result;
  Storage.get_statistics := get_statistics;
}.

(** [ScanResult(...)] from an entry of ['results']. *)
Definition result_of_dict {S} (result_dict : result_dict) : M S ScanResult :=
  new_ScanResult (rd_ip result_dict) (rd_port result_dict) (rd_service result_dict)
                 (rd_banner result_dict) (rd_is_new result_dict)
                 (rd_timestamp result_dict) (Some (rd_scan_id result_dict)).

(** [JSONStorage.get_scan_session]: the first entry of ['sessions'] with
    the identifier; the local object is [session]. *)
Definition get_scan_session (self : JSONStorage) (scan_id : string)
  : M world (option ScanSession) :=
  data ← _load_data;
  data ← subscript data "sessions";
  match List.find (fun s => String.eqb (sd_id s) scan_id) (doc_sessions data) with
  | Some session_dict =>
      session ← new_ScanSession (sd_id session_dict) (sd_status session_dict)
                  (sd_start_time session_dict) (sd_end_time session_dict)
                  (sd_targets session_dict) (sd_total_results session_dict)
                  (sd_new_results session_dict) [];
      with_local session (
        _ ← for_each (doc_results data) (fun result_dict =>
               if String.eqb (rd_scan_id result_dict) scan_id
               then result ← result_of_dict result_dict;
                    assign (append_result result)
               else mret tt);
        session ← local;
        mret (Some session))
  | None => mret None
  end.

(** [JSONStorage.get_all_results]; the local object is [results]. *)
Definition get_all_results (self : JSONStorage) : M world (list ScanResult) :=
  data ← _load_data;
  data ← subscript data "results";
  with_local [] (
    _ ← for_each (doc_results data) (fun result_dict =>
           result ← result_of_dict result_dict;
           assign (fun results => results ++ [result]));
    local).

(** [JSONStorage.delete_old_results] *)
Definition delete_old_results (self : JSONStorage) (day : nat) (days : Z)
  : M world nat :=
  data ← _load_data;
  t ← now;
  cutoff_date ← cutoff_date t day days;
  data ← subscript data "results";
  let original_count := length (doc_results data) in
  let data :=
    mkData (doc_sessions data)
           (filter (fun r => (cutoff_date < Z.of_nat (rd_timestamp r))%Z)
                   (doc_results data)) in
  let deleted_count := original_count - length (doc_results data) in
  _ ← _save_data data;
  mret deleted_count.

(** [JSONStorage.get_scan_history]: [sorted(..., reverse=True)] is stable;
    the local object is [sessions]. *)
Definition get_scan_history (self : JSONStorage) (limit : Z)
  : M world (list ScanSession) :=
  data ← _load_data;
  data ← subscript data "sessions";
  let recent :=
    Py.slice_to limit (sort_by_time_desc sd_start_time (doc_sessions data)) in
  with_local [] (
    _ ← for_each recent (fun session_dict =>
           session ← zoom (get_scan_session self (sd_id session_dict));
           match session with
           | Some session => assign (fun sessions => sessions ++ [session])
           | None => mret tt
           end);
    local).

End JSON.

(** *** scanner.py *)

Module Scanner.
Import Models World Disk Env.

Record MasscanScanner : Type := {
  rate : Z;
  timeout : Z;
}.

(** The body of [for host_data in data.get('host', [])]; a failing lookup
    or a rejected [ScanResult(...)] raises.  The local object is the list
    [results]. *)
Definition parse_host (host_data : Env.host_data) : M (list ScanResult * world) unit :=
  ip ← match addr host_data with
       | Some ip => mret ip
       | None => raise (mkExn OtherException "addr")
       end;
  for_each (ports host_data) (fun port_data =>
    port ← match port_data with
           | Some p => mret p
           | None => raise (mkExn OtherException "port")
           end;
    let service := Utils.get_service_name port "" in
    t ← zoom now;
    if valid_port port
    then assign (fun results =>
                   results ++ [mkScanResult ip port (Some service) None true t None])
    else raise (mkExn OtherException "validation error")).

(** The body of [for line in raw_data.strip().split(...)]. *)
Definition parse_line (line : json_line) : M (list ScanResult * world) unit :=
  match line with
  | Blank => mret tt                       (* continue *)
  | Malformed => mret tt                   (* except json.JSONDecodeError: continue *)
  | Record_ hosts =>
      try_except (for_each hosts parse_host)
                 (fun e => mret tt)        (* except Exception: continue *)
  end.

(** [_parse_masscan_output] *)
Definition _parse_masscan_output (output_file : string) : M world (list ScanResult) :=
  with_local [] (
    _ ← try_except
          (w ← zoom get;
           match files w !! output_file with
           | None => mret tt               (* the file does not exist *)
           | Some lines => for_each lines parse_line
           end)
          (fun e => mret tt);
    local).

(** [asyncio.create_subprocess_exec( *cmd, ...)] *)
Definition create_subprocess_exec (E : env) (cmd : list string) : M world unit := fun w =>
  match spawn_error E with
  | Some e => (Raise e, w)
  | None => (Ok tt, set_proc ProcRunning (set_trace (trace w ++ [Spawned cmd]) w))
  end.

(** [asyncio.wait_for(process.communicate(), timeout=self.timeout)]: the
    value is what the program wrote to stderr.  When the time is up the
    wait is abandoned and [TimeoutError] is raised; the process itself is
    not touched. *)
Definition wait_for_communicate (E : env) (output_file : string) : M world string := fun w =>
  let w := match masscan_written E with
           | Some lines => set_files (<[output_file := lines]> (files w)) w
           | None => w
           end in
  match masscan_finished E with
  | Some (returncode, stderr) => (Ok stderr, set_proc (ProcExited returncode) w)
  | None => (Raise (mkExn TimeoutError ""), w)
  end.

(** [process.returncode] *)
Definition returncode (w : world) : option Z :=
  match proc w with
  | ProcExited rc => Some rc
  | _ => None
  end.

(** [Path(output_file).unlink(missing_ok=True)]: a file that is not there
    is no error; any other failure raises and the file stays. *)
Definition unlink (E : env) (path : string) : M world unit := fun w =>
  match unlink_error E with
  | Some e => (Raise e, w)
  | None => (Ok tt, set_files (delete path (files w)) w)
  end.

(** [MasscanScanner._run_masscan] *)
Definition _run_masscan (self : MasscanScanner) (E : env)
           (targets : list string) (ports : list Z) : M world (list ScanResult) :=
  u ← uuid4 E;
  let output_file := "/tmp/masscan_output_" +:+ u +:+ ".json" in
  let port_str := String.concat "," (map Py.str_of_Z ports) in
  let target_str := String.concat " " targets in
  let cmd := [ "masscan"; target_str; "-p"; port_str;
               "--rate"; Py.str_of_Z (rate self);
               "-oJ"; output_file; "--wait"; "5" ] in
  try_finally
    (try_except
       (_ ← create_subprocess_exec E cmd;
        stderr ← wait_for_communicate E output_file;
        w ← get;
        if bool_decide (returncode w ≠ Some 0%Z)
        then
          let error_msg := if Py.truthy stderr then stderr else "Unknown error" in
          raise (mkExn RuntimeError ("Masscan failed: " +:+ error_msg))
        else _parse_masscan_output output_file)
       (fun e => raise e))                  (* both handlers log and re-raise *)
    (try_except (unlink E output_file)
                (fun e => mret tt)).        (* except Exception: pass *)

(** The steps of one probe, as the peer's script decides them. *)
Definition open_connection (E : env) (ip : string) (port : Z) : M world unit :=
  _ ← emit (Connecting ip port);
  match on_connect (net E ip port) with
  | Some e => raise e
  | None => mret tt
  end.

Definition drain (E : env) (ip : string) (port : Z) : M world unit :=
  match on_drain (net E ip port) with
  | Some e => raise e
  | None => mret tt
  end.

Definition read (E : env) (ip : string) (port : Z) : M world string :=
  match on_read (net E ip port) with
  | inl e => raise e
  | inr data => mret data
  end.

Definition wait_closed (E : env) (ip : string) (port : Z) : M world unit :=
  match on_wait_closed (net E ip port) with
  | Some e => raise e
  | None => mret tt
  end.

(** [MasscanScanner._get_banner_for_port]; the local object is [result]. *)
Definition _get_banner_for_port (E : env) (result : ScanResult)
  : M world (option ScanResult) :=
  with_local result (
    _ ← try_except
          (_ ← zoom (open_connection E (ip result) (port result));
           _ ← zoom (drain E (ip result) (port result));
           data ← zoom (read E (ip result) (port result));
           _ ← assign (set_banner (Some (Py.take 200 data)));
           r ← local;
           let service := BannerAnalyzer.analyze (default "" (banner r)) in
           _ ← assign (set_service (Some service));
           zoom (wait_closed E (ip result) (port result)))
          (fun e =>
             match kind e with
             | TimeoutError => mret tt
             | ConnectionRefusedError => mret tt
             | _ => mret tt                 (* logged *)
             end);
    r ← local;
    mret (Some r)).

(** [[r for r in updated_results if r and not isinstance(r, Exception)]] *)
Definition keep_results (updated_results : list (result (option ScanResult)))
  : list ScanResult :=
  omap (fun r => match r with
                 | Ok (Some x) => Some x
                 | Ok None => None
                 | Raise _ => None
                 end) updated_results.

(** [MasscanScanner._get_banners_async] *)
Definition _get_banners_async (E : env) (results : list ScanResult)
  : M world (list ScanResult) :=
  let tasks := map (_get_banner_for_port E) results in
  updated_results ← gather tasks;
  mret (keep_results updated_results).

(** [MasscanScanner.scan_async]; the local object is [session]. *)
Definition scan_async (self : MasscanScanner) (E : env)
           (targets : list string) (ports : list Z) (get_banners : bool)
  : M world ScanSession :=
  session_id ← uuid4 E;
  t0 ← now;
  with_local (mkScanSession session_id RUNNING t0 None targets [] 0 0 []) (
    _ ← try_except
          (results ← zoom (_run_masscan self E targets ports);
           _ ← assign (set_results results);
           results ← (if get_banners && negb (bool_decide (results = []))
                      then
                        results ← zoom (_get_banners_async E results);
                        _ ← assign (set_results results);
                        mret results
                      else mret results);
           _ ← assign (set_total_results (length results));
           _ ← assign (set_status COMPLETED);
           t ← zoom now;
           assign (set_end_time (Some t)))
          (fun e =>
             _ ← assign (set_status FAILED);
             _ ← assign (append_error (str_exn e));
             t ← zoom now;
             assign (set_end_time (Some t)));
    local).

End Scanner.

(** *** notify.py *)

Module Notify.
Import Models World Disk Env.

(** [class BaseNotifier(ABC)] *)
Class BaseNotifier (T : Type) : Type := {
  send : T -> env -> string -> M world bool;
  is_enabled : T -> bool;
  class_name : T -> string;         (* notifier.__class__.__name__ *)
}.

Record TelegramNotifier : Type := mkTelegram {
  token : string;
  chat_id : string;
  api_url : string;
  telegram_enabled : bool;           (* self._enabled *)
}.

(** [TelegramNotifier.__init__] *)
Definition new_TelegramNotifier (token chat_id : string) : TelegramNotifier :=
  mkTelegram token chat_id ("https://api.telegram.org/bot" +:+ token)
             (Py.truthy token && Py.truthy chat_id).

(** [session.post(url, ...)], reduced to the status of the response. *)
Definition post (E : env) (url : string) : M world Z :=
  match http_post E url with
  | inl e => raise e
  | inr status => mret status
  end.

(** [TelegramNotifier.send] *)
Definition telegram_send (self : TelegramNotifier) (E : env) (message : string)
  : M world bool :=
  if negb (telegram_enabled self) then mret false
  else
    try_except
      (status ← post E (api_url self +:+ "/sendMessage");
       if (status =? 200)%Z then mret true else mret false)
      (fun e => mret false).

#[global] Instance Telegram_notifier : BaseNotifier TelegramNotifier := {
  send := telegram_send;
  is_enabled := telegram_enabled;
  class_name := fun _ => "TelegramNotifier";
}.

Record EmailNotifier : Type := mkEmail {
  smtp_server : string;
  smtp_port : option Z;              (* an integer or [None] *)
  sender_email : string;
  sender_password : string;
  recipient : string;
  email_enabled : bool;              (* self._enabled *)
}.

(** Truthiness of an integer or [None]. *)
Definition truthy_int (n : option Z) : bool :=
  match n with
  | Some n => negb (n =? 0)%Z
  | None => false
  end.

(** [EmailNotifier.__init__]: [all([...])], where an integer is true when
    it is not zero. *)
Definition new_EmailNotifier (smtp_server : string) (smtp_port : option Z)
           (sender_email sender_password recipient : string) : EmailNotifier :=
  mkEmail smtp_server smtp_port sender_email sender_password recipient
          (forallb (fun b => b) [ Py.truthy smtp_server; truthy_int smtp_port;
                        Py.truthy sender_email; Py.truthy sender_password;
                        Py.truthy recipient ]).

(** [EmailNotifier._send_sync] *)
Definition _send_sync (self : EmailNotifier) (E : env) (message : string) : M world bool :=
  try_except
    (_ ← match smtp_send E with
         | Some e => raise e
         | None => mret tt
         end;
     mret true)
    (fun e => mret false).

(** [EmailNotifier.send] *)
Definition email_send (self : EmailNotifier) (E : env) (message : string) : M world bool :=
  if negb (email_enabled self) then mret false
  else try_except (_send_sync self E message) (fun e => mret false).

#[global] Instance Email_notifier : BaseNotifier EmailNotifier := {
  send := email_send;
  is_enabled := email_enabled;
  class_name := fun _ => "EmailNotifier";
}.

Record DiscordNotifier : Type := mkDiscord {
  webhook_url : string;
  discord_enabled : bool;            (* self._enabled *)
}.

(** [DiscordNotifier.__init__] *)
Definition new_DiscordNotifier (webhook_url : string) : DiscordNotifier :=
  mkDiscord webhook_url (Py.truthy webhook_url).

(** [DiscordNotifier.send] *)
Definition discord_send (self : DiscordNotifier) (E : env) (message : string)
  : M world bool :=
  if negb (discord_enabled self) then mret false
  else
    try_except
      (status ← post E (webhook_url self);
       if (status =? 200)%Z || (status =? 204)%Z then mret true else mret false)
      (fun e => mret false).

#[global] Instance Discord_notifier : BaseNotifier DiscordNotifier := {
  send := discord_send;
  is_enabled := discord_enabled;
  class_name := fun _ => "DiscordNotifier";
}.

(** A sender whose behaviour is fixed in advance: it returns the given
    value or raises the given exception.  It stands for any other subclass
    of [BaseNotifier], and for the senders of a test. *)
Record ScriptedNotifier : Type := mkScripted {
  scripted_name : string;
  scripted_enabled : bool;
  scripted_outcome : result bool;
}.

#[global] Instance Scripted_notifier : BaseNotifier ScriptedNotifier := {
  send := fun self _ _ w => (scripted_outcome self, w);
  is_enabled := scripted_enabled;
  class_name := scripted_name;
}.

(** An object of some subclass of [BaseNotifier]. *)
Inductive notifier : Type :=
| Notifier {T : Type} `{BaseNotifier T} (self : T).

Definition n_send (n : notifier) : env -> string -> M world bool :=
  match n with Notifier self => send self end.
Definition n_is_enabled (n : notifier) : bool :=
  match n with Notifier self => is_enabled self end.
Definition n_class_name (n : notifier) : string :=
  match n with Notifier self => class_name self end.

Record NotificationManager : Type := mkManager {
  notifiers : list notifier;
}.

(** [NotificationManager.__init__] *)
Definition new_NotificationManager : NotificationManager := mkManager [].

(** [NotificationManager.add_notifier] *)
Definition add_notifier (self : NotificationManager) (n : notifier) : NotificationManager :=
  if n_is_enabled n then mkManager (notifiers self ++ [n]) else self.

(** The call [notifier.send(message)] made for one channel. *)
Definition call_send (E : env) (message : string) (n : notifier) : M world bool :=
  _ ← emit (SendCalled (n_class_name n) message);
  n_send n E message.

(** [sum(1 for r in results if r is True)] *)
Definition is_True (r : result bool) : bool :=
  match r with
  | Ok true => true
  | Ok false => false
  | Raise _ => false
  end.

Definition count_true (results : list (result bool)) : nat :=
  length (List.filter is_True results).

(** [NotificationManager.notify_all] *)
Definition notify_all (self : NotificationManager) (E : env) (message : string)
  : M world nat :=
  if bool_decide (notifiers self = []) then mret 0
  else
    let tasks := map (call_send E message) (notifiers self) in
    results ← gather tasks;
    let success_count := count_true results in
    mret success_count.

(** The [notifications] part of the configuration, as the dictionary that
    [create_notification_manager] receives.  For a text field [None] is a
    key that is missing or whose value is [None]: the sender is built with
    a text that is not true in both cases, and is not enabled.  For the
    port the two differ: a missing key ([None]) gives 587, the value
    [None] ([Some None]) is passed on. *)
Record telegram_section : Type := {
  tg_enabled : bool;
  tg_token : option string;
  tg_chat_id : option string;
}.
Record email_section : Type := {
  em_enabled : bool;
  em_smtp_server : option string;
  em_smtp_port : option (option Z);
  em_sender_email : option string;
  em_sender_password : option string;
  em_recipient : option string;
}.
Record discord_section : Type := {
  dc_enabled : bool;
  dc_webhook_url : option string;
}.
Record notifications_config : Type := {
  cfg_telegram : option telegram_section;
  cfg_email : option email_section;
  cfg_discord : option discord_section;
}.

(** [create_notification_manager] *)
Definition create_notification_manager (config : notifications_config)
  : NotificationManager :=
  let manager := new_NotificationManager in
  let manager :=
    match cfg_telegram config with
    | Some c =>
        if tg_enabled c
        then add_notifier manager
               (Notifier (new_TelegramNotifier (default "" (tg_token c))
                                               (default "" (tg_chat_id c))))
        else manager
    | None => manager
    end in
  let manager :=
    match cfg_email config with
    | Some c =>
        if em_enabled c
        then add_notifier manager
               (Notifier (new_EmailNotifier (default "" (em_smtp_server c))
                                            (default (Some 587%Z) (em_smtp_port c))
                                            (default "" (em_sender_email c))
                                            (default "" (em_sender_password c))
                                            (default "" (em_recipient c))))
        else manager
    | None => manager
    end in
  let manager :=
    match cfg_discord config with
    | Some c =>
        if dc_enabled c
        then add_notifier manager
               (Notifier (new_DiscordNotifier (default "" (dc_webhook_url c))))
        else manager
    | None => manager
    end in
  manager.

End Notify.

(** *** main.py *)

Module Main.
Import Models World Disk Env Storage Notify.

Record PortScannerApplication (T : Type) : Type := mkApp {
  config_targets : list string;            (* self.config.scan.targets *)
  config_ports : list Z;                   (* self.config.scan.ports *)
  scanner : Scanner.MasscanScanner;
  storage : T;
  notifier : NotificationManager;
}.
Arguments mkApp {T}.
Arguments config_targets {T}.
Arguments config_ports {T}.
Arguments scanner {T}.
Arguments storage {T}.
Arguments notifier {T}.

(** [sorted(session.results, key=lambda x: x.port)] (stable). *)
Fixpoint insert_by_port (x : ScanResult) (l : list ScanResult) : list ScanResult :=
  match l with
  | [] => [x]
  | y :: l' => if (port x <=? port y)%Z then x :: y :: l' else y :: insert_by_port x l'
  end.
Definition sorted_by_port (l : list ScanResult) : list ScanResult :=
  fold_right insert_by_port [] l.

(** One line of the closing report: formatting [result.service] with a
    width raises when the service is [None]. *)
Definition log_discovery (result : ScanResult) : M world unit :=
  match service result with
  | Some _ => mret tt
  | None => raise (mkExn OtherException "unsupported format string passed to NoneType.__format__")
  end.

(** The entries and the summary handed to [format_notification_message]. *)
Definition discovery_of (r : ScanResult) : Utils.discovery :=
  Utils.mkDiscovery (ip r) (port r)
    (match service r with
     | Some s => if Py.truthy s then s else "Unknown"
     | None => "Unknown"
     end).

Definition summary_of (session : ScanSession) (total_ports_found : nat) : gmap string Z :=
  {[ "duration" := default 0%Z (duration_seconds session);
     "total_ports" := Z.of_nat total_ports_found ]}.

(** The body of [PortScannerApplication.run_scan].  The local object is the
    session of the run ([None] until the scanner has returned it). *)
Definition run_scan_body {T} `{BaseStorage T} (self : PortScannerApplication T) (E : env)
  : M (option ScanSession * world) bool :=
  try_except
    (_ ← zoom now;                                        (* stats = ScanStatistics() *)
     session ← zoom (Scanner.scan_async (scanner self) E
                       (config_targets self) (config_ports self) true);
     _ ← assign (fun _ => Some session);
     match status session with
     | FAILED => mret false
     | _ =>
         saved ← zoom (save_scan_session (storage self) E session);
         let session := snd saved in
         let new_results := List.filter is_new (results session) in
         let session := set_new_results (length new_results) session in
         let session := set_total_results (length (results session)) session in
         _ ← assign (fun _ => Some session);
         saved ← zoom (save_scan_session (storage self) E session);
         let session := snd saved in
         _ ← assign (fun _ => Some session);
         _ ← zoom now;                                    (* stats.finalize() *)
         let total_ports_found := length (results session) in
         _ ← zoom now;                                    (* summary = stats.finalize() *)
         _ ← match new_results with
             | _ :: _ =>
                 t ← zoom now;
                 let message :=
                   Utils.format_notification_message (strftime E t)
                     (map discovery_of new_results)
                     (summary_of session total_ports_found) in
                 _ ← zoom (notify_all (notifier self) E message);
                 mret tt
             | [] => mret tt                              (* "No new discoveries in this scan" *)
             end;
         _ ← zoom (for_each (firstn 10 (sorted_by_port (results session))) log_discovery);
         mret true
     end)
    (fun e => mret false).

(** [PortScannerApplication.run_scan] *)
Definition run_scan {T} `{BaseStorage T} (self : PortScannerApplication T) (E : env)
  : M world bool :=
  with_local None (run_scan_body self E).

End Main.


(** *** config.py

    A configuration class is a record, and its constructor a function
    from the values given for its fields ([None]: the field is not given)
    to the object or to the validation error.  The values given have the
    declared types. *)

Module Config.
Import World.

(** The outcome of a constructor: the object, or the error raised. *)
#[export] Instance result_ret : MRet result := fun A a => Ok a.
#[export] Instance result_bind : MBind result := fun A B f r =>
  match r with
  | Ok a => f a
  | Raise e => Raise e
  end.

(** [ValueError(message)], which pydantic hands on as a validation error. *)
Definition ValueError (message : string) : exn := mkExn OtherException message.

(** The constraint [ge=bound] of a field. *)
Definition ge (bound v : Z) : result Z :=
  if (bound <=? v)%Z then Ok v
  else Raise (ValueError ("Input should be greater than or equal to "
                          +:+ Py.str_of_Z bound)).

(** The constraint [le=bound] of a field. *)
Definition le (bound v : Z) : result Z :=
  if (v <=? bound)%Z then Ok v
  else Raise (ValueError ("Input should be less than or equal to "
                          +:+ Py.str_of_Z bound)).

(** [sorted(...)] on integers. *)
Fixpoint insert_sorted (x : Z) (l : list Z) : list Z :=
  match l with
  | [] => [x]
  | y :: l' => if (x <=? y)%Z then x :: y :: l' else y :: insert_sorted x l'
  end.
Definition sorted (l : list Z) : list Z := fold_right insert_sorted [] l.

(** [ScanConfig.validate_targets] *)
Definition validate_targets (v : list string) : result (list string) :=
  match v with
  | [] => Raise (ValueError "Должно быть хотя бы одна цель для сканирования")
  | _ :: _ => Ok v
  end.

(** [ScanConfig.validate_ports]; [list(set(v))] holds each port of [v]
    once, in an order that [sorted] makes irrelevant. *)
Definition validate_ports (v : list Z) : result (list Z) :=
  match v with
  | [] => Raise (ValueError "Должен быть указан хотя бы один порт")
  | _ :: _ =>
      match List.find (fun port => negb ((1 <=? port) && (port <=? 65535))%Z) v with
      | Some port =>
          Raise (ValueError ("Порт " +:+ Py.str_of_Z port
                             +:+ " вне допустимого диапазона (1-65535)"))
      | None => Ok (sorted (remove_dups v))
      end
  end.

Record ScanConfig : Type := mkScanConfig {
  scan_targets : list string;
  scan_ports : list Z;
  scan_rate : Z;
  scan_timeout : Z;
  scan_threads : Z;
}.

(** The values given for the fields of a [ScanConfig]. *)
Record scan_fields : Type := {
  given_targets : option (list string);
  given_ports : option (list Z);
  given_rate : option Z;
  given_timeout : option Z;
  given_threads : option Z;
}.

(** [ScanConfig(...)]: a validator runs on a value that is given, not on
    the default. *)
Definition new_ScanConfig (given : scan_fields) : result ScanConfig :=
  targets ← match given_targets given with
            | Some v => validate_targets v
            | None => Ok ["192.168.1.0/24"]
            end;
  ports ← match given_ports given with
          | Some v => validate_ports v
          | None => Ok [21; 22; 80; 443]%Z
          end;
  rate ← match given_rate given with Some v => ge 10 v | None => Ok 1000%Z end;
  timeout ← match given_timeout given with Some v => ge 30 v | None => Ok 300%Z end;
  threads ← match given_threads given with Some v => ge 1 v | None => Ok 4%Z end;
  mret (mkScanConfig targets ports rate timeout threads).

Record DatabaseConfig : Type := mkDatabaseConfig {
  database_type : string;
  database_path : string;
}.

Record database_fields : Type := {
  given_type : option string;
  given_path : option string;
}.

(** [DatabaseConfig.validate_type] *)
Definition validate_type (v : string) : result string :=
  if String.eqb v "sqlite" || String.eqb v "json" then Ok v
  else Raise (ValueError "Тип БД должен быть 'sqlite' или 'json'").

Definition new_DatabaseConfig (given : database_fields) : result DatabaseConfig :=
  type ← match given_type given with
         | Some v => validate_type v
         | None => Ok "sqlite"
         end;
  mret (mkDatabaseConfig type (default "scan_history.db" (given_path given))).

Record ScheduleConfig : Type := mkScheduleConfig {
  schedule_enabled : bool;
  schedule_cron : string;
}.

Record schedule_fields : Type := {
  given_schedule_enabled : option bool;
  given_cron : option string;
}.

Definition new_ScheduleConfig (given : schedule_fields) : result ScheduleConfig :=
  mret (mkScheduleConfig (default true (given_schedule_enabled given))
                         (default "0 */4 * * *" (given_cron given))).

Record TelegramNotifyConfig : Type := mkTelegramNotifyConfig {
  telegram_on : bool;                   (* enabled *)
  telegram_token : option string;       (* token *)
  telegram_chat_id : option string;     (* chat_id *)
}.

Record telegram_fields : Type := {
  given_telegram_enabled : option bool;
  given_token : option string;
  given_chat_id : option string;
}.

(** [not v] for an optional string. *)
Definition falsy (v : option string) : bool :=
  match v with
  | Some s => negb (Py.truthy s)
  | None => true
  end.

(** [TelegramNotifyConfig.validate_if_enabled]: with [always=True] it runs
    on the default too; [enabled] is the value already validated. *)
Definition validate_if_enabled (enabled : bool) (v : option string)
  : result (option string) :=
  if enabled && falsy v
  then Raise (ValueError "Token и chat_id обязательны при включённом Telegram")
  else Ok v.

Definition new_TelegramNotifyConfig (given : telegram_fields)
  : result TelegramNotifyConfig :=
  let enabled := default false (given_telegram_enabled given) in
  token ← validate_if_enabled enabled (given_token given);
  chat_id ← validate_if_enabled enabled (given_chat_id given);
  mret (mkTelegramNotifyConfig enabled token chat_id).

Record EmailNotifyConfig : Type := mkEmailNotifyConfig {
  email_on : bool;                      (* enabled *)
  email_smtp_server : option string;
  email_smtp_port : option Z;
  email_sender : option string;         (* sender_email *)
  email_password : option string;       (* sender_password *)
  email_recipient : option string;
}.

Record DiscordNotifyConfig : Type := mkDiscordNotifyConfig {
  discord_on : bool;                    (* enabled *)
  discord_webhook_url : option string;
}.

(** [EmailNotifyConfig] and [DiscordNotifyConfig] have no validator: the
    object holds the values given, [enabled] being [False] when it is
    not given. *)
Record email_fields : Type := {
  given_email_enabled : option bool;
  given_smtp_server : option string;
  given_smtp_port : option Z;
  given_sender_email : option string;
  given_sender_password : option string;
  given_recipient : option string;
}.

Definition new_EmailNotifyConfig (given : email_fields) : result EmailNotifyConfig :=
  mret (mkEmailNotifyConfig (default false (given_email_enabled given))
          (given_smtp_server given) (given_smtp_port given)
          (given_sender_email given) (given_sender_password given)
          (given_recipient given)).

Record discord_fields : Type := {
  given_discord_enabled : option bool;
  given_webhook_url : option string;
}.

Definition new_DiscordNotifyConfig (given : discord_fields) : result DiscordNotifyConfig :=
  mret (mkDiscordNotifyConfig (default false (given_discord_enabled given))
                              (given_webhook_url given)).

Record NotificationsConfig : Type := mkNotificationsConfig {
  telegram : TelegramNotifyConfig;
  email : EmailNotifyConfig;
  discord : DiscordNotifyConfig;
}.

Record notifications_fields : Type := {
  given_telegram : option telegram_fields;
  given_email : option email_fields;
  given_discord : option discord_fields;
}.

Definition no_telegram_fields : telegram_fields :=
  {| given_telegram_enabled := None; given_token := None; given_chat_id := None |}.
Definition no_email_fields : email_fields :=
  {| given_email_enabled := None; given_smtp_server := None; given_smtp_port := None;
     given_sender_email := None; given_sender_password := None;
     given_recipient := None |}.
Definition no_discord_fields : discord_fields :=
  {| given_discord_enabled := None; given_webhook_url := None |}.

(** [NotificationsConfig(...)]: a section that is not given is built by
    its [default_factory], the class called without arguments. *)
Definition new_NotificationsConfig (given : notifications_fields)
  : result NotificationsConfig :=
  telegram ← new_TelegramNotifyConfig (default no_telegram_fields (given_telegram given));
  email ← new_EmailNotifyConfig (default no_email_fields (given_email given));
  discord ← new_DiscordNotifyConfig (default no_discord_fields (given_discord given));
  mret (mkNotificationsConfig telegram email discord).

Record CVECheckConfig : Type := mkCVECheckConfig {
  cve_enabled : bool;
  cve_api_key : option string;
}.

Record cve_fields : Type := {
  given_cve_enabled : option bool;
  given_api_key : option string;
}.

Definition new_CVECheckConfig (given : cve_fields) : result CVECheckConfig :=
  mret (mkCVECheckConfig (default false (given_cve_enabled given)) (given_api_key given)).

Record DashboardConfig : Type := mkDashboardConfig {
  dashboard_enabled : bool;
  dashboard_host : string;
  dashboard_port : Z;
  dashboard_debug : bool;
}.

Record dashboard_fields : Type := {
  given_dashboard_enabled : option bool;
  given_host : option string;
  given_port : option Z;
  given_debug : option bool;
}.

Definition new_DashboardConfig (given : dashboard_fields) : result DashboardConfig :=
  port ← match given_port given with
         | Some v => v ← ge 1 v; le 65535 v
         | None => Ok 5000%Z
         end;
  mret (mkDashboardConfig (default true (given_dashboard_enabled given))
                          (default "127.0.0.1" (given_host given))
                          port
                          (default false (given_debug given))).

Record AppConfig : Type := mkAppConfig {
  scan : ScanConfig;
  database : DatabaseConfig;
  schedule : ScheduleConfig;
  notifications : NotificationsConfig;
  cve_check : CVECheckConfig;
  dashboard : DashboardConfig;
}.

(** [raw_config]: the mapping that [yaml.safe_load] returns. *)
Record raw_config : Type := {
  raw_scan : option scan_fields;
  raw_database : option database_fields;
  raw_schedule : option schedule_fields;
  raw_notifications : option notifications_fields;
  raw_cve_check : option cve_fields;
  raw_dashboard : option dashboard_fields;
}.

Definition no_scan_fields : scan_fields :=
  {| given_targets := None; given_ports := None; given_rate := None;
     given_timeout := None; given_threads := None |}.
Definition no_database_fields : database_fields :=
  {| given_type := None; given_path := None |}.
Definition no_schedule_fields : schedule_fields :=
  {| given_schedule_enabled := None; given_cron := None |}.
Definition no_notifications_fields : notifications_fields :=
  {| given_telegram := None; given_email := None; given_discord := None |}.
Definition no_cve_fields : cve_fields :=
  {| given_cve_enabled := None; given_api_key := None |}.
Definition no_dashboard_fields : dashboard_fields :=
  {| given_dashboard_enabled := None; given_host := None; given_port := None;
     given_debug := None |}.

(** [{}] *)
Definition empty_config : raw_config :=
  {| raw_scan := None; raw_database := None; raw_schedule := None;
     raw_notifications := None; raw_cve_check := None; raw_dashboard := None |}.

(** [AppConfig( **raw_config)] *)
Definition new_AppConfig (raw : raw_config) : result AppConfig :=
  scan ← new_ScanConfig (default no_scan_fields (raw_scan raw));
  database ← new_DatabaseConfig (default no_database_fields (raw_database raw));
  schedule ← new_ScheduleConfig (default no_schedule_fields (raw_schedule raw));
  notifications ← new_NotificationsConfig
                    (default no_notifications_fields (raw_notifications raw));
  cve_check ← new_CVECheckConfig (default no_cve_fields (raw_cve_check raw));
  dashboard ← new_DashboardConfig (default no_dashboard_fields (raw_dashboard raw));
  mret (mkAppConfig scan database schedule notifications cve_check dashboard).

(** The configuration file as [load] finds it. *)
Inductive config_file : Type :=
| Missing                      (* config_file.exists() is false *)
| Unparsable (e : exn)         (* opening, parsing or unpacking the document raises *)
| Parsed (raw : raw_config).   (* yaml.safe_load(f) or {} *)

(** [ConfigManager]: the state is the cached configuration of the one
    instance, [None] until a configuration has been loaded. *)
Module ConfigManager.

(** [ConfigManager.load(config_path)], on the file system [fs]. *)
Definition load (fs : string -> config_file) (config_path : string)
  : M (option AppConfig) AppConfig :=
  cached ← World.get;
  match cached with
  | Some config => mret config
  | None =>
      match fs config_path with
      | Missing =>
          match new_AppConfig empty_config with
          | Ok config => _ ← modify (fun _ => Some config); mret config
          | Raise e => raise e
          end
      | Unparsable e => raise e
      | Parsed raw =>
          match new_AppConfig raw with
          | Ok config => _ ← modify (fun _ => Some config); mret config
          | Raise e => raise e
          end
      end
  end.

(** [ConfigManager.get()] *)
Definition get : M (option AppConfig) AppConfig :=
  cached ← World.get;
  match cached with
  | None => raise (mkExn RuntimeError "Конфигурация не загружена. Вызовите load() сначала.")
  | Some config => mret config
  end.

(** [ConfigManager.reset()] *)
Definition reset : M (option AppConfig) unit := modify (fun _ => None).

End ConfigManager.

(** The ['telegram'] entry of [config.notifications.model_dump()], as
    [create_notification_manager] reads it. *)
Definition dump_telegram (c : TelegramNotifyConfig) : Notify.telegram_section :=
  {| Notify.tg_enabled := telegram_on c;
     Notify.tg_token := telegram_token c;
     Notify.tg_chat_id := telegram_chat_id c |}.

End Config.

(** *** cve_checker.py *)

Module CVEChecker.

(** An entry of [known_vulns]: the keys ['version'], ['cve'], ['desc']. *)
Record vuln_info : Type := mkVuln {
  vuln_version : string;
  vuln_cve : string;
  vuln_desc : string;
}.

Definition known_vulns : list (string * list vuln_info) :=
  [ ("Apache", [ mkVuln "2.0" "CVE-2002-0082" "Buffer overflow";
                 mkVuln "2.2" "CVE-2009-1195" "Remote DoS" ]);
    ("OpenSSH", [ mkVuln "3.x" "CVE-2003-0001" "Information disclosure";
                  mkVuln "4.x" "CVE-2008-5161" "Privilege escalation" ]);
    ("MySQL", [ mkVuln "5.0" "CVE-2006-5436" "Remote DoS" ]);
    ("PostgreSQL", [ mkVuln "8.0" "CVE-2005-3656" "Integer overflow" ]) ].

(** [check_known_vulnerabilities] *)
Definition check_known_vulnerabilities (service banner : string) : list vuln_info :=
  match List.find (fun entry => String.eqb (fst entry) service) known_vulns with
  | Some (_, infos) =>
      List.filter (fun vuln_info => Py.contains (vuln_version vuln_info) banner) infos
  | None => []
  end.

End CVEChecker.

(** *** dashboard.py *)

Module Dashboard.
Import Models World Env.

(** An entry of the ['results'] list of the response. *)
Record result_json : Type := mkResultJson {
  j_ip : string;
  j_port : Z;
  j_service : option string;
  j_banner : option string;
  j_is_new : bool;
  j_timestamp : datetime;
}.

Definition result_json_of (r : ScanResult) : result_json :=
  mkResultJson (ip r) (port r) (service r) (banner r) (is_new r) (timestamp r).

(** The body and the status of a response. *)
Inductive response : Type :=
| Results (results : list result_json)      (* {'results': [...]}, 200 *)
| Error (message : string).                 (* {'error': ...}, 500 *)

(** [api_results], for the [limit] of the request and the
    [get_all_results] of the store in use. *)
Definition api_results (get_all_results : M world (list ScanResult)) (limit : Z)
  : M world response :=
  try_except
    (all_results ← get_all_results;
     let results := map result_json_of (Py.slice_to limit all_results) in
     mret (Results results))
    (fun e => mret (Error (str_exn e))).

End Dashboard.


(** *** What the properties observe *)

Module Observe.
Import Models World Disk Env.

(** A table entry whose pattern is not found in the normalized banner. *)
Definition no_match (banner_normalized : string)
           (entry : Re.regex * (string * string)) : Prop :=
  Re.search (fst entry) banner_normalized true = None.

(** The fallback of [analyze]: the first line of the stripped banner, cut
    to fifty characters, or ["Unknown"] when that line is empty. *)
Definition fallback (banner : string) : string :=
  let first_line := Py.first_line (Py.strip banner) in
  if Py.is_empty first_line then "Unknown" else Py.take 50 first_line.

(** The probes recorded in a trace. *)
Definition is_connecting (ev : event) : bool :=
  match ev with Connecting _ _ => true | _ => false end.
Definition connections (tr : list event) : list event := List.filter is_connecting tr.

(** The calls of [send] recorded in a trace. *)
Definition is_send (ev : event) : bool :=
  match ev with SendCalled _ _ => true | _ => false end.
Definition sends (tr : list event) : list event := List.filter is_send tr.

(** The key of the uniqueness constraint. *)
Definition row_key (r : result_row) : string * Z := (r_ip r, r_port r).
Definition dict_key (r : result_dict) : string * Z := (rd_ip r, rd_port r).
Definition result_key (r : ScanResult) : string * Z := (ip r, port r).

(** The (host, port) pairs stored in the database and in the JSON file. *)
Definition db_keys (w : world) : list (string * Z) :=
  map row_key (scan_results (db w)).
Definition document (w : world) : json_data :=
  match content (json w) with
  | Document data => data
  | Unreadable => initial_data
  | Foreign _ => initial_data
  end.
Definition doc_keys (w : world) : list (string * Z) :=
  map dict_key (doc_results (document w)).

(** The uniqueness invariant: no pair is stored twice. *)
Definition unique_in_database (w : world) : Prop := NoDup (db_keys w).
Definition unique_in_document (w : world) : Prop := NoDup (doc_keys w).

(** Two results that describe the same observation: everything but the
    banner and the service is equal. *)
Definition same_observation (r r' : ScanResult) : Prop :=
  ip r' = ip r /\ port r' = port r /\ is_new r' = is_new r /\
  timestamp r' = timestamp r /\ scan_id r' = scan_id r.

(** A probe that fails before the response has been read: the connection
    is refused or times out, sending fails, or reading fails or times out. *)
Definition fails_before_response (script : probe_script) : Prop :=
  is_Some (on_connect script) \/ is_Some (on_drain script) \/
  (exists e, on_read script = inl e).

(** A probe whose response is read: the connection is made, the request
    is sent and the peer answers with [data]. *)
Definition answers (script : probe_script) (data : string) : Prop :=
  on_connect script = None /\ on_drain script = None /\ on_read script = inr data.

(** A computation that leaves an observation of the state as it was,
    whether it returns or raises. *)
Definition preserves {S O A} (obs : S -> O) (m : M S A) : Prop :=
  forall s, obs (snd (m s)) = obs s.

(** A computation that cannot raise. *)
Definition total {S A} (m : M S A) : Prop :=
  forall s, exists a, fst (m s) = Ok a.

(** [triple P m Q]: started in a state that satisfies [P], the
    computation [m] ends, with a value or an exception, in a state that
    satisfies [Q]. *)
Definition triple {S A} (P : S -> Prop) (m : M S A) (Q : S -> Prop) : Prop :=
  forall s, P s -> Q (snd (m s)).

(** The same, with the value at hand when the computation returns; [R]
    holds of the state when it raises. *)
Definition returns {S A} (P : S -> Prop) (m : M S A)
           (Q : A -> S -> Prop) (R : S -> Prop) : Prop :=
  forall s, P s ->
            match m s with
            | (Ok a, s') => Q a s'
            | (Raise _, s') => R s'
            end.

(** The observation of a frame [(x, s)] that looks at [s] only. *)
Definition under {S X O} (obs : S -> O) : X * S -> O := fun xs => obs (snd xs).

(** The observation of a frame [(x, s)] that looks at the local object
    only. *)
Definition on_local {S X O} (o : X -> O) : X * S -> O := fun xs => o (fst xs).

(** The events of a world's trace that satisfy [f]. *)
Definition recorded (f : event -> bool) (w : world) : list event :=
  List.filter f (trace w).

(** What a channel answers to a message, seen from the initial world. *)
Definition answer (n : Notify.notifier) (E : env) (message : string) : result bool :=
  fst (Notify.n_send n E message initial_world).

(** A channel whose [send] neither changes the world nor depends on it:
    its outcome is decided by the channel, the environment and the
    message. *)
Definition stateless (n : Notify.notifier) : Prop :=
  forall E message w, Notify.n_send n E message w = (answer n E message, w).

(** A channel whose [send] returns [True]: its delivery went through. *)
Definition succeeds (E : env) (message : string) (n : Notify.notifier) : bool :=
  bool_decide (answer n E message = Ok true).

(** The outcomes, among those collected from the channels, that are the
    value [True]. *)
Definition delivered (outcomes : list (result bool)) : list (result bool) :=
  List.filter (fun r => bool_decide (r = Ok true)) outcomes.

(** The event that the call of a channel's [send] leaves in the trace. *)
Definition send_event (message : string) (n : Notify.notifier) : event :=
  SendCalled (Notify.n_class_name n) message.

(** A storage backend as the pipeline needs it: saving a session leaves
    the calls of [send] in the trace alone, and the session object comes
    back with its status and its counters as they were. *)
Definition keeps_summary (s s' : ScanSession) : Prop :=
  status s' = status s /\ new_results s' = new_results s /\
  Models.total_results s' = Models.total_results s.

Definition plain_storage {T} `{Storage.BaseStorage T} (store : T) : Prop :=
  forall E session w,
    recorded is_send (snd (Storage.save_scan_session store E session w)) = recorded is_send w /\
    (forall ok session',
        fst (Storage.save_scan_session store E session w) = Ok (ok, session') ->
        keeps_summary session session').

(** Frames of [run_scan_body]: no [send] has been called since the trace
    held the calls [sent]; and the session of the run counts new results. *)
Definition silent (sent : list event) (xs : option ScanSession * world) : Prop :=
  recorded is_send (snd xs) = sent.

Definition counts_new (xs : option ScanSession * world) : Prop :=
  exists session, fst xs = Some session /\ new_results session <> 0.

(** The world after a series of sessions has been saved to a store, each
    in its own environment. *)
Fixpoint save_all {T} `{Storage.BaseStorage T} (store : T)
         (runs : list (env * ScanSession)) (w : world) : world :=
  match runs with
  | [] => w
  | (E, session) :: rest =>
      save_all store rest (snd (Storage.save_scan_session store E session w))
  end.

(** What saving one result to the database does to the result object: it
    is left alone or its [is_new] flag is cleared; the flag is clear
    afterwards when the pair was stored before; and when the flag is still
    set afterwards the pair is stored now.  [stored] and [stored'] are the
    pairs in the table before and after. *)
Definition flagged (stored stored' : list (string * Z)) (r r' : ScanResult) : Prop :=
  (r' = r \/ r' = set_is_new false r) /\
  (result_key r ∈ stored -> is_new r' = false) /\
  (is_new r' = true -> result_key r ∈ stored').

(** The exception with which the bulk scan ends, as the environment
    decides it: the program cannot be started, it is still running when the
    time is up, or it exits with a code other than zero. *)
Definition masscan_failure (E : env) : option exn :=
  match spawn_error E with
  | Some e => Some e
  | None =>
      match masscan_finished E with
      | None => Some (mkExn TimeoutError "")
      | Some (returncode, stderr) =>
          if (returncode =? 0)%Z then None
          else Some (mkExn RuntimeError
                           ("Masscan failed: "
                            +:+ (if Py.truthy stderr then stderr else "Unknown error")))
      end
  end.

(** The path of the output file that [_run_masscan] chooses when it is
    called in world [w]. *)
Definition output_file (E : env) (w : world) : string :=
  "/tmp/masscan_output_" +:+ uuid4_at E (uuid_count w) +:+ ".json".

(** A probe in which some step fails. *)
Definition fails_somewhere (script : probe_script) : Prop :=
  fails_before_response script \/ is_Some (on_wait_closed script).

(** Every character of a string satisfies [f]; some character does. *)
Fixpoint all_chars (f : ascii -> bool) (s : string) : bool :=
  match s with
  | EmptyString => true
  | String a s' => f a && all_chars f s'
  end.

Fixpoint any_char (f : ascii -> bool) (s : string) : bool :=
  match s with
  | EmptyString => false
  | String a s' => f a || any_char f s'
  end.

(** The texts that a pattern matches in full: the language of the pattern,
    whatever the order in which a matcher tries the alternatives. *)
Fixpoint accepts (ignorecase : bool) (r : Re.regex) (t : string) : Prop :=
  match r with
  | Re.Eps => t = ""
  | Re.One cls => exists a, t = String a "" /\ Re.class_matches ignorecase cls a = true
  | Re.Seq r1 r2 =>
      exists t1 t2, t = t1 +:+ t2 /\ accepts ignorecase r1 t1 /\ accepts ignorecase r2 t2
  | Re.Opt r1 => t = "" \/ accepts ignorecase r1 t
  | Re.Many1 cls => t <> "" /\ all_chars (Re.class_matches ignorecase cls) t = true
  | Re.Group r1 => accepts ignorecase r1 t
  end.

(** A pattern occurs in a subject when some part of the subject is in its
    language. *)
Definition occurs (ignorecase : bool) (r : Re.regex) (s : string) : Prop :=
  exists pre t post, s = pre +:+ t +:+ post /\ accepts ignorecase r t.

(** The pattern table without its 37th and 38th entries, the second
    [nginx] and [Apache[_\-]HTTP]. *)
Definition live_patterns : list (Re.regex * (string * string)) :=
  firstn 36 BannerAnalyzer.PATTERNS ++ skipn 38 BannerAnalyzer.PATTERNS.

(** What the output of the scan engine reports, read without the loops of
    the parser.  A host entry contributes its address with each of its
    ports, up to the first port that cannot be read or is out of range;
    the flag tells whether the entry was read to its end. *)
Fixpoint port_pairs (ip : string) (ports : list (option Z)) : list (string * Z) * bool :=
  match ports with
  | [] => ([], true)
  | Some p :: rest =>
      if valid_port p
      then ((ip, p) :: fst (port_pairs ip rest), snd (port_pairs ip rest))
      else ([], false)
  | None :: _ => ([], false)
  end.

Definition host_pairs (h : host_data) : list (string * Z) * bool :=
  match addr h with
  | Some ip => port_pairs ip (ports h)
  | None => ([], false)
  end.

(** A line contributes its host entries up to the first one that cannot
    be read to its end. *)
Fixpoint hosts_pairs (hosts : list host_data) : list (string * Z) * bool :=
  match hosts with
  | [] => ([], true)
  | h :: rest =>
      if snd (host_pairs h)
      then (fst (host_pairs h) ++ fst (hosts_pairs rest), snd (hosts_pairs rest))
      else (fst (host_pairs h), false)
  end.

Definition line_pairs (line : json_line) : list (string * Z) :=
  match line with
  | Record_ hosts => fst (hosts_pairs hosts)
  | Blank | Malformed => []
  end.

Definition reported (lines : list json_line) : list (string * Z) :=
  flat_map line_pairs lines.

(** A result as the parser builds it. *)
Definition fresh_result (r : ScanResult) : Prop :=
  valid_port (port r) = true /\
  service r = Some (Utils.get_service_name (port r) "") /\
  banner r = None /\ is_new r = true /\ scan_id r = None.

(** Two worlds that differ in the reading of the clock only. *)
Definition later (w w' : world) : Prop := w' = set_clock (clock w') w.

(** The event that the probe of a result leaves in the trace. *)
Definition probe_event (r : ScanResult) : event := Connecting (ip r) (port r).

(** A result whose service is set. *)
Definition serviced (r : ScanResult) : Prop := is_Some (service r).

(** A backend whose [save_scan_session], in a world that is [ready],
    does not raise, hands the session back with the services of its
    results as they were and leaves a world that is [ready]; and in a
    world that is not, raises. *)
Definition steady_storage {T} `{Storage.BaseStorage T} (ready : world -> bool) (store : T)
  : Prop :=
  forall E session w,
    if ready w
    then exists ok session',
           fst (Storage.save_scan_session store E session w) = Ok (ok, session') /\
           map service (results session') = map service (results session) /\
           ready (snd (Storage.save_scan_session store E session w)) = true
    else exists e, fst (Storage.save_scan_session store E session w) = Raise e.

(** The calls that change a store, and the world after a series of them. *)
Inductive store_call : Type :=
| Save (E : env) (session : ScanSession)       (* save_scan_session *)
| Prune (day : nat) (days : Z).                (* delete_old_results *)

Definition call_database (store : SQLite.SQLiteStorage) (w : world) (c : store_call)
  : world :=
  match c with
  | Save E session => snd (SQLite.save_scan_session store E session w)
  | Prune day days => snd (SQLite.delete_old_results store day days w)
  end.

Definition call_document (store : JSON.JSONStorage) (w : world) (c : store_call)
  : world :=
  match c with
  | Save E session => snd (JSON.save_scan_session store E session w)
  | Prune day days => snd (JSON.delete_old_results store day days w)
  end.

(** A world whose database file can be opened. *)
Definition can_connect (w : world) : bool :=
  match fault (db w) with
  | Some (CannotOpen _) => false
  | _ => true
  end.

(** A world whose JSON file holds a document, or cannot be read (and is
    then read as the empty document). *)
Definition is_document (w : world) : bool :=
  match content (json w) with
  | Foreign _ => false
  | _ => true
  end.

(** The time [t] minus [days] days, on a clock of which [day] points
    make one day. *)
Definition cutoff (t : datetime) (day : nat) (days : Z) : Z :=
  (Z.of_nat t - days * Z.of_nat day)%Z.

(** A cutoff that Python can compute: the number of days is one that
    [timedelta] takes, and the date is in the range of [datetime], whose
    first point is the first point of the clock and whose last day is the
    day 3652059. *)
Definition representable (day : nat) (days : Z) (date : Z) : Prop :=
  (-999999999 <= days <= 999999999)%Z /\
  (0 <= date < 3652059 * Z.of_nat day)%Z.

(** Stored rows and entries that the constructor of [ScanResult] accepts. *)
Definition valid_row (r : result_row) : Prop := valid_port (r_port r) = true.
Definition valid_dict (r : result_dict) : Prop := valid_port (rd_port r) = true.
Definition valid_result (r : ScanResult) : Prop := valid_port (port r) = true.

(** The result object that a stored row or entry is read back as. *)
Definition row_result (row : result_row) : ScanResult :=
  mkScanResult (r_ip row) (r_port row) (r_service row) (r_banner row)
               (r_is_new row) (r_timestamp row) (Some (r_scan_id row)).
Definition dict_result (d : result_dict) : ScanResult :=
  mkScanResult (rd_ip d) (rd_port d) (rd_service d) (rd_banner d)
               (rd_is_new d) (rd_timestamp d) (Some (rd_scan_id d)).

(** Two session objects with the same header: everything but the results
    and the errors. *)
Definition same_header (s s' : ScanSession) : Prop :=
  id s' = id s /\ status s' = status s /\ start_time s' = start_time s /\
  end_time s' = end_time s /\ targets s' = targets s /\
  Models.total_results s' = Models.total_results s /\
  new_results s' = new_results s.

(** A list of results in which no result is older than one that comes
    before it. *)
Fixpoint newest_first (l : list ScanResult) : Prop :=
  match l with
  | [] => True
  | r :: l' => Forall (fun r' => timestamp r' <= timestamp r) l' /\ newest_first l'
  end.

(** A list in descending order of a time: no entry is older than one
    that comes after it. *)
Fixpoint descending {A} (time : A -> datetime) (l : list A) : Prop :=
  match l with
  | [] => True
  | x :: l' => Forall (fun y => time y <= time x) l' /\ descending time l'
  end.

(** What [if session:] keeps of the outcome of a call of
    [get_scan_session]: the session that was found. *)
Definition found (outcome : result (option ScanSession)) : option ScanSession :=
  match outcome with
  | Ok (Some session) => Some session
  | _ => None
  end.

(** A list of integers in strictly ascending order. *)
Fixpoint increasing (l : list Z) : Prop :=
  match l with
  | [] => True
  | x :: l' => Forall (Z.lt x) l' /\ increasing l'
  end.

(** A port in the range that the configuration accepts. *)
Definition port_in_range (p : Z) : Prop := (1 <= p <= 65535)%Z.

End Observe.

(** *** Concrete environments and inputs *)

Module Scenario.
Import Models World Disk Env.

Definition refused : exn := mkExn ConnectionRefusedError "Connect call failed".
Definition timed_out : exn := mkExn TimeoutError "".
Definition reset : exn := mkExn OtherException "Connection reset by peer".

(** A peer that refuses the connection. *)
Definition closed_port : probe_script :=
  mkScript (Some refused) None (inl timed_out) None.

(** An environment in which the scan engine exits with code 0 after
    writing nothing, every probed port is closed and every HTTP request is
    answered with status 200. *)
Definition quiet : env :=
  mkEnv (fun n => "uuid-" +:+ Py.str_of_nat n) None (Some (0%Z, "")) None None
        (fun _ _ => closed_port) (fun _ => inr 200%Z) None Py.str_of_nat.

(** The scan engine is still running when the time is up; it has written
    one record by then. *)
Definition engine_hangs : env :=
  mkEnv (uuid4_at quiet) None None
        (Some [Record_ [mkHost (Some "10.0.0.1") [Some 22%Z]]]) None
        (net quiet) (http_post quiet) None (strftime quiet).

(** The same, and the output file cannot be removed. *)
Definition file_stays : env :=
  mkEnv (uuid4_at quiet) None None
        (Some [Record_ [mkHost (Some "10.0.0.1") [Some 22%Z]]])
        (Some (mkExn OtherException "Permission denied"))
        (net quiet) (http_post quiet) None (strftime quiet).

(** The scan engine exits with code 1. *)
Definition engine_fails : env :=
  mkEnv (uuid4_at quiet) None (Some (1%Z, "permission denied")) None None
        (net quiet) (http_post quiet) None (strftime quiet).

(** A peer that answers and then resets the connection while it is being
    closed. *)
Definition resets_on_close : probe_script :=
  mkScript None None (inr "SSH-2.0-OpenSSH_8.2p1") (Some reset).

Definition peers_reset_on_close : env :=
  mkEnv (uuid4_at quiet) None (Some (0%Z, "")) None None
        (fun _ _ => resets_on_close) (http_post quiet) None (strftime quiet).

(** A peer that accepts the connection and then stays silent. *)
Definition silent_port : probe_script :=
  mkScript None None (inl timed_out) None.

(** Port 22 answers and resets the connection while it is being closed;
    every other port stays silent. *)
Definition ssh_answers : env :=
  mkEnv (uuid4_at quiet) None (Some (0%Z, "")) None None
        (fun _ port => if (port =? 22)%Z then resets_on_close else silent_port)
        (http_post quiet) None (strftime quiet).

Definition peers_silent : env :=
  mkEnv (uuid4_at quiet) None (Some (0%Z, "")) None None
        (fun _ _ => silent_port) (http_post quiet) None (strftime quiet).

(** Port 22 of 10.0.0.1 as the bulk scan reports it. *)
Definition ssh_port : ScanResult :=
  mkScanResult "10.0.0.1" 22 (Some "SSH") None true 0 None.
Definition http_port : ScanResult :=
  mkScanResult "10.0.0.1" 80 (Some "HTTP") None true 0 None.

(** The two results of the first session: 10.0.0.1 with ports 22 and 80. *)
Definition openssh_22 : ScanResult :=
  mkScanResult "10.0.0.1" 22 (Some "OpenSSH") (Some "OpenSSH") true 1 None.
Definition apache_80 : ScanResult :=
  mkScanResult "10.0.0.1" 80 (Some "Apache") (Some "Apache") true 1 None.

(** A completed session with both results, and a later completed session
    that observes port 22 again. *)
Definition first_session : ScanSession :=
  mkScanSession "session-1" COMPLETED 0 (Some 2) ["10.0.0.1"]
                [openssh_22; apache_80] 2 0 [].
Definition second_session : ScanSession :=
  mkScanSession "session-2" COMPLETED 10 (Some 12) ["10.0.0.1"]
                [mkScanResult "10.0.0.1" 22 (Some "OpenSSH") (Some "OpenSSH") true 11 None]
                1 0 [].

(** A session as [scan_async] returns it after a failed bulk scan. *)
Definition failed_session : ScanSession :=
  mkScanSession "session-3" FAILED 20 (Some 21) ["10.0.0.1"] [] 0 0 ["Masscan failed"].

Definition the_database : SQLite.SQLiteStorage := {| SQLite.db_path := "scan_history.db" |}.
Definition the_document : JSON.JSONStorage := {| JSON.file_path := "scan_history.json" |}.

(** A database on which every statement fails. *)
Definition broken_database : world :=
  set_db (mkDb [] [] (Some (CannotExecute "database is locked"))) initial_world.

(** A database file that cannot be opened. *)
Definition unopenable_database : world :=
  set_db (mkDb [] [] (Some (CannotOpen "unable to open database file"))) initial_world.

(** A JSON file that cannot be read. *)
Definition unreadable_document : world :=
  set_json (mkFile Unreadable true) initial_world.

(** A JSON file that holds a list: a subscription with a key raises
    [TypeError]. *)
Definition list_document : world :=
  set_json (mkFile (Foreign (fun _ => mkExn OtherException
                                            "list indices must be integers or slices, not str"))
                   true)
           initial_world.

(** Three channels: a sender that raises, a Telegram sender without a
    token, and a sender that succeeds. *)
Definition raising_sender : Notify.notifier :=
  Notify.Notifier (Notify.mkScripted "WebhookNotifier" true
                                     (Raise (mkExn OtherException "boom"))).
Definition telegram_without_token : Notify.notifier :=
  Notify.Notifier (Notify.new_TelegramNotifier "" "42").
Definition working_sender : Notify.notifier :=
  Notify.Notifier (Notify.mkScripted "PagerNotifier" true (Ok true)).

(** A sender whose [send] returns [False]. *)
Definition refusing_sender : Notify.notifier :=
  Notify.Notifier (Notify.mkScripted "RelayNotifier" true (Ok false)).

Definition three_channels : Notify.NotificationManager :=
  Notify.add_notifier
    (Notify.add_notifier
       (Notify.add_notifier Notify.new_NotificationManager raising_sender)
       telegram_without_token)
    working_sender.

Definition the_scanner : Scanner.MasscanScanner :=
  {| Scanner.rate := 1000; Scanner.timeout := 300 |}.

(** The scan engine reports 10.0.0.1:22, whose peer stays silent. *)
Definition rescan : env :=
  mkEnv (fun n => "run-" +:+ Py.str_of_nat n) None (Some (0%Z, ""))
        (Some [Record_ [mkHost (Some "10.0.0.1") [Some 22%Z]]]) None
        (fun _ _ => silent_port) (http_post quiet) None (strftime quiet).

(** The world in which the first session has been saved to the database,
    and the one in which it has been saved to the JSON file. *)
Definition seen_in_database : world :=
  snd (SQLite.save_scan_session the_database quiet first_session initial_world).
Definition seen_in_document : world :=
  snd (JSON.save_scan_session the_document quiet first_session initial_world).

(** The worlds in which the second session has been saved as well. *)
Definition seen_twice_in_database : world :=
  snd (SQLite.save_scan_session the_database quiet second_session seen_in_database).
Definition seen_twice_in_document : world :=
  snd (JSON.save_scan_session the_document quiet second_session seen_in_document).

Definition app_with_database : Main.PortScannerApplication SQLite.SQLiteStorage :=
  Main.mkApp ["10.0.0.1"] [22%Z] the_scanner the_database three_channels.
Definition app_with_document : Main.PortScannerApplication JSON.JSONStorage :=
  Main.mkApp ["10.0.0.1"] [22%Z] the_scanner the_document three_channels.

End Scenario.

(** ** Part II — properties *)

(** *** Strings *)

Lemma append_nil (b : string) : "" +:+ b = b.
Proof. reflexivity. Qed.

Lemma append_cons (x : ascii) (a b : string) : String x a +:+ b = String x (a +:+ b).
Proof. reflexivity. Qed.

Lemma append_assoc (a b c : string) : (a +:+ b) +:+ c = a +:+ (b +:+ c).
Proof.
  induction a as [|x a IH]; [reflexivity|].
  now rewrite !append_cons, IH.
Qed.

Lemma append_empty_r (a : string) : a +:+ "" = a.
Proof.
  induction a as [|x a IH]; [reflexivity|].
  now rewrite append_cons, IH.
Qed.

Lemma is_empty_spec (s : string) : Py.is_empty s = true <-> s = "".
Proof. destruct s; simpl; split; congruence. Qed.

Lemma is_empty_append (a b : string) :
  Py.is_empty (a +:+ b) = Py.is_empty a && Py.is_empty b.
Proof. destruct a; reflexivity. Qed.

(** Trailing white space is looked for in the last part only, as long as
    that part does not consist of white space. *)
Lemma rstrip_append (a b : string) :
  Py.is_empty (Py.rstrip b) = false ->
  Py.rstrip (a +:+ b) = a +:+ Py.rstrip b.
Proof.
  intros Hb. induction a as [|x a IH]; [reflexivity|].
  rewrite !append_cons. simpl.
  rewrite IH, is_empty_append, Hb, andb_false_r. reflexivity.
Qed.

Lemma take_all (n : nat) (s : string) :
  String.length s <= n -> Py.take n s = s.
Proof.
  revert n. induction s as [|x s IH]; intros [|n] H; simpl in *;
    try reflexivity; try lia.
  rewrite IH by lia. reflexivity.
Qed.

Lemma take_length (n : nat) (s : string) :
  String.length (Py.take n s) = Nat.min n (String.length s).
Proof.
  revert n. induction s as [|x s IH]; intros [|n]; simpl; try reflexivity.
  now rewrite IH.
Qed.

Lemma concat_cons (x : string) (xs : list string) :
  String.concat "" (x :: xs) = x +:+ String.concat "" xs.
Proof. destruct xs; simpl; [now rewrite append_empty_r | reflexivity]. Qed.

(** The loop [for x in xs: message += f(x)] appends the pieces in order. *)
Lemma fold_left_append {A} (f : A -> string) (xs : list A) (message : string) :
  fold_left (fun m x => m +:+ f x) xs message = message +:+ String.concat "" (map f xs).
Proof.
  revert message. induction xs as [|x xs IH]; intros message.
  - simpl. now rewrite append_empty_r.
  - change (fold_left (fun m x => m +:+ f x) xs (message +:+ f x)
            = message +:+ String.concat "" (f x :: map f xs)).
    now rewrite IH, concat_cons, append_assoc.
Qed.

(** *** Banner classification *)

Section Classification.
Import Re BannerAnalyzer Observe.

Lemma try_patterns_skip table1 table2 s :
  Forall (no_match s) table1 ->
  try_patterns (table1 ++ table2) s = try_patterns table2 s.
Proof.
  induction 1 as [|[p [n t]] table1 Hp _ IH]; simpl; [reflexivity|].
  unfold no_match in Hp; simpl in Hp. now rewrite Hp.
Qed.

Lemma try_patterns_none table s :
  Forall (no_match s) table -> try_patterns table s = None.
Proof.
  intros H. rewrite <- (app_nil_r table). now rewrite try_patterns_skip.
Qed.

Lemma try_patterns_first table1 pattern name type table2 s m :
  Forall (no_match s) table1 ->
  search pattern s true = Some m ->
  try_patterns (table1 ++ (pattern, (name, type)) :: table2) s = Some (on_match name m).
Proof.
  intros H1 Hm. rewrite try_patterns_skip by assumption. simpl. now rewrite Hm.
Qed.

(** Once a pattern is found, the entries after it are not consulted. *)
Lemma try_patterns_stops table1 pattern name type rest rest' s m :
  search pattern s true = Some m ->
  try_patterns (table1 ++ (pattern, (name, type)) :: rest) s
  = try_patterns (table1 ++ (pattern, (name, type)) :: rest') s.
Proof.
  intros Hm. induction table1 as [|[p [n t]] table1 IH]; simpl.
  - now rewrite Hm.
  - destruct (search p s true); [reflexivity | exact IH].
Qed.

End Classification.

Section ClassificationClaims.
Import Re BannerAnalyzer Observe.

(** C9 (as amended).  For every pattern table and every banner:
    an empty banner is classified as ["Unknown"]; otherwise the patterns are
    tried on the stripped banner in the order of the table and the first
    one that is found decides the result, and the entries that follow a
    pattern that is found can be exchanged for any others without changing
    the result; and when none is found the result is the first line of the stripped
    banner cut to fifty characters, or ["Unknown"] when that line is empty.
    [analyze] is [analyze_with PATTERNS]. *)
Theorem analyze_first_match_wins
        (table : list (regex * (string * string))) (banner : string) :
  (banner = "" -> analyze_with table banner = "Unknown") /\
  (forall table1 pattern name type table2 m,
      banner <> "" ->
      table = table1 ++ (pattern, (name, type)) :: table2 ->
      Forall (no_match (Py.strip banner)) table1 ->
      search pattern (Py.strip banner) true = Some m ->
      analyze_with table banner = on_match name m) /\
  (forall table1 pattern name type rest rest' m,
      table = table1 ++ (pattern, (name, type)) :: rest ->
      search pattern (Py.strip banner) true = Some m ->
      analyze_with table banner
      = analyze_with (table1 ++ (pattern, (name, type)) :: rest') banner) /\
  (banner <> "" ->
   Forall (no_match (Py.strip banner)) table ->
   analyze_with table banner = fallback banner).
Proof.
  split; [|split; [|split]].
  - intros ->. reflexivity.
  - intros table1 pattern name type table2 m Hne -> Hpre Hm.
    unfold analyze_with.
    destruct (Py.is_empty banner) eqn:He; [apply is_empty_spec in He; contradiction|].
    now rewrite (try_patterns_first _ _ _ _ _ _ _ Hpre Hm).
  - intros table1 pattern name type rest rest' m -> Hm.
    unfold analyze_with. destruct (Py.is_empty banner); [reflexivity|].
    now rewrite (try_patterns_stops _ _ _ _ rest rest' _ _ Hm).
  - intros Hne Hall. unfold analyze_with, fallback.
    destruct (Py.is_empty banner) eqn:He; [apply is_empty_spec in He; contradiction|].
    rewrite (try_patterns_none _ _ Hall). unfold Py.truthy.
    now destruct (Py.is_empty (Py.first_line (Py.strip banner))).
Qed.

(** The table as it stands: a banner in which both the second entry
    ([nginx] with a version) and the later plain [nginx] entry are found is
    classified by the second entry; a banner in which nothing is found
    falls back to its stripped first line. *)
Lemma analyze_first_match_wins_witness :
  analyze "Server: nginx/1.18.0" = "Nginx 1.18.0" /\
  search (lit "nginx") "Server: nginx/1.18.0" true = Some {| groups := [] |} /\
  analyze " hi" = "hi".
Proof.
  split; [|split].
  - apply (proj1 (proj2 (analyze_first_match_wins PATTERNS "Server: nginx/1.18.0"))
             [ (Seq (lit "Apache") opt_slash_triple, ("Apache", "web_server")) ]
             (Seq (lit "nginx") opt_slash_triple) "Nginx" "web_server"
             (skipn 2 PATTERNS) {| groups := [Some "1.18.0"] |}).
    + discriminate.
    + reflexivity.
    + repeat constructor.
    + reflexivity.
  - reflexivity.
  - apply (proj2 (proj2 (proj2 (analyze_first_match_wins PATTERNS " hi")))).
    + discriminate.
    + repeat constructor.
Defined.

(** C9 as stated fails: with leading white space in the banner the result
    is not the first line of the banner itself. *)
Lemma analyze_raw_first_line_counterexample :
  ~ (forall banner : string,
        banner <> "" ->
        Forall (no_match banner) PATTERNS ->
        analyze banner = Py.take 50 (Py.first_line banner)).
Proof.
  intros H. specialize (H " hi").
  assert (Hc : analyze " hi" = "hi") by reflexivity.
  rewrite Hc in H.
  assert (Hf : Py.take 50 (Py.first_line " hi") = " hi") by reflexivity.
  rewrite Hf in H.
  enough ("hi" = " hi") by discriminate.
  apply H; [discriminate | repeat constructor].
Qed.

End ClassificationClaims.

(** *** The notification message *)

Section MessageClaims.
Import Utils.

(** [strip] on a text that opens with one line feed followed by a
    character that is not white space, and whose last part neither is
    nor ends in white space: the line feed goes and nothing else. *)
Lemma strip_message (c : ascii) (tail header head middle footer : string) :
  header = String "010" head ->
  head = String c tail ->
  Py.isspace c = false ->
  Py.rstrip footer = footer ->
  Py.is_empty footer = false ->
  Py.strip ((header +:+ middle) +:+ footer) = head +:+ middle +:+ footer.
Proof.
  intros -> -> Hc Hfooter Hfull. unfold Py.strip. rewrite !append_cons.
  change (Py.lstrip (String "010" (String c ((tail +:+ middle) +:+ footer))))
    with (if Py.isspace c then Py.lstrip ((tail +:+ middle) +:+ footer)
          else String c ((tail +:+ middle) +:+ footer)).
  rewrite Hc, <- !append_cons.
  rewrite rstrip_append by now rewrite Hfooter.
  now rewrite Hfooter, append_assoc.
Qed.

(** C10.  The message is the header (without its leading line feed),
    then, for each of the first ten entries at most and in their order,
    one line that reads [• ip:port - service], then, only when more than
    ten entries were passed, one line that reads [• ... и ещё n] with [n]
    the number of entries beyond the tenth, then the footer. *)
Theorem format_notification_message_first_ten
        (timestamp : string) (new_results : list discovery) (summary : gmap string Z) :
  exists listed : list discovery,
    listed = firstn 10 new_results /\
    length listed = Nat.min 10 (length new_results) /\
    format_notification_message timestamp new_results summary =
      ("🔍 *Результаты сканирования портов*

⏰ Время: " +:+ timestamp +:+ "
📊 Найдено новых: " +:+ Py.str_of_nat (length new_results) +:+ "
⏱️ Длительность: "
         +:+ match summary !! "duration" with Some d => Py.str_of_Z d | None => "N/A" end
         +:+ "с
📈 Всего найдено портов: "
         +:+ Py.str_of_Z (default 0%Z (summary !! "total_ports")) +:+ "

*Новые открытые порты:*
")
      +:+ String.concat ""
            (map (fun result =>
                    "
• " +:+ d_ip result +:+ ":" +:+ Py.str_of_Z (d_port result)
                    +:+ " - " +:+ d_service result) listed)
      +:+ (if (10 <? length new_results)%nat
           then "
• ... и ещё " +:+ Py.str_of_nat (length new_results - 10)
           else "")
      +:+ "

✅ Сканирование завершено успешно".
Proof.
  exists (firstn 10 new_results). split; [reflexivity|].
  split; [apply length_firstn|].
  unfold format_notification_message.
  rewrite fold_left_append.
  match goal with
  | |- context [String.concat "" ?l] => set (bullets := String.concat "" l)
  end.
  destruct (10 <? length new_results)%nat.
  - match goal with
    | |- Py.strip (((?header +:+ bullets) +:+ ?more) +:+ ?footer) = ?head +:+ _ =>
        rewrite (append_assoc header bullets more);
        transitivity (head +:+ (bullets +:+ more) +:+ footer);
        [ eapply (strip_message "240"); reflexivity
        | now rewrite (append_assoc bullets more footer) ]
    end.
  - rewrite append_nil.
    eapply (strip_message "240"); reflexivity.
Qed.

End MessageClaims.

(** *** Rules for computations *)

Section Effects.
Import World Observe.
Context {S O : Type} (obs : S -> O).

Lemma bind_ok {A B} (m : M S A) (f : A -> M S B) s a s' :
  m s = (Ok a, s') -> (m ≫= f) s = f a s'.
Proof. intros H. unfold mbind, M_bind. now rewrite H. Qed.

Lemma bind_raise {A B} (m : M S A) (f : A -> M S B) s e s' :
  m s = (Raise e, s') -> (m ≫= f) s = (Raise e, s').
Proof. intros H. unfold mbind, M_bind. now rewrite H. Qed.

Lemma preserves_ret {A} (a : A) : preserves obs (mret a : M S A).
Proof. intros s. reflexivity. Qed.

Lemma preserves_raise {A} e : preserves obs (raise e : M S A).
Proof. intros s. reflexivity. Qed.

Lemma preserves_bind {A B} (m : M S A) (f : A -> M S B) :
  preserves obs m -> (forall a, preserves obs (f a)) -> preserves obs (m ≫= f).
Proof.
  intros Hm Hf s. unfold mbind, M_bind.
  specialize (Hm s). destruct (m s) as [[a|e] s1]; simpl in *.
  - now rewrite Hf.
  - exact Hm.
Qed.

Lemma preserves_try_except {A} (m : M S A) (h : exn -> M S A) :
  preserves obs m -> (forall e, preserves obs (h e)) -> preserves obs (try_except m h).
Proof.
  intros Hm Hh s. unfold try_except.
  specialize (Hm s). destruct (m s) as [[a|e] s1]; simpl in *.
  - exact Hm.
  - now rewrite Hh.
Qed.

Lemma preserves_try_finally {A} (m : M S A) (fin : M S unit) :
  preserves obs m -> preserves obs fin -> preserves obs (try_finally m fin).
Proof.
  intros Hm Hf s. unfold try_finally.
  specialize (Hm s). destruct (m s) as [r s1]; simpl in *.
  specialize (Hf s1). destruct (fin s1) as [[u|e] s2]; simpl in *; congruence.
Qed.

Lemma preserves_get : preserves obs (get : M S S).
Proof. intros s. reflexivity. Qed.

Lemma preserves_modify (f : S -> S) :
  (forall s, obs (f s) = obs s) -> preserves obs (modify f).
Proof. intros H s. apply H. Qed.

Lemma preserves_for_each {A} (xs : list A) (body : A -> M S unit) :
  (forall x, preserves obs (body x)) -> preserves obs (for_each xs body).
Proof.
  intros H. induction xs as [|x xs IH]; simpl.
  - apply preserves_ret.
  - apply preserves_bind; [apply H | intros _; exact IH].
Qed.

Lemma preserves_gather {A} (tasks : list (M S A)) :
  Forall (preserves obs) tasks -> preserves obs (gather tasks).
Proof.
  induction 1 as [|t tasks Ht _ IH]; intros s; simpl.
  - reflexivity.
  - specialize (Ht s). destruct (t s) as [r s1]; simpl in *.
    specialize (IH s1). destruct (gather tasks s1) as [[rs|e] s2]; simpl in *; congruence.
Qed.

Lemma preserves_zoom {X A} (m : M S A) :
  preserves obs m -> preserves (under (X := X) obs) (zoom m).
Proof.
  intros Hm [x s]. unfold zoom, under. simpl.
  specialize (Hm s). now destruct (m s).
Qed.

Lemma preserves_local {X} : preserves (under (X := X) obs) local.
Proof. intros [x s]. reflexivity. Qed.

Lemma preserves_assign {X} (f : X -> X) : preserves (under obs) (assign (S := S) f).
Proof. intros [x s]. reflexivity. Qed.

Lemma preserves_with_local {X A} (x0 : X) (m : M (X * S) A) :
  preserves (under obs) m -> preserves obs (with_local x0 m).
Proof.
  intros Hm s. unfold with_local.
  specialize (Hm (x0, s)). now destruct (m (x0, s)).
Qed.

Lemma preserves_zoom_local {X A P} (o : X -> P) (m : M S A) :
  preserves (on_local o) (zoom m).
Proof. intros [x s]. unfold zoom, on_local. simpl. now destruct (m s). Qed.

Lemma preserves_assign_local {X P} (o : X -> P) (f : X -> X) :
  (forall x, o (f x) = o x) -> preserves (on_local o) (assign (S := S) f).
Proof. intros Hf [x s]. apply Hf. Qed.

Lemma preserves_local_local {X P} (o : X -> P) :
  preserves (on_local o) (local : M (X * S) X).
Proof. intros [x s]. reflexivity. Qed.

(** Rules for [returns]. *)
Lemma returns_ret {A} (P : S -> Prop) (a : A) (Q : A -> S -> Prop) R :
  (forall s, P s -> Q a s) -> returns P (mret a) Q R.
Proof. intros H s Hs. now apply H. Qed.

Lemma returns_bind {A B} (P : S -> Prop) (m : M S A) (f : A -> M S B)
      (Pm : A -> S -> Prop) (Q : B -> S -> Prop) (R : S -> Prop) :
  returns P m Pm R ->
  (forall a, returns (Pm a) (f a) Q R) ->
  returns P (m ≫= f) Q R.
Proof.
  intros Hm Hf s Hs. unfold mbind, M_bind.
  specialize (Hm s Hs). destruct (m s) as [[a|e] s1]; [|exact Hm].
  now apply Hf.
Qed.

Lemma returns_try_except {A} (P : S -> Prop) (m : M S A) (h : exn -> M S A)
      (Ph : S -> Prop) (Q : A -> S -> Prop) (R : S -> Prop) :
  returns P m Q Ph ->
  (forall e, returns Ph (h e) Q R) ->
  returns P (try_except m h) Q R.
Proof.
  intros Hm Hh s Hs. unfold try_except.
  specialize (Hm s Hs). destruct (m s) as [[a|e] s1]; [exact Hm|].
  now apply Hh.
Qed.

Lemma returns_weaken {A} (P P' : S -> Prop) (m : M S A)
      (Q Q' : A -> S -> Prop) (R R' : S -> Prop) :
  returns P' m Q' R' ->
  (forall s, P s -> P' s) ->
  (forall a s, Q' a s -> Q a s) ->
  (forall s, R' s -> R s) ->
  returns P m Q R.
Proof.
  intros Hm HP HQ HR s Hs. specialize (Hm s (HP s Hs)).
  destruct (m s) as [[a|e] s1]; auto.
Qed.

(** A fact that a computation keeps true holds after it, however it ends. *)
Lemma returns_of_triple {A} (P : S -> Prop) (m : M S A) :
  triple P m P -> returns P m (fun _ => P) P.
Proof.
  intros Hm s Hs. specialize (Hm s Hs). now destruct (m s) as [[a|e] s1].
Qed.

Lemma triple_of_preserves {A} (m : M S A) (v : O) :
  preserves obs m -> triple (fun s => obs s = v) m (fun s => obs s = v).
Proof. intros Hm s Hs. now rewrite Hm. Qed.

Lemma triple_and {A} (P1 P2 : S -> Prop) (m : M S A) :
  triple P1 m P1 -> triple P2 m P2 -> triple (fun s => P1 s /\ P2 s) m (fun s => P1 s /\ P2 s).
Proof. intros H1 H2 s [Hs1 Hs2]. split; [now apply H1 | now apply H2]. Qed.

(** Rules for facts that every step keeps true. *)
Lemma keeps_ret {A} (P : S -> Prop) (a : A) : triple P (mret a : M S A) P.
Proof. intros s Hs. exact Hs. Qed.

Lemma keeps_raise {A} (P : S -> Prop) e : triple P (raise e : M S A) P.
Proof. intros s Hs. exact Hs. Qed.

Lemma keeps_bind {A B} (P : S -> Prop) (m : M S A) (f : A -> M S B) :
  triple P m P -> (forall a, triple P (f a) P) -> triple P (m ≫= f) P.
Proof.
  intros Hm Hf s Hs. unfold mbind, M_bind.
  specialize (Hm s Hs). destruct (m s) as [[a|e] s1]; simpl in *.
  - now apply Hf.
  - exact Hm.
Qed.

Lemma keeps_try_except {A} (P : S -> Prop) (m : M S A) (h : exn -> M S A) :
  triple P m P -> (forall e, triple P (h e) P) -> triple P (try_except m h) P.
Proof.
  intros Hm Hh s Hs. unfold try_except.
  specialize (Hm s Hs). destruct (m s) as [[a|e] s1]; simpl in *.
  - exact Hm.
  - now apply Hh.
Qed.

Lemma keeps_for_each {A} (P : S -> Prop) (xs : list A) (body : A -> M S unit) :
  (forall x, triple P (body x) P) -> triple P (for_each xs body) P.
Proof.
  intros Hb. induction xs as [|x xs IH]; simpl.
  - apply keeps_ret.
  - apply keeps_bind; [apply Hb | intros _; exact IH].
Qed.

Lemma keeps_zoom {X A} (P : S -> Prop) (m : M S A) :
  triple P m P -> triple (under (X := X) P) (zoom m) (under P).
Proof.
  intros Hm [x s] Hs. unfold zoom, under in *. simpl in *.
  specialize (Hm s Hs). now destruct (m s).
Qed.

Lemma keeps_assign {X} (P : S -> Prop) (f : X -> X) :
  triple (under P) (assign (S := S) f) (under P).
Proof. intros [x s] Hs. exact Hs. Qed.

Lemma keeps_local {X} (P : S -> Prop) :
  triple (under P) (local : M (X * S) X) (under P).
Proof. intros [x s] Hs. exact Hs. Qed.

Lemma keeps_with_local {X A} (P : S -> Prop) (x0 : X) (m : M (X * S) A) :
  triple (under P) m (under P) -> triple P (with_local x0 m) P.
Proof.
  intros Hm s Hs. unfold with_local.
  specialize (Hm (x0, s) Hs). now destruct (m (x0, s)).
Qed.

(** The local object that a frame hands back next to the value of its
    block has every property that the block preserves. *)
Lemma with_local_value {X A P} (o : X -> P) (x0 : X) (blk : M (X * S) A) s a x :
  preserves (on_local o) blk ->
  fst (with_local x0 (blk ≫= fun a => local ≫= fun x => mret (a, x)) s) = Ok (a, x) ->
  o x = o x0.
Proof.
  intros Hblk. unfold with_local. unfold mbind, M_bind.
  specialize (Hblk (x0, s)). destruct (blk (x0, s)) as [[b|e] [x1 s1]]; simpl.
  - unfold mret, M_ret. intros [= _ <-]. exact Hblk.
  - discriminate.
Qed.

(** [gather] never raises, and it returns one outcome per task. *)
Lemma gather_total {A} (tasks : list (M S A)) s :
  exists rs, fst (gather tasks s) = Ok rs /\ length rs = length tasks.
Proof.
  revert s. induction tasks as [|t tasks IH]; intros s; simpl.
  - now exists [].
  - destruct (t s) as [r s1]. destruct (IH s1) as (rs & Hrs & Hlen).
    destruct (gather tasks s1) as [[rs'|e] s2]; simpl in *; [|discriminate].
    injection Hrs as ->. exists (r :: rs). simpl. now rewrite Hlen.
Qed.

Lemma total_ret {A} (a : A) : total (mret a : M S A).
Proof. intros s. now exists a. Qed.

Lemma total_bind {A B} (m : M S A) (f : A -> M S B) :
  total m -> (forall a, total (f a)) -> total (m ≫= f).
Proof.
  intros Hm Hf s. unfold mbind, M_bind.
  destruct (Hm s) as [a Ha]. destruct (m s) as [[a'|e] s1]; simpl in *; [|discriminate].
  apply Hf.
Qed.

(** A handler that cannot raise makes the whole statement total. *)
Lemma total_try_except {A} (m : M S A) (h : exn -> M S A) :
  (forall e, total (h e)) -> total (try_except m h).
Proof.
  intros Hh s. unfold try_except.
  destruct (m s) as [[a|e] s1]; simpl; [now exists a | apply Hh].
Qed.

Lemma total_local {X} : total (local : M (X * S) X).
Proof. intros [x s]. now exists x. Qed.

Lemma total_with_local {X A} (x0 : X) (m : M (X * S) A) :
  total m -> total (with_local x0 m).
Proof.
  intros Hm s. unfold with_local.
  destruct (Hm (x0, s)) as [a Ha]. destruct (m (x0, s)) as [r xs]. now exists a.
Qed.

End Effects.

(** *** The scanner leaves the trace alone, except for its own events *)

Section ScannerTrace.
Import Models World Env Observe Scanner.
Variable f : event -> bool.

Lemma recorded_app (w : world) (ev : event) :
  List.filter f (trace w ++ [ev]) = recorded f w ++ (if f ev then [ev] else []).
Proof. unfold recorded. rewrite List.filter_app. simpl. now destruct (f ev). Qed.

Lemma now_preserves : preserves (recorded f) now.
Proof. intros w. reflexivity. Qed.

Lemma uuid4_preserves E : preserves (recorded f) (uuid4 E).
Proof. intros w. reflexivity. Qed.

Lemma emit_preserves ev : f ev = false -> preserves (recorded f) (emit ev).
Proof.
  intros Hev w. unfold emit, modify, recorded. simpl.
  rewrite List.filter_app. simpl. rewrite Hev. apply app_nil_r.
Qed.

Lemma unlink_preserves E path : preserves (recorded f) (unlink E path).
Proof. intros w. unfold unlink. now destruct (unlink_error E). Qed.

Lemma parse_host_preserves h : preserves (under (recorded f)) (parse_host h).
Proof.
  unfold parse_host. apply preserves_bind.
  - destruct (addr h); [apply preserves_ret | apply preserves_raise].
  - intros ip. apply preserves_for_each. intros p. apply preserves_bind.
    + destruct p; [apply preserves_ret | apply preserves_raise].
    + intros port. apply preserves_bind.
      * apply preserves_zoom, now_preserves.
      * intros t. destruct (valid_port port);
          [apply preserves_assign | apply preserves_raise].
Qed.

Lemma parse_line_preserves l : preserves (under (recorded f)) (parse_line l).
Proof.
  destruct l; simpl; try apply preserves_ret.
  apply preserves_try_except.
  - apply preserves_for_each, parse_host_preserves.
  - intros e. apply preserves_ret.
Qed.

Lemma parse_masscan_output_preserves path :
  preserves (recorded f) (_parse_masscan_output path).
Proof.
  unfold _parse_masscan_output. apply preserves_with_local, preserves_bind.
  - apply preserves_try_except.
    + apply preserves_bind; [apply preserves_zoom, preserves_get|].
      intros w. destruct (files w !! path).
      * apply preserves_for_each, parse_line_preserves.
      * apply preserves_ret.
    + intros e. apply preserves_ret.
  - intros _. apply preserves_local.
Qed.

Lemma create_subprocess_exec_preserves E cmd :
  f (Spawned cmd) = false -> preserves (recorded f) (create_subprocess_exec E cmd).
Proof.
  intros Hf w. unfold create_subprocess_exec.
  destruct (spawn_error E); [reflexivity|]. simpl.
  unfold recorded. simpl. rewrite List.filter_app. simpl. rewrite Hf. apply app_nil_r.
Qed.

Lemma wait_for_communicate_preserves E path :
  preserves (recorded f) (wait_for_communicate E path).
Proof.
  intros w. unfold wait_for_communicate.
  destruct (masscan_written E), (masscan_finished E) as [[rc err]|]; reflexivity.
Qed.

Lemma run_masscan_preserves self E targets ports :
  (forall cmd, f (Spawned cmd) = false) ->
  preserves (recorded f) (_run_masscan self E targets ports).
Proof.
  intros Hf. unfold _run_masscan.
  apply preserves_bind; [apply uuid4_preserves|]. intros u.
  apply preserves_try_finally;
    [|apply preserves_try_except; [apply unlink_preserves | intros e; apply preserves_ret]].
  apply preserves_try_except; [|intros e; apply preserves_raise].
  apply preserves_bind; [apply create_subprocess_exec_preserves, Hf|]. intros _.
  apply preserves_bind; [apply wait_for_communicate_preserves|]. intros err.
  apply preserves_bind; [apply preserves_get|]. intros w.
  destruct (bool_decide _); [apply preserves_raise | apply parse_masscan_output_preserves].
Qed.

Lemma get_banner_for_port_preserves E r :
  (forall ip port, f (Connecting ip port) = false) ->
  preserves (recorded f) (_get_banner_for_port E r).
Proof.
  intros Hf. unfold _get_banner_for_port.
  apply preserves_with_local, preserves_bind.
  - apply preserves_try_except; [|intros e; destruct (kind e); apply preserves_ret].
    apply preserves_bind.
    { apply preserves_zoom. unfold open_connection. apply preserves_bind.
      - apply emit_preserves, Hf.
      - intros _. destruct (on_connect _); [apply preserves_raise | apply preserves_ret]. }
    intros _. apply preserves_bind.
    { apply preserves_zoom. unfold drain.
      destruct (on_drain _); [apply preserves_raise | apply preserves_ret]. }
    intros _. apply preserves_bind.
    { apply preserves_zoom. unfold read.
      destruct (on_read _); [apply preserves_raise | apply preserves_ret]. }
    intros data. apply preserves_bind; [apply preserves_assign|]. intros _.
    apply preserves_bind; [apply preserves_local|]. intros r'.
    apply preserves_bind; [apply preserves_assign|]. intros _.
    apply preserves_zoom. unfold wait_closed.
    destruct (on_wait_closed _); [apply preserves_raise | apply preserves_ret].
  - intros _. apply preserves_bind; [apply preserves_local|]. intros r'. apply preserves_ret.
Qed.

Lemma get_banners_async_preserves E results :
  (forall ip port, f (Connecting ip port) = false) ->
  preserves (recorded f) (_get_banners_async E results).
Proof.
  intros Hf. unfold _get_banners_async. apply preserves_bind.
  - apply preserves_gather, Forall_map, Forall_forall.
    intros r _. now apply get_banner_for_port_preserves.
  - intros rs. apply preserves_ret.
Qed.

Lemma scan_async_preserves self E targets ports get_banners :
  (forall cmd, f (Spawned cmd) = false) ->
  (forall ip port, f (Connecting ip port) = false) ->
  preserves (recorded f) (scan_async self E targets ports get_banners).
Proof.
  intros Hs Hc. unfold scan_async.
  apply preserves_bind; [apply uuid4_preserves|]. intros sid.
  apply preserves_bind; [apply now_preserves|]. intros t0.
  apply preserves_with_local, preserves_bind; [|intros _; apply preserves_local].
  apply preserves_try_except.
  - apply preserves_bind; [apply preserves_zoom, run_masscan_preserves, Hs|]. intros rs.
    apply preserves_bind; [apply preserves_assign|]. intros _.
    apply preserves_bind.
    { destruct (get_banners && _); [|apply preserves_ret].
      apply preserves_bind; [apply preserves_zoom, get_banners_async_preserves, Hc|].
      intros rs'. apply preserves_bind; [apply preserves_assign|]. intros _.
      apply preserves_ret. }
    intros rs'. apply preserves_bind; [apply preserves_assign|]. intros _.
    apply preserves_bind; [apply preserves_assign|]. intros _.
    apply preserves_bind; [apply preserves_zoom, now_preserves|]. intros t.
    apply preserves_assign.
  - intros e. apply preserves_bind; [apply preserves_assign|]. intros _.
    apply preserves_bind; [apply preserves_assign|]. intros _.
    apply preserves_bind; [apply preserves_zoom, now_preserves|]. intros t.
    apply preserves_assign.
Qed.

End ScannerTrace.

(** *** The scan session *)

Section SessionClaims.
Import Models World Env Observe Scanner.

Lemma parse_masscan_output_total path : total (_parse_masscan_output path).
Proof.
  unfold _parse_masscan_output. apply total_with_local, total_bind.
  - apply total_try_except. intros e. apply total_ret.
  - intros _. apply total_local.
Qed.

(** Whether [_run_masscan] raises, and what, is decided by the environment
    alone. *)
Lemma run_masscan_outcome self E targets ports w :
  match masscan_failure E with
  | Some e => fst (_run_masscan self E targets ports w) = Raise e
  | None => exists rs, fst (_run_masscan self E targets ports w) = Ok rs
  end.
Proof.
  unfold masscan_failure, _run_masscan, uuid4, try_finally, try_except,
    create_subprocess_exec, wait_for_communicate, unlink, modify, get, raise.
  unfold mbind, M_bind. simpl.
  destruct (unlink_error E) as [ue|];
  (destruct (spawn_error E) as [e|]; [reflexivity|]);
  destruct (masscan_finished E) as [[rc err]|].
  1, 3: destruct (masscan_written E); simpl; unfold returncode; simpl;
      (destruct (Z.eqb_spec rc 0) as [->|Hrc];
       [ rewrite bool_decide_eq_false_2 by (intros H; now apply H);
         match goal with |- context [_parse_masscan_output ?p ?w] =>
           destruct (parse_masscan_output_total p w) as [rs Hrs];
           destruct (_parse_masscan_output p w) as [r w'] end;
         simpl in *; subst r; now exists rs
       | rewrite bool_decide_eq_true_2 by congruence; reflexivity ]).
  all: destruct (masscan_written E); reflexivity.
Qed.

End SessionClaims.

Section SessionFailure.
Import Models World Env Observe Scanner.




End SessionFailure.

(** *** The bulk scan and its timeout *)

Section BulkScanTimeout.
Import Models World Env Observe Scanner.

(** C5 (as amended).  When the scan engine has been started and is still
    running when the time is up, [_run_masscan] raises [TimeoutError], so
    that no results of the run are returned, whatever the engine had
    written by then.  The engine's process is left as it is, still
    running: the code sends it no signal. *)
Theorem run_masscan_timeout
        (self : MasscanScanner) (E : env) (targets : list string) (ports : list Z)
        (w : world) :
  spawn_error E = None ->
  masscan_finished E = None ->
  exists w',
    _run_masscan self E targets ports w = (Raise (mkExn TimeoutError ""), w') /\
    proc w' = ProcRunning.
Proof.
  intros Hspawn Hfin.
  unfold _run_masscan, uuid4, try_finally, try_except,
    create_subprocess_exec, wait_for_communicate, unlink, modify, raise.
  unfold mbind, M_bind. simpl. rewrite Hspawn, Hfin.
  destruct (masscan_written E), (unlink_error E); simpl;
    (eexists; split; reflexivity).
Qed.

(** An engine that hangs after writing one record. *)
Lemma run_masscan_timeout_witness :
  exists w',
    _run_masscan Scenario.the_scanner Scenario.engine_hangs ["10.0.0.0/24"] [22]%Z
                 initial_world = (Raise (mkExn TimeoutError ""), w') /\
    proc w' = ProcRunning.
Proof.
  exact (run_masscan_timeout Scenario.the_scanner Scenario.engine_hangs
           ["10.0.0.0/24"] [22]%Z initial_world eq_refl eq_refl).
Defined.

(** C5 as stated fails: after the timeout the process is not terminated. *)
Lemma run_masscan_timeout_counterexample :
  ~ (forall (self : MasscanScanner) (E : env) targets ports (w : world),
        spawn_error E = None ->
        masscan_finished E = None ->
        exists w',
          _run_masscan self E targets ports w = (Raise (mkExn TimeoutError ""), w') /\
          proc w' <> ProcRunning).
Proof.
  intros H.
  destruct (H Scenario.the_scanner Scenario.engine_hangs ["10.0.0.0/24"] [22]%Z
              initial_world eq_refl eq_refl) as (w' & Hrun & Hproc).
  apply Hproc. apply (f_equal (fun x => proc (snd x))) in Hrun.
  simpl in Hrun. rewrite <- Hrun. reflexivity.
Qed.

End BulkScanTimeout.

(** *** Banner probing *)

Section BannerProbing.
Import Models World Env Observe Scanner.

Lemma same_observation_refl r : same_observation r r.
Proof. repeat split. Qed.

(** An exception of whatever class, raised before the result object has
    been touched: each handler lets the probe return the object as it is. *)
Ltac caught_early e :=
  destruct (kind e); eexists _, _; (split; [reflexivity|]);
  split; auto using same_observation_refl.

(** One probe always returns its result; a failure before the response has
    been read leaves it as it was, and a response that has been read is in
    it. *)
Lemma get_banner_for_port_returns E r w :
  exists r' w',
    _get_banner_for_port E r w = (Ok (Some r'), w') /\
    same_observation r r' /\
    (fails_before_response (net E (ip r) (port r)) -> r' = r) /\
    (forall data, answers (net E (ip r) (port r)) data ->
                  banner r' = Some (Py.take 200 data) /\
                  service r' = Some (BannerAnalyzer.analyze (Py.take 200 data))).
Proof.
  enough (exists r' w',
    _get_banner_for_port E r w = (Ok (Some r'), w') /\
    same_observation r r' /\
    (fails_before_response (net E (ip r) (port r)) -> r' = r)) as Hold.
  { destruct Hold as (r' & w' & Hrun & Hsame & Hfail). exists r', w'.
    split; [exact Hrun|]. split; [exact Hsame|]. split; [exact Hfail|].
    intros data (Hc & Hd & Hr). revert Hrun.
    unfold _get_banner_for_port, with_local, try_except, zoom, assign, local,
      open_connection, drain, read, wait_closed, emit, modify, raise.
    unfold mbind, M_bind, mret, M_ret. simpl.
    rewrite Hc, Hd, Hr. simpl.
    destruct (on_wait_closed (net E (ip r) (port r))) as [e|]; simpl;
      try destruct (kind e); intros [= <- _]; split; reflexivity. }
  unfold _get_banner_for_port, with_local, try_except, zoom, assign, local,
    open_connection, drain, read, wait_closed, emit, modify, raise,
    fails_before_response.
  unfold mbind, M_bind, mret, M_ret. simpl.
  destruct (net E (ip r) (port r)) as [c d rd cl]. simpl.
  destruct c as [e|]; simpl; [caught_early e|].
  destruct d as [e|]; simpl; [caught_early e|].
  destruct rd as [e|data]; simpl; [caught_early e|].
  assert (Hno : is_Some (@None exn) \/ is_Some (@None exn) \/
                (exists e, @inr exn string data = inl e) -> False).
  { intros [[? ?]|[[? ?]|[? ?]]]; discriminate. }
  destruct cl as [e|]; simpl.
  - destruct (kind e); eexists _, _; (split; [reflexivity|]);
      (split; [repeat split | intros H; destruct (Hno H)]).
  - eexists _, _; (split; [reflexivity|]);
      (split; [repeat split | intros H; destruct (Hno H)]).
Qed.

Lemma gather_probes E results w :
  exists out w',
    gather (map (_get_banner_for_port E) results) w
    = (Ok (map (fun r' => Ok (Some r')) out), w') /\
    Forall2 (fun r r' =>
               same_observation r r' /\
               (fails_before_response (net E (ip r) (port r)) -> r' = r) /\
               (forall data, answers (net E (ip r) (port r)) data ->
                             banner r' = Some (Py.take 200 data) /\
                             service r' = Some (BannerAnalyzer.analyze (Py.take 200 data))))
            results out.
Proof.
  revert w. induction results as [|r results IH]; intros w; simpl.
  - exists [], w. split; [reflexivity | constructor].
  - destruct (get_banner_for_port_returns E r w) as (r' & w1 & Hr & Hobs).
    rewrite Hr. destruct (IH w1) as (out & w2 & Hg & Hall). rewrite Hg.
    exists (r' :: out), w2. split; [reflexivity | now constructor].
Qed.

Lemma keep_results_all out :
  keep_results (map (fun r' => Ok (Some r')) out) = out.
Proof.
  unfold keep_results. induction out as [|r out IH]; [reflexivity|].
  cbn. f_equal. exact IH.
Qed.

(** C4 (as amended).  The probing step returns one result for every
    result it was given, in the same order and for the same host and port
    (only the banner and the service can differ).  When a probe fails
    before the response has been read (the connection is refused or times
    out, sending fails, reading fails or times out) the result comes back
    exactly as it went in.  When the response has been read, the result
    comes back with the first 200 characters of the response as its banner
    and with the service that [analyze] finds in them, whether closing the
    connection fails afterwards or not. *)
Theorem get_banners_async_keeps_every_result
        (E : env) (results : list ScanResult) (w : world) :
  exists out w',
    _get_banners_async E results w = (Ok out, w') /\
    Forall2 (fun r r' =>
               same_observation r r' /\
               (fails_before_response (net E (ip r) (port r)) -> r' = r) /\
               (forall data, answers (net E (ip r) (port r)) data ->
                             banner r' = Some (Py.take 200 data) /\
                             service r' = Some (BannerAnalyzer.analyze (Py.take 200 data))))
            results out.
Proof.
  destruct (gather_probes E results w) as (out & w' & Hg & Hall).
  exists out, w'. split; [|exact Hall].
  unfold _get_banners_async. unfold mbind, M_bind. rewrite Hg.
  unfold mret, M_ret. now rewrite keep_results_all.
Qed.

(** A probe that is answered, by a peer that resets the connection while
    it is being closed, next to a probe of an open port whose peer stays
    silent (read timeout): both results come back, the first with the
    banner and the service of the response, the second unchanged. *)
Lemma get_banners_async_keeps_every_result_witness :
  exists w',
    _get_banners_async Scenario.ssh_answers [Scenario.ssh_port; Scenario.http_port]
                       initial_world
    = (Ok [mkScanResult "10.0.0.1" 22 (Some "OpenSSH 8.2p1")
                        (Some "SSH-2.0-OpenSSH_8.2p1") true 0 None;
           Scenario.http_port], w').
Proof.
  destruct (get_banners_async_keeps_every_result Scenario.ssh_answers
              [Scenario.ssh_port; Scenario.http_port] initial_world)
    as (out & w' & Hrun & Hall).
  exists w'. rewrite Hrun. do 2 f_equal.
  inversion Hall as [|r1 r1' l1 l1' (Hsame & _ & H1) Hall1]; subst.
  inversion Hall1 as [|r2 r2' l2 l2' (_ & H2 & _) Hall2]; subst.
  inversion Hall2; subst.
  rewrite H2 by (right; right; eexists; reflexivity).
  f_equal.
  destruct (H1 "SSH-2.0-OpenSSH_8.2p1") as [Hbanner Hservice];
    [repeat split|].
  destruct Hsame as (Hip & Hport & Hnew & Htime & Hid).
  destruct r1'; simpl in *; subst. reflexivity.
Defined.

(** C4 as stated fails: when closing the connection fails after the
    response has been read, the result comes back with its banner and its
    service changed. *)
Lemma get_banner_for_port_counterexample :
  ~ (forall (E : env) (r r' : ScanResult) (w w' : world),
        fails_somewhere (net E (ip r) (port r)) ->
        _get_banner_for_port E r w = (Ok (Some r'), w') ->
        r' = r).
Proof.
  intros H.
  specialize (H Scenario.peers_reset_on_close Scenario.ssh_port
                (mkScanResult "10.0.0.1" 22 (Some "OpenSSH 8.2p1")
                              (Some "SSH-2.0-OpenSSH_8.2p1") true 0 None)
                initial_world
                (set_trace [Connecting "10.0.0.1" 22] initial_world)).
  discriminate H.
  - right. eexists. reflexivity.
  - reflexivity.
Qed.

End BannerProbing.

(** *** The history store: evaluation of the two backends *)

Section StoreScenarios.
Import Models World Disk Env Observe Scenario.

(** Scenario A on both backends: after the first session has been saved to
    an empty store the statistics count two results on one host.  The two
    ports are counted once each; the database lists them in descending
    order, the JSON file in the order in which they were stored. *)
Lemma statistics_after_first_session :
  fst (SQLite.get_statistics the_database
         (snd (SQLite.save_scan_session the_database quiet first_session initial_world)))
  = Ok (Some (Stats.mkStatistics 2 1 1 [(80%Z, 1); (22%Z, 1)])) /\
  fst (JSON.get_statistics the_document
         (snd (JSON.save_scan_session the_document quiet first_session initial_world)))
  = Ok (Some (Stats.mkStatistics 2 1 1 [(22%Z, 1); (80%Z, 1)])).
Proof. split; reflexivity. Qed.

(** C1 at its failing input.  The first session is saved to an empty store
    and then a second session observes 10.0.0.1:22 again.  Both backends
    keep a single row for the pair, but only the SQLite backend clears
    [is_new] on the result object; the JSON backend hands the session back
    untouched, with [is_new] still set. *)
Theorem resave_same_pair_flags :
  let w_db := snd (SQLite.save_scan_session the_database quiet first_session initial_world) in
  let w_doc := snd (JSON.save_scan_session the_document quiet first_session initial_world) in
  let again := mkScanResult "10.0.0.1" 22 (Some "OpenSSH") (Some "OpenSSH") true 11 None in
  results second_session = [again] /\
  fst (SQLite.save_scan_session the_database quiet second_session w_db)
  = Ok (true, set_results [set_is_new false again] second_session) /\
  db_keys (snd (SQLite.save_scan_session the_database quiet second_session w_db))
  = [("10.0.0.1", 22%Z); ("10.0.0.1", 80%Z)] /\
  fst (JSON.save_scan_session the_document quiet second_session w_doc)
  = Ok (true, set_results [again] second_session) /\
  doc_keys (snd (JSON.save_scan_session the_document quiet second_session w_doc))
  = [("10.0.0.1", 22%Z); ("10.0.0.1", 80%Z)].
Proof. repeat split. Qed.

(** C6 at its failing input.  A failed session, as [scan_async] returns
    it, is saved to an empty store: the SQLite backend reports no completed
    scan, the JSON backend counts the failed session in [total_scans]. *)
Theorem statistics_total_scans_of_failed_session :
  fst (SQLite.get_statistics the_database
         (snd (SQLite.save_scan_session the_database quiet failed_session initial_world)))
  = Ok (Some (Stats.mkStatistics 0 0 0 [])) /\
  fst (JSON.get_statistics the_document
         (snd (JSON.save_scan_session the_document quiet failed_session initial_world)))
  = Ok (Some (Stats.mkStatistics 0 0 1 [])).
Proof. split; reflexivity. Qed.

End StoreScenarios.

(** *** Newness checks when the store fails *)

Section StoreErrors.
Import Models World Disk Env Observe.

(** C2 (as amended).  A failure of the storage layer while the store is
    consulted never makes [check_is_new_result] answer [False]; what it
    does depends on where the failure occurs.  SQLite backend: when the
    query fails on a connection that has been made, the handler returns
    [True]; when the database cannot be opened, the call raises, as the
    connection is made before the [try] block.  JSON backend: a file that
    cannot be opened or decoded is read as an empty document, in which
    nothing is stored, so the answer is [True]; a file that decodes to a
    value that is no document makes the call raise at [data['results']].
    In each case the world is left as it was. *)
Theorem check_is_new_result_on_storage_error (result : ScanResult) (w : world) :
  (forall (self : SQLite.SQLiteStorage) (msg : string),
      fault (db w) = Some (CannotExecute msg) ->
      SQLite.check_is_new_result self result w = (Ok true, w)) /\
  (forall (self : SQLite.SQLiteStorage) (msg : string),
      fault (db w) = Some (CannotOpen msg) ->
      SQLite.check_is_new_result self result w = (Raise (mkExn OtherException msg), w)) /\
  (forall self : JSON.JSONStorage,
      content (json w) = Unreadable ->
      JSON.check_is_new_result self result w = (Ok true, w)) /\
  (forall (self : JSON.JSONStorage) (getitem : string -> exn),
      content (json w) = Foreign getitem ->
      JSON.check_is_new_result self result w = (Raise (getitem "results"), w)).
Proof.
  repeat split.
  - intros self msg Hfault.
    unfold SQLite.check_is_new_result, SQLite._get_connection, try_except, SQLite.execute.
    unfold mbind, M_bind. rewrite Hfault. simpl. now rewrite Hfault.
  - intros self msg Hfault.
    unfold SQLite.check_is_new_result, SQLite._get_connection.
    unfold mbind, M_bind. now rewrite Hfault.
  - intros self Hbad.
    unfold JSON.check_is_new_result, JSON._load_data.
    unfold mbind, M_bind. now rewrite Hbad.
  - intros self getitem Hbad.
    unfold JSON.check_is_new_result, JSON._load_data.
    unfold mbind, M_bind. now rewrite Hbad.
Qed.

(** A locked database, a database that cannot be opened, an unreadable
    file and a file that holds a list. *)
Lemma check_is_new_result_on_storage_error_witness :
  SQLite.check_is_new_result Scenario.the_database Scenario.openssh_22
                             Scenario.broken_database
  = (Ok true, Scenario.broken_database) /\
  SQLite.check_is_new_result Scenario.the_database Scenario.openssh_22
                             Scenario.unopenable_database
  = (Raise (mkExn OtherException "unable to open database file"),
     Scenario.unopenable_database) /\
  JSON.check_is_new_result Scenario.the_document Scenario.openssh_22
                           Scenario.unreadable_document
  = (Ok true, Scenario.unreadable_document) /\
  JSON.check_is_new_result Scenario.the_document Scenario.openssh_22
                           Scenario.list_document
  = (Raise (mkExn OtherException "list indices must be integers or slices, not str"),
     Scenario.list_document).
Proof.
  split; [|split; [|split]].
  - exact (proj1 (check_is_new_result_on_storage_error Scenario.openssh_22
                    Scenario.broken_database)
                 Scenario.the_database "database is locked" eq_refl).
  - exact (proj1 (proj2 (check_is_new_result_on_storage_error Scenario.openssh_22
                           Scenario.unopenable_database))
                 Scenario.the_database "unable to open database file" eq_refl).
  - exact (proj1 (proj2 (proj2 (check_is_new_result_on_storage_error Scenario.openssh_22
                                  Scenario.unreadable_document)))
                 Scenario.the_document eq_refl).
  - exact (proj2 (proj2 (proj2 (check_is_new_result_on_storage_error Scenario.openssh_22
                                  Scenario.list_document)))
                 Scenario.the_document _ eq_refl).
Defined.

(** C2 as stated fails: on a database whose statements fail the answer is
    not [False]. *)
Lemma check_is_new_result_counterexample :
  ~ (forall (self : SQLite.SQLiteStorage) (result : ScanResult) (w : world) (msg : string),
        fault (db w) = Some (CannotExecute msg) ->
        fst (SQLite.check_is_new_result self result w) = Ok false).
Proof.
  intros H.
  specialize (H Scenario.the_database Scenario.openssh_22 Scenario.broken_database
                "database is locked" eq_refl).
  discriminate H.
Qed.

End StoreErrors.

(** *** Notification fan-out *)

Section FanOut.
Import Models World Env Observe Notify.

(** The senders of [notify.py] are stateless. *)
Lemma telegram_stateless (self : TelegramNotifier) : stateless (Notifier self).
Proof.
  intros E message w. unfold answer. simpl. unfold telegram_send.
  destruct (negb (telegram_enabled self)); [reflexivity|].
  unfold try_except, post. unfold mbind, M_bind.
  destruct (http_post E _) as [e|status]; [reflexivity|].
  simpl. now destruct (status =? 200)%Z.
Qed.

Lemma email_stateless (self : EmailNotifier) : stateless (Notifier self).
Proof.
  intros E message w. unfold answer. simpl. unfold email_send.
  destruct (negb (email_enabled self)); [reflexivity|].
  unfold _send_sync, try_except. unfold mbind, M_bind.
  now destruct (smtp_send E).
Qed.

Lemma discord_stateless (self : DiscordNotifier) : stateless (Notifier self).
Proof.
  intros E message w. unfold answer. simpl. unfold discord_send.
  destruct (negb (discord_enabled self)); [reflexivity|].
  unfold try_except, post. unfold mbind, M_bind.
  destruct (http_post E _) as [e|status]; [reflexivity|].
  simpl. now destruct ((status =? 200)%Z || (status =? 204)%Z).
Qed.

Lemma scripted_stateless (self : ScriptedNotifier) : stateless (Notifier self).
Proof. intros E message w. reflexivity. Qed.

(** The senders of [notify.py] never raise: a failure is answered by
    [False]. *)
Lemma telegram_never_raises (self : TelegramNotifier) E message :
  exists b, answer (Notifier self) E message = Ok b.
Proof.
  unfold answer. simpl. unfold telegram_send.
  destruct (negb (telegram_enabled self)); [now exists false|].
  unfold try_except, post. unfold mbind, M_bind.
  destruct (http_post E _) as [e|status]; [now exists false|].
  simpl. destruct (status =? 200)%Z; eauto.
Qed.

(** Running the sends of stateless channels: every channel is called, in
    order, and each outcome is the channel's answer. *)
Lemma gather_sends E message ns w :
  Forall stateless ns ->
  gather (map (call_send E message) ns) w
  = (Ok (map (fun n => answer n E message) ns),
     set_trace (trace w ++ map (send_event message) ns) w).
Proof.
  intros Hns. revert w. induction Hns as [|n ns Hn _ IH]; intros w; simpl.
  - rewrite app_nil_r. now destruct w.
  - unfold call_send at 1, emit, modify. unfold mbind, M_bind. simpl.
    rewrite Hn. rewrite IH. simpl. rewrite <- app_assoc. reflexivity.
Qed.

(** [sum(1 for r in results if r is True)] counts the outcomes that are
    the value [True]: neither [False] nor an exception is counted. *)
Lemma count_true_delivered outcomes :
  count_true outcomes = length (delivered outcomes).
Proof.
  unfold count_true, delivered. induction outcomes as [|r rs IH]; [reflexivity|].
  cbn [List.filter].
  destruct (bool_decide_reflect (r = Ok true)) as [->|Hr].
  - simpl. now rewrite IH.
  - assert (is_True r = false) as ->; [|exact IH].
    destruct r as [[|]|e]; auto. now elim Hr.
Qed.

Lemma count_true_answers E message ns :
  count_true (map (fun n => answer n E message) ns)
  = length (List.filter (succeeds E message) ns).
Proof.
  rewrite count_true_delivered. unfold delivered, succeeds.
  induction ns as [|n ns IH]; simpl; [reflexivity|].
  destruct (bool_decide (answer n E message = Ok true)); simpl; now rewrite IH.
Qed.

Lemma notify_all_stateless E message ns w :
  Forall stateless ns ->
  notify_all (mkManager ns) E message w
  = (Ok (length (List.filter (succeeds E message) ns)),
     set_trace (trace w ++ map (send_event message) ns) w).
Proof.
  intros Hns. unfold notify_all. simpl.
  destruct ns as [|n ns].
  - simpl. rewrite app_nil_r. now destruct w.
  - rewrite bool_decide_eq_false_2 by discriminate.
    unfold mbind, M_bind. rewrite gather_sends by assumption.
    unfold mret, M_ret. now rewrite count_true_answers.
Qed.

End FanOut.

Section FanOutClaims.
Import Models World Env Observe Notify.

Lemma truthy_spec (s : string) : Py.truthy s = true <-> s <> "".
Proof.
  destruct s; simpl; split; intros H;
    try discriminate; try reflexivity; now elim H.
Qed.

Lemma add_notifier_notifiers (m : NotificationManager) (n : notifier) :
  notifiers (add_notifier m n)
  = if n_is_enabled n then notifiers m ++ [n] else notifiers m.
Proof. unfold add_notifier. now destruct (n_is_enabled n). Qed.

Lemma add_notifier_enabled (m : NotificationManager) (n : notifier) :
  Forall (fun n => n_is_enabled n = true) (notifiers m) ->
  Forall (fun n => n_is_enabled n = true) (notifiers (add_notifier m n)).
Proof.
  intros Hm. rewrite add_notifier_notifiers.
  destruct (n_is_enabled n) eqn:Hn; [|exact Hm].
  apply Forall_app. split; [exact Hm | now repeat constructor].
Qed.

Lemma create_notification_manager_enabled config :
  Forall (fun n => n_is_enabled n = true) (notifiers (create_notification_manager config)).
Proof.
  unfold create_notification_manager.
  destruct (cfg_telegram config) as [t|], (cfg_email config) as [m|],
    (cfg_discord config) as [d|];
    repeat match goal with
           | |- context [if ?b then _ else _] => destruct b
           end;
    repeat apply add_notifier_enabled; constructor.
Qed.

(** C7.  For every message and every list of channels held by the
    manager:
    - [notify_all] returns; the calls of [send], one per channel, leave
      one outcome each, a value or an exception, and the value of
      [notify_all] is the number of these outcomes that are [True];
    - for channels whose [send] acts on the network only (all senders of
      [notify.py] are such), every channel's [send] is called once, in
      order, and the value is the number of channels whose [send] returns
      [True];
    - a channel whose [send] returns [False] or raises changes nothing
      for the others: without it the value is the same;
    - [add_notifier] keeps a channel only if it is enabled, so every
      channel of a manager built by [create_notification_manager] is
      enabled, and a Telegram, e-mail or Discord sender is enabled only
      when none of its required settings is empty (for the port of the
      e-mail sender: an integer other than zero). *)
Theorem notify_all_counts_successes
        (E : env) (message : string) (ns : list notifier) (w : world) :
  (exists outcomes w',
      gather (map (call_send E message) ns) w = (Ok outcomes, w') /\
      length outcomes = length ns /\
      notify_all (mkManager ns) E message w
      = (Ok (length (List.filter (fun r => bool_decide (r = Ok true)) outcomes)), w')) /\
  (Forall stateless ns ->
   notify_all (mkManager ns) E message w
   = (Ok (length (List.filter (fun n => bool_decide (answer n E message = Ok true)) ns)),
      set_trace (trace w ++ map (send_event message) ns) w)) /\
  (forall ns1 n ns2,
      ns = ns1 ++ n :: ns2 ->
      Forall stateless ns ->
      answer n E message <> Ok true ->
      fst (notify_all (mkManager ns) E message w)
      = fst (notify_all (mkManager (ns1 ++ ns2)) E message w)) /\
  (forall (m : NotificationManager) (n : notifier),
      notifiers (add_notifier m n)
      = if n_is_enabled n then notifiers m ++ [n] else notifiers m) /\
  (forall config,
      Forall (fun n => n_is_enabled n = true)
             (notifiers (create_notification_manager config))) /\
  (forall token chat_id,
      n_is_enabled (Notifier (new_TelegramNotifier token chat_id)) = true
      <-> token <> "" /\ chat_id <> "") /\
  (forall server port sender password recipient,
      n_is_enabled (Notifier (new_EmailNotifier server port sender password recipient)) = true
      <-> server <> "" /\ (exists p, port = Some p /\ p <> 0%Z) /\
          sender <> "" /\ password <> "" /\ recipient <> "") /\
  (forall url,
      n_is_enabled (Notifier (new_DiscordNotifier url)) = true <-> url <> "").
Proof.
  split; [|split; [|split; [|split; [|split; [|split; [|split]]]]]].
  - unfold notify_all. simpl. destruct ns as [|n ns].
    + exists [], w. repeat split.
    + rewrite bool_decide_eq_false_2 by discriminate.
      destruct (gather_total (map (call_send E message) (n :: ns)) w) as (rs & Hrs & Hlen).
      unfold mbind, M_bind.
      destruct (gather (map (call_send E message) (n :: ns)) w) as [r w'].
      simpl in Hrs. subst r. exists rs, w'. split; [reflexivity|].
      split; [now rewrite Hlen, length_map|].
      unfold mret, M_ret. now rewrite count_true_delivered.
  - apply notify_all_stateless.
  - intros ns1 n ns2 -> Hall Hn.
    rewrite !notify_all_stateless.
    + simpl. rewrite !List.filter_app. simpl. unfold succeeds at 2.
      now rewrite bool_decide_eq_false_2 by exact Hn.
    + apply Forall_app in Hall as [H1 H2]. apply Forall_app. split; [exact H1|].
      now apply Forall_cons in H2 as [_ H2].
    + exact Hall.
  - apply add_notifier_notifiers.
  - apply create_notification_manager_enabled.
  - intros token chat_id. simpl. rewrite andb_true_iff, !truthy_spec. tauto.
  - intros server port sender password recipient. simpl.
    rewrite !andb_true_iff, !truthy_spec.
    assert (Hport : truthy_int port = true <-> exists p, port = Some p /\ p <> 0%Z).
    { destruct port as [p|]; simpl.
      - rewrite negb_true_iff, Z.eqb_neq. split; [eauto | now intros (? & [= <-] & ?)].
      - split; [discriminate | now intros (? & ? & _)]. }
    rewrite Hport. tauto.
  - intros url. simpl. apply truthy_spec.
Qed.

(** Scenario D: of three channels the Telegram sender without a token is
    left out when the manager is set up; of the two that remain one raises
    and one succeeds, and the value is 1.  With a further channel whose
    [send] returns [False] the value is still 1. *)
Lemma notify_all_counts_successes_witness :
  notifiers Scenario.three_channels = [Scenario.raising_sender; Scenario.working_sender] /\
  fst (notify_all Scenario.three_channels Scenario.quiet "new ports" initial_world) = Ok 1 /\
  fst (notify_all (mkManager [Scenario.raising_sender; Scenario.refusing_sender;
                              Scenario.working_sender])
                  Scenario.quiet "new ports" initial_world) = Ok 1.
Proof.
  split; [reflexivity|]. split.
  - change Scenario.three_channels
      with (mkManager [Scenario.raising_sender; Scenario.working_sender]).
    rewrite (proj1 (proj2 (notify_all_counts_successes Scenario.quiet "new ports"
                             [Scenario.raising_sender; Scenario.working_sender]
                             initial_world))).
    + reflexivity.
    + repeat constructor; apply scripted_stateless.
  - rewrite (proj1 (proj2 (notify_all_counts_successes Scenario.quiet "new ports"
                             [Scenario.raising_sender; Scenario.refusing_sender;
                              Scenario.working_sender]
                             initial_world))).
    + reflexivity.
    + repeat constructor; apply scripted_stateless.
Defined.

End FanOutClaims.

(** *** Both backends are plain storage *)

Section PlainStorage.
Import Models World Disk Env Observe Storage.

Lemma execute_preserves_trace {A} (f : event -> bool)
      (q : sqlite_db -> result A * sqlite_db) :
  preserves (recorded f) (SQLite.execute q).
Proof.
  intros w. unfold SQLite.execute.
  destruct (fault (db w)); [reflexivity|]. now destruct (q (db w)).
Qed.

(** Making the connection changes nothing; it fails on a database that
    cannot be opened, and only there. *)
Lemma get_connection_cases (store : SQLite.SQLiteStorage) w :
  SQLite._get_connection store w = (Ok tt, w) \/
  exists e, SQLite._get_connection store w = (Raise e, w).
Proof.
  unfold SQLite._get_connection. destruct (fault (db w)) as [[msg|msg]|]; eauto.
Qed.

Lemma get_connection_preserves {O} (obs : world -> O) (store : SQLite.SQLiteStorage) :
  preserves obs (SQLite._get_connection store).
Proof.
  intros w. now destruct (get_connection_cases store w) as [->|[e ->]].
Qed.

Lemma get_connection_working (store : SQLite.SQLiteStorage) w :
  fault (db w) = None -> SQLite._get_connection store w = (Ok tt, w).
Proof. unfold SQLite._get_connection. now intros ->. Qed.

Lemma get_connection_made (store : SQLite.SQLiteStorage) w msg :
  fault (db w) = Some (CannotExecute msg) -> SQLite._get_connection store w = (Ok tt, w).
Proof. unfold SQLite._get_connection. now intros ->. Qed.

Lemma get_connection_refused (store : SQLite.SQLiteStorage) w msg :
  fault (db w) = Some (CannotOpen msg) ->
  SQLite._get_connection store w = (Raise (mkExn OtherException msg), w).
Proof. unfold SQLite._get_connection. now intros ->. Qed.

(** Loading the JSON file changes nothing; a file that holds a document,
    or that cannot be read, gives the document that the properties look
    at. *)
Lemma load_data_document w :
  is_document w -> JSON._load_data w = (Ok (Dict (document w)), w).
Proof.
  unfold is_document, JSON._load_data, document.
  now destruct (content (json w)) as [data| |g].
Qed.

Lemma load_data_foreign w getitem :
  content (json w) = Foreign getitem -> JSON._load_data w = (Ok (NoDict getitem), w).
Proof. unfold JSON._load_data. now intros ->. Qed.

Lemma mark_not_new_summary i s :
  (status (SQLite.mark_not_new i s), new_results (SQLite.mark_not_new i s),
   Models.total_results (SQLite.mark_not_new i s))
  = (status s, new_results s, Models.total_results s).
Proof. reflexivity. Qed.

Lemma sqlite_plain (store : SQLite.SQLiteStorage) : plain_storage store.
Proof.
  intros E session w. simpl. unfold SQLite.save_scan_session. split.
  - revert w. apply preserves_bind; [apply get_connection_preserves|]. intros _.
    apply preserves_bind; [apply preserves_get|]. intros w0.
    apply preserves_with_local, preserves_bind.
    + apply preserves_try_except.
      * apply preserves_bind; [apply preserves_zoom, execute_preserves_trace|]. intros _.
        apply preserves_bind; [|intros _; apply preserves_ret].
        apply preserves_for_each. intros [i r]. unfold SQLite.save_result.
        apply preserves_bind; [apply preserves_zoom; intros w'; reflexivity|]. intros rid.
        apply preserves_try_except; [apply preserves_zoom, execute_preserves_trace|].
        intros e. destruct (kind e); try apply preserves_raise. apply preserves_assign.
      * intros e. apply preserves_bind; [|intros _; apply preserves_ret].
        apply preserves_zoom. intros w'. reflexivity.
    + intros ok. apply preserves_bind; [apply preserves_local|]. intros s.
      apply preserves_ret.
  - intros ok session' Hret. unfold mbind at 1, M_bind at 1 in Hret.
    destruct (get_connection_cases store w) as [Hc|[e Hc]]; rewrite Hc in Hret;
      [|discriminate].
    unfold mbind at 1, M_bind at 1 in Hret. simpl in Hret.
    apply (with_local_value
             (fun s => (status s, new_results s, Models.total_results s))) in Hret.
    + injection Hret as H1 H2 H3. now repeat split.
    + apply preserves_try_except.
      * apply preserves_bind; [apply preserves_zoom_local|]. intros _.
        apply preserves_bind; [|intros _; apply preserves_ret].
        apply preserves_for_each. intros [i r]. unfold SQLite.save_result.
        apply preserves_bind; [apply preserves_zoom_local|]. intros rid.
        apply preserves_try_except; [apply preserves_zoom_local|].
        intros e. destruct (kind e); try apply preserves_raise.
        apply preserves_assign_local. intros s. apply mark_not_new_summary.
      * intros e. apply preserves_bind; [|intros _; apply preserves_ret].
        apply preserves_zoom_local.
Qed.

Lemma json_plain (store : JSON.JSONStorage) : plain_storage store.
Proof.
  intros E session w. simpl. unfold JSON.save_scan_session, JSON._load_data, JSON._save_data.
  unfold mbind, M_bind.
  destruct (content (json w)); simpl; try destruct (writable (json w)); simpl;
    (split; [reflexivity | intros ok session' Hret; try discriminate Hret;
                           injection Hret as <- <-; now repeat split]).
Qed.

End PlainStorage.

(** The first step of a method of the SQLite backend on a database that
    works. *)
Ltac connected H :=
  unfold mbind at 1, World.M_bind at 1; rewrite (get_connection_working _ _ H).

(** *** One run of the application *)

Section RunScan.
Import Models World Disk Env Observe Storage Notify Main.
Context {T : Type} `{BaseStorage T}.
Variable self : PortScannerApplication T.
Variable E : env.
Variable sent : list event.
Hypothesis Hplain : plain_storage (storage self).

(** A callee that calls no [send] keeps the frame silent and leaves the
    local object as it is. *)
Lemma zoom_keeps {A} (m : M world A) (Lp : option ScanSession -> Prop) :
  preserves (recorded is_send) m ->
  returns (fun xs => silent sent xs /\ Lp (fst xs)) (zoom m)
          (fun _ xs => silent sent xs /\ Lp (fst xs))
          (fun xs => silent sent xs /\ Lp (fst xs)).
Proof.
  intros Hm [x w] [Hs Hl]. unfold zoom, silent in *. simpl in *.
  specialize (Hm w). destruct (m w) as [[a|e] w1]; simpl in *; split; congruence.
Qed.

Lemma zoom_silent {A} (m : M world A) :
  preserves (recorded is_send) m ->
  returns (silent sent) (zoom m) (fun _ => silent sent) (silent sent).
Proof.
  intros Hm. eapply returns_weaken.
  - apply (zoom_keeps m (fun _ => True) Hm).
  - intros s Hs. now split.
  - intros a s [Hs _]. exact Hs.
  - intros s [Hs _]. exact Hs.
Qed.

(** Whatever the callee does, a frame that counts new results still does
    so afterwards. *)
Lemma zoom_counts_new {A} (m : M world A) :
  returns counts_new (zoom m) (fun _ => counts_new) counts_new.
Proof.
  intros [x w] Hx. unfold zoom. simpl. now destruct (m w) as [[a|e] w1].
Qed.

Lemma save_silent session :
  preserves (recorded is_send) (save_scan_session (storage self) E session).
Proof. intros w. apply Hplain. Qed.

Lemma zoom_save session :
  returns (silent sent) (zoom (save_scan_session (storage self) E session))
          (fun saved xs => silent sent xs /\ keeps_summary session (snd saved))
          (silent sent).
Proof.
  intros [x w] Hs. unfold zoom, silent in *. simpl in *.
  destruct (Hplain E session w) as [Htr Hval].
  destruct (save_scan_session (storage self) E session w) as [[[ok s']|e] w1];
    simpl in *.
  - split; [congruence | now apply (Hval ok s')].
  - congruence.
Qed.

Lemma assign_session session :
  returns (silent sent) (assign (S := world) (fun _ : option ScanSession => Some session))
          (fun _ xs => silent sent xs /\ fst xs = Some session)
          (silent sent).
Proof. intros [x w] Hs. simpl. now split. Qed.

Lemma log_discovery_silent rs :
  preserves (recorded is_send) (for_each rs log_discovery).
Proof.
  apply preserves_for_each. intros r. unfold log_discovery.
  destruct (service r); [apply preserves_ret | apply preserves_raise].
Qed.

(** After the body of [run_scan], either no [send] has been called or the
    session of the run counts new results. *)
Lemma run_scan_body_silent_or_new :
  returns (silent sent) (run_scan_body self E)
          (fun _ xs => silent sent xs \/ counts_new xs)
          (fun xs => silent sent xs \/ counts_new xs).
Proof.
  set (K := fun xs : option ScanSession * world => silent sent xs \/ counts_new xs).
  assert (HK : forall xs, silent sent xs -> K xs) by (intros xs Hs; now left).
  unfold run_scan_body.
  apply returns_try_except with (Ph := K);
    [|intros e; apply returns_ret; auto].
  apply returns_bind with (Pm := fun _ => silent sent).
  { eapply returns_weaken; [apply zoom_silent, now_preserves | auto..]. }
  intros _. apply returns_bind with (Pm := fun _ => silent sent).
  { eapply returns_weaken;
      [apply zoom_silent, scan_async_preserves; reflexivity | auto..]. }
  intros session. apply returns_bind with (Pm := fun _ => silent sent).
  { eapply returns_weaken; [apply assign_session | auto | now intros a s [Hs _] | auto]. }
  intros _.
  assert (Hcont :
    returns (silent sent)
      (saved ← zoom (save_scan_session (storage self) E session);
       let session := snd saved in
       let new_results := List.filter is_new (results session) in
       let session := set_new_results (length new_results) session in
       let session := set_total_results (length (results session)) session in
       _ ← assign (fun _ => Some session);
       saved ← zoom (save_scan_session (storage self) E session);
       let session := snd saved in
       _ ← assign (fun _ => Some session);
       _ ← zoom now;
       let total_ports_found := length (results session) in
       _ ← zoom now;
       _ ← match new_results with
           | _ :: _ =>
               t ← zoom now;
               let message :=
                 Utils.format_notification_message (strftime E t)
                   (map discovery_of new_results)
                   (summary_of session total_ports_found) in
               _ ← zoom (notify_all (notifier self) E message);
               mret tt
           | [] => mret tt
           end;
       _ ← zoom (for_each (firstn 10 (sorted_by_port (results session))) log_discovery);
       mret true)
      (fun _ => K) K).
  { apply returns_bind with (Pm := fun _ => silent sent).
    { eapply returns_weaken; [apply zoom_save | auto | now intros a s [Hs _] | auto]. }
    intros saved1. cbv zeta.
    set (found := List.filter is_new (results (snd saved1))).
    set (session1 := set_total_results _ _).
    apply returns_bind with (Pm := fun _ => silent sent).
    { eapply returns_weaken; [apply assign_session | auto | now intros a s [Hs _] | auto]. }
    intros _. apply returns_bind
      with (Pm := fun saved xs => silent sent xs /\ keeps_summary session1 (snd saved)).
    { eapply returns_weaken; [apply zoom_save | auto..]. }
    intros saved2.
    apply returns_bind
      with (Pm := fun _ xs => silent sent xs /\ fst xs = Some (snd saved2)
                              /\ new_results (snd saved2) = length found).
    { intros [x w] [Hs (_ & Hn & _)]. simpl. repeat split; [exact Hs | exact Hn]. }
    intros _.
    set (Lp := fun l : option ScanSession =>
                 l = Some (snd saved2) /\ new_results (snd saved2) = length found).
    apply returns_bind with (Pm := fun _ xs => silent sent xs /\ Lp (fst xs)).
    { eapply returns_weaken; [apply (zoom_keeps _ Lp), now_preserves | auto..].
      intros s [Hs _]. now left. }
    intros _. apply returns_bind with (Pm := fun _ xs => silent sent xs /\ Lp (fst xs)).
    { eapply returns_weaken; [apply (zoom_keeps _ Lp), now_preserves | auto..].
      intros s [Hs _]. now left. }
    intros _. apply returns_bind with (Pm := fun _ => K).
    { destruct found as [|r found'] eqn:Hfound.
      - apply returns_ret. intros s [Hs _]. now left.
      - eapply returns_weaken with (P' := counts_new) (Q' := fun _ => counts_new)
                                   (R' := counts_new).
        + apply returns_bind with (Pm := fun _ => counts_new);
            [apply zoom_counts_new|]. intros t.
          apply returns_bind with (Pm := fun _ => counts_new);
            [apply zoom_counts_new|]. intros _.
          apply returns_ret. auto.
        + intros [x w] [_ [Hx Hn]]. simpl in *. exists (snd saved2).
          split; [exact Hx | rewrite Hn; discriminate].
        + intros a s Hs. now right.
        + intros s Hs. now right. }
    intros _. apply returns_bind with (Pm := fun _ => K); [|intros _; apply returns_ret; auto].
    intros xs [Hs|Hn].
    - pose proof (zoom_silent
                    (for_each (firstn 10 (sorted_by_port (results (snd saved2)))) log_discovery)
                    (log_discovery_silent _) xs Hs) as Hz.
      destruct (zoom _ xs) as [[a|e] s1]; now left.
    - pose proof (zoom_counts_new
                    (for_each (firstn 10 (sorted_by_port (results (snd saved2)))) log_discovery)
                    xs Hn) as Hz.
      destruct (zoom _ xs) as [[a|e] s1]; now right. }
  destruct (status session); [exact Hcont | exact Hcont | exact Hcont|].
  apply returns_ret. auto.
Qed.

End RunScan.

Section RunScanClaims.
Import Models World Disk Env Observe Storage Notify Main.

Lemma run_scan_world {T} `{BaseStorage T} (self : PortScannerApplication T) E w :
  snd (run_scan self E w) = snd (snd (run_scan_body self E (None, w))).
Proof. unfold run_scan, with_local. now destruct (run_scan_body self E (None, w)). Qed.

Lemma run_scan_quiet {T} `{BaseStorage T} (self : PortScannerApplication T) E w session :
  plain_storage (storage self) ->
  fst (snd (run_scan_body self E (None, w))) = Some session ->
  new_results session = 0 ->
  sends (trace (snd (run_scan self E w))) = sends (trace w).
Proof.
  intros Hplain Hsession Hzero. rewrite run_scan_world.
  pose proof (run_scan_body_silent_or_new self E (recorded is_send w) Hplain
                (None, w) eq_refl) as Hrun.
  destruct (run_scan_body self E (None, w)) as [r [loc w']]. simpl in *.
  assert (Hk : silent (recorded is_send w) (loc, w') \/ counts_new (loc, w'))
    by (destruct r; exact Hrun).
  destruct Hk as [Hs|(session' & Hloc & Hn)].
  - exact Hs.
  - simpl in Hloc. congruence.
Qed.

(** C8.  With either backend: when the session of a run is completed and
    its count of new results is zero, the run has called no channel's
    [send]; the calls of [send] in the trace are those that were there
    before the run. *)
Theorem run_scan_without_new_results_sends_nothing (E : env) (w : world)
        (session : ScanSession) :
  (forall self : PortScannerApplication SQLite.SQLiteStorage,
      fst (snd (run_scan_body self E (None, w))) = Some session ->
      status session = COMPLETED ->
      new_results session = 0 ->
      sends (trace (snd (run_scan self E w))) = sends (trace w)) /\
  (forall self : PortScannerApplication JSON.JSONStorage,
      fst (snd (run_scan_body self E (None, w))) = Some session ->
      status session = COMPLETED ->
      new_results session = 0 ->
      sends (trace (snd (run_scan self E w))) = sends (trace w)).
Proof.
  split; intros self Hsession _ Hzero.
  - apply (run_scan_quiet self E w session); auto using sqlite_plain.
  - apply (run_scan_quiet self E w session); auto using json_plain.
Qed.

(** The engine reports a port that the database already holds: the run is
    completed with no new result, and the two enabled channels are not
    called. *)
Lemma run_scan_without_new_results_sends_nothing_witness :
  fst (Main.run_scan Scenario.app_with_database Scenario.rescan Scenario.seen_in_database)
  = Ok true /\
  sends (trace (snd (Main.run_scan Scenario.app_with_database Scenario.rescan
                                   Scenario.seen_in_database))) = [].
Proof.
  split; [reflexivity|].
  refine (proj1 (run_scan_without_new_results_sends_nothing
                   Scenario.rescan Scenario.seen_in_database
                   (mkScanSession "run-2" COMPLETED 1 (Some 3) ["10.0.0.1"]
                      [mkScanResult "10.0.0.1" 22 (Some "SSH") None false 2 None]
                      1 0 []))
                Scenario.app_with_database _ _ _); reflexivity.
Defined.

End RunScanClaims.

(** *** The uniqueness invariant of the store *)

Section StoreInvariant.
Import Models World Disk Env Observe Storage.

(** A row that violates no constraint has a (host, port) pair that the
    table does not hold. *)
Lemma violates_false row table :
  SQLite.violates row table = false -> row_key row ∉ map row_key table.
Proof.
  unfold SQLite.violates. intros Hv Hin.
  apply list_elem_of_fmap in Hin as (r & Hkey & Hr).
  apply list_elem_of_In in Hr.
  assert (Hex : existsb (fun r => String.eqb (r_id r) (r_id row)
                           || (String.eqb (r_ip r) (r_ip row) && (r_port r =? r_port row)%Z))
                        table = true).
  { apply existsb_exists. exists r. split; [exact Hr|].
    unfold row_key in Hkey. injection Hkey as Hip Hport.
    rewrite Hip, Hport, String.eqb_refl, Z.eqb_refl. simpl. apply orb_true_r. }
  congruence.
Qed.

(** A row whose pair the table holds violates the constraint. *)
Lemma violates_true row table :
  row_key row ∈ map row_key table -> SQLite.violates row table = true.
Proof.
  intros Hin. destruct (SQLite.violates row table) eqn:Hv; [reflexivity|].
  now apply violates_false in Hv.
Qed.

Lemma insert_result_unique row d :
  NoDup (map row_key (scan_results d)) ->
  NoDup (map row_key (scan_results (snd (SQLite.insert_result row d)))).
Proof.
  intros Hd. unfold SQLite.insert_result.
  destruct (SQLite.violates row (scan_results d)) eqn:Hv; simpl; [exact Hd|].
  rewrite map_app. apply NoDup_app. split; [exact Hd|]. split.
  - intros k Hk Hk'. simpl in Hk'. apply list_elem_of_singleton in Hk'. subst k.
    now apply violates_false in Hv.
  - apply NoDup_singleton.
Qed.

Lemma execute_unique {A} (q : sqlite_db -> result A * sqlite_db) :
  (forall d, NoDup (map row_key (scan_results d)) ->
             NoDup (map row_key (scan_results (snd (q d))))) ->
  triple unique_in_database (SQLite.execute q) unique_in_database.
Proof.
  intros Hq w Hw. unfold SQLite.execute, unique_in_database, db_keys in *.
  destruct (fault (db w)); [exact Hw|].
  specialize (Hq (db w) Hw). now destruct (q (db w)).
Qed.

(** Saving a session to the database keeps the pairs of the stored rows
    pairwise different, whatever identifiers are drawn for the rows. *)
Lemma sqlite_save_unique (store : SQLite.SQLiteStorage) E session :
  triple unique_in_database (SQLite.save_scan_session store E session)
         unique_in_database.
Proof.
  intros w Hw. unfold SQLite.save_scan_session.
  unfold mbind at 1, M_bind at 1.
  destruct (get_connection_cases store w) as [->|[e ->]]; [|exact Hw].
  unfold mbind at 1, M_bind at 1. simpl.
  assert (Hsnap : NoDup (map row_key (scan_results (db w)))) by exact Hw.
  remember (db w) as snapshot eqn:Hsn in Hsnap |- *. clear Hsn.
  revert w Hw. apply keeps_with_local, keeps_bind.
  - apply keeps_try_except.
    + apply keeps_bind; [apply keeps_zoom, execute_unique; now intros d|]. intros _.
      apply keeps_bind; [|intros _; apply keeps_ret].
      apply keeps_for_each. intros [i r]. unfold SQLite.save_result.
      apply keeps_bind; [apply keeps_zoom; now intros w'|]. intros rid.
      apply keeps_try_except;
        [apply keeps_zoom, execute_unique; intros d; apply insert_result_unique|].
      intros e. destruct (kind e); try apply keeps_raise. apply keeps_assign.
    + intros e. apply keeps_bind; [|intros _; apply keeps_ret].
      apply keeps_zoom. intros w' _. exact Hsnap.
  - intros ok. apply keeps_bind; [apply keeps_local|]. intros s. apply keeps_ret.
Qed.

End StoreInvariant.

Section StoreInvariantJSON.
Import Models World Disk Env Observe Storage.

Lemma add_result_unique sid data r :
  NoDup (map dict_key (doc_results data)) ->
  NoDup (map dict_key (doc_results (JSON.add_result sid data r))).
Proof.
  intros Hd. unfold JSON.add_result.
  destruct (existsb _ (doc_results data)) eqn:Hex; simpl; [exact Hd|].
  rewrite map_app. apply NoDup_app. split; [exact Hd|]. split; [|apply NoDup_singleton].
  intros k Hk Hk'. simpl in Hk'. apply list_elem_of_singleton in Hk'. subst k.
  apply list_elem_of_fmap in Hk as (d & Hkey & Hin). apply list_elem_of_In in Hin.
  assert (Hex' : existsb (fun r0 => String.eqb (rd_ip r0) (ip r) && (rd_port r0 =? port r)%Z)
                         (doc_results data) = true).
  { apply existsb_exists. exists d. split; [exact Hin|].
    unfold dict_key in Hkey. simpl in Hkey. injection Hkey as Hip Hport.
    now rewrite <- Hip, <- Hport, String.eqb_refl, Z.eqb_refl. }
  congruence.
Qed.

Lemma add_results_unique sid rs data :
  NoDup (map dict_key (doc_results data)) ->
  NoDup (map dict_key (doc_results (fold_left (JSON.add_result sid) rs data))).
Proof.
  revert data. induction rs as [|r rs IH]; intros data Hd; simpl; [exact Hd|].
  now apply IH, add_result_unique.
Qed.

(** Saving a session to the JSON file keeps the pairs of the stored
    entries pairwise different. *)
Lemma json_save_unique (store : JSON.JSONStorage) E session :
  triple unique_in_document (JSON.save_scan_session store E session)
         unique_in_document.
Proof.
  intros w Hw. unfold JSON.save_scan_session, JSON._load_data, JSON._save_data.
  unfold mbind, M_bind. unfold unique_in_document, doc_keys, document in *.
  destruct (content (json w)) as [data| |g] eqn:Hc; simpl;
    [ | |now rewrite Hc];
    (destruct (writable (json w)); simpl; [|now rewrite Hc]);
    apply add_results_unique; simpl; [exact Hw | constructor].
Qed.

(** The dedup invariant: whatever sessions are saved to an empty store,
    and in whatever environments, no (host, port) pair is stored twice. *)
Lemma save_all_unique_in_database (store : SQLite.SQLiteStorage) runs w :
  unique_in_database w -> unique_in_database (save_all store runs w).
Proof.
  revert w. induction runs as [|[E session] runs IH]; intros w Hw; simpl; [exact Hw|].
  apply IH. now apply (sqlite_save_unique store E session).
Qed.

Lemma save_all_unique_in_document (store : JSON.JSONStorage) runs w :
  unique_in_document w -> unique_in_document (save_all store runs w).
Proof.
  revert w. induction runs as [|[E session] runs IH]; intros w Hw; simpl; [exact Hw|].
  apply IH. now apply (json_save_unique store E session).
Qed.

Lemma empty_store_unique :
  unique_in_database initial_world /\ unique_in_document initial_world.
Proof. split; constructor. Qed.

End StoreInvariantJSON.

(** *** The SQLite backend clears [is_new] on stored pairs *)

Section SqliteFlags.
Import Models World Disk Env Observe Storage.

Lemma set_results_same s : set_results (results s) s = s.
Proof. now destruct s. Qed.

Lemma set_results_twice l l' s : set_results l (set_results l' s) = set_results l s.
Proof. reflexivity. Qed.

Lemma flagged_mono before before' after after' r r' :
  before ⊆ before' -> after' ⊆ after ->
  flagged before' after' r r' -> flagged before after r r'.
Proof.
  intros Hb Ha (Hr & Hk & Hn). split; [exact Hr|]. split.
  - intros Hin. apply Hk, Hb, Hin.
  - intros Hnew. apply Ha, Hn, Hnew.
Qed.

(** One iteration: the row is inserted, or the constraint is violated and
    the flag of the result object is cleared. *)
Lemma save_result_step E sid pre r rs s w :
  fault (db w) = None ->
  results s = pre ++ r :: rs ->
  exists r' w',
    SQLite.save_result E sid (length pre, r) (s, w)
    = (Ok tt, (set_results (pre ++ r' :: rs) s, w')) /\
    fault (db w') = None /\
    flagged (db_keys w) (db_keys w') r r' /\
    db_keys w ⊆ db_keys w'.
Proof.
  intros Hfault Hres.
  unfold SQLite.save_result, uuid4, try_except, zoom, assign, SQLite.execute, raise.
  unfold mbind, M_bind. simpl. rewrite Hfault.
  unfold SQLite.insert_result at 1. simpl.
  set (row := SQLite.result_row_of _ sid r).
  destruct (SQLite.violates row (scan_results (db w))) eqn:Hv; simpl.
  - exists (set_is_new false r), (set_uuid_count (S (uuid_count w)) w).
    split; [|split; [exact Hfault|split]].
    + unfold SQLite.mark_not_new. rewrite Hres.
      replace (length pre) with (length pre + 0) by lia.
      rewrite alter_app_r. simpl. destruct w; reflexivity.
    + split; [now right | split; [reflexivity | discriminate]].
    + reflexivity.
  - exists r. eexists. split.
    { rewrite <- Hres, set_results_same. reflexivity. }
    split; [exact Hfault|]. split.
    + split; [now left|]. split.
      * intros Hin. exfalso. apply violates_false in Hv. apply Hv. exact Hin.
      * intros _. unfold db_keys. simpl. rewrite map_app.
        apply elem_of_app. right. apply list_elem_of_singleton. reflexivity.
    + unfold db_keys. simpl. rewrite map_app. intros k Hk.
      apply elem_of_app. now left.
Qed.

(** The loop over the results that follow the prefix [pre]. *)
Lemma save_loop E sid rs :
  forall pre s w,
    fault (db w) = None ->
    results s = pre ++ rs ->
    exists rs' w',
      for_each (imap (fun i r => (length pre + i, r)) rs) (SQLite.save_result E sid) (s, w)
      = (Ok tt, (set_results (pre ++ rs') s, w')) /\
      fault (db w') = None /\
      Forall2 (flagged (db_keys w) (db_keys w')) rs rs' /\
      db_keys w ⊆ db_keys w'.
Proof.
  induction rs as [|r rs IH]; intros pre s w Hfault Hres.
  - exists [], w. simpl. rewrite <- Hres, set_results_same.
    split; [reflexivity|]. split; [exact Hfault|]. split; [constructor | reflexivity].
  - rewrite imap_cons. simpl for_each. rewrite Nat.add_0_r.
    destruct (save_result_step E sid pre r rs s w Hfault Hres)
      as (r' & w1 & Hstep & Hfault1 & Hflag & Hsub).
    unfold mbind at 1, M_bind at 1. rewrite Hstep.
    destruct (IH (pre ++ [r']) (set_results (pre ++ r' :: rs) s) w1 Hfault1)
      as (rs' & w2 & Hloop & Hfault2 & Hflags & Hsub2).
    { simpl. now rewrite <- app_assoc. }
    exists (r' :: rs'), w2. split; [|split; [exact Hfault2|split]].
    + rewrite (imap_ext _ (fun i r0 => (length (pre ++ [r']) + i, r0))).
      * rewrite Hloop. rewrite set_results_twice, <- app_assoc. reflexivity.
      * intros i x _. simpl. rewrite length_app. simpl. f_equal. lia.
    + constructor.
      * eapply flagged_mono; [reflexivity | exact Hsub2 | exact Hflag].
      * eapply Forall2_impl; [exact Hflags|]. intros x y.
        apply flagged_mono; [exact Hsub | reflexivity].
    + intros k Hk. apply Hsub2, Hsub, Hk.
Qed.

(** On a working database [save_scan_session] succeeds, and it hands the
    session back with the results in place: each one untouched or with
    [is_new] cleared, and with [is_new] clear whenever its pair was stored
    before the call. *)
Lemma sqlite_save_flags (store : SQLite.SQLiteStorage) E session w :
  fault (db w) = None ->
  exists rs' w',
    SQLite.save_scan_session store E session w
    = (Ok (true, set_results rs' session), w') /\
    Forall2 (flagged (db_keys w) (db_keys w')) (results session) rs' /\
    db_keys w ⊆ db_keys w'.
Proof.
  intros Hfault. unfold SQLite.save_scan_session. connected Hfault.
  unfold mbind at 1, M_bind at 1. simpl.
  set (w1 := set_db (mkDb (filter (fun s => s_id s ≠ id session) (scan_sessions (db w))
                           ++ [SQLite.session_row_of session])
                          (scan_results (db w)) (fault (db w))) w).
  assert (Hfault1 : fault (db w1) = None) by exact Hfault.
  destruct (save_loop E (id session) (results session) [] session w1 Hfault1 eq_refl)
    as (rs' & w2 & Hloop & Hfault2 & Hflags & Hsub).
  rewrite (imap_ext _ pair) in Hloop by (intros i x _; reflexivity).
  assert (Hupsert :
    zoom (SQLite.execute (SQLite.upsert_session (SQLite.session_row_of session)))
         (session, w) = (Ok tt, (session, w1))).
  { unfold zoom, SQLite.execute, w1. simpl. now rewrite Hfault. }
  exists rs', w2. split; [|split; assumption].
  match goal with
  | |- with_local session (?blk ≫= _) w = _ =>
      assert (Hblock : blk (session, w) = (Ok true, (set_results rs' session, w2)))
  end.
  { unfold try_except.
    erewrite bind_ok by exact Hupsert.
    erewrite bind_ok by exact Hloop.
    reflexivity. }
  unfold with_local. erewrite bind_ok by exact Hblock. reflexivity.
Qed.

End SqliteFlags.

Section SqliteDedup.
Import Models World Disk Env Observe Storage.

(** A pair that the table holds comes back with [is_new] clear. *)
Lemma sqlite_known_pair_not_new (store : SQLite.SQLiteStorage) E session w i r :
  fault (db w) = None ->
  results session !! i = Some r ->
  result_key r ∈ db_keys w ->
  exists ok session' r',
    fst (SQLite.save_scan_session store E session w) = Ok (ok, session') /\
    results session' !! i = Some r' /\
    is_new r' = false.
Proof.
  intros Hfault Hi Hkey.
  destruct (sqlite_save_flags store E session w Hfault) as (rs' & w' & Hsave & Hflags & _).
  destruct (Forall2_lookup_l _ _ _ _ _ Hflags Hi) as (r' & Hi' & _ & Hold & _).
  exists true, (set_results rs' session), r'. rewrite Hsave. simpl.
  split; [reflexivity|]. split; [exact Hi' | now apply Hold].
Qed.

(** A pair that one save reports as new is reported as not new by every
    later save to the same database. *)
Lemma sqlite_new_at_most_once (store : SQLite.SQLiteStorage)
      E1 first w E2 later w2 i j r1 r2 :
  fault (db w) = None ->
  fault (db w2) = None ->
  db_keys (snd (SQLite.save_scan_session store E1 first w)) ⊆ db_keys w2 ->
  (exists ok first' r1',
      fst (SQLite.save_scan_session store E1 first w) = Ok (ok, first') /\
      results first !! i = Some r1 /\
      results first' !! i = Some r1' /\
      is_new r1' = true) ->
  results later !! j = Some r2 ->
  result_key r2 = result_key r1 ->
  exists ok later' r2',
    fst (SQLite.save_scan_session store E2 later w2) = Ok (ok, later') /\
    results later' !! j = Some r2' /\
    is_new r2' = false.
Proof.
  intros Hfault Hfault2 Hsub (ok & first' & r1' & Hsave & Hi & Hi' & Hnew) Hj Hkey.
  apply sqlite_known_pair_not_new with (r := r2); [exact Hfault2 | exact Hj |].
  apply Hsub.
  destruct (sqlite_save_flags store E1 first w Hfault) as (rs' & w' & Hsave' & Hflags & _).
  rewrite Hsave' in Hsave |- *. simpl in *. injection Hsave as <- <-. simpl in Hi'.
  destruct (Forall2_lookup_l _ _ _ _ _ Hflags Hi) as (r1'' & Hi'' & _ & _ & Hstored).
  rewrite Hi' in Hi''. injection Hi'' as <-.
  rewrite Hkey. now apply Hstored.
Qed.

End SqliteDedup.

(** *** The JSON backend never touches the session; statistics *)

Section StoreFacts.
Import Models World Disk Env Observe Storage.

(** [JSONStorage.save_scan_session] hands the session back as it was:
    no [is_new] flag is ever changed. *)
Lemma json_save_leaves_session (store : JSON.JSONStorage) E session w :
  is_document w ->
  exists ok, fst (JSON.save_scan_session store E session w) = Ok (ok, session).
Proof.
  unfold is_document, JSON.save_scan_session, JSON._load_data, JSON._save_data.
  unfold mbind, M_bind. intros Hdoc.
  destruct (content (json w)) as [data| |g]; [| |now elim Hdoc];
    simpl; destruct (writable (json w)); simpl; eauto.
Qed.

(** [count_distinct] counts each host once. *)
Lemma count_distinct_remove_dups (ips : list string) :
  count_distinct ips = length (remove_dups ips).
Proof.
  unfold count_distinct.
  rewrite <- (size_list_to_set (C := gset string) (remove_dups ips))
    by apply NoDup_remove_dups.
  f_equal. apply set_eq. intros x.
  rewrite !elem_of_list_to_set. now rewrite elem_of_remove_dups.
Qed.

(** What [get_statistics] reports on a working database. *)
Lemma sqlite_statistics (store : SQLite.SQLiteStorage) w :
  fault (db w) = None ->
  exists st,
    SQLite.get_statistics store w = (Ok (Some st), w) /\
    Stats.total_results st = length (scan_results (db w)) /\
    Stats.unique_hosts st = length (remove_dups (map r_ip (scan_results (db w)))) /\
    Stats.total_scans st
    = length (filter (fun s => s_status s = "completed") (scan_sessions (db w))) /\
    length (Stats.popular_ports st) <= 10.
Proof.
  intros Hfault.
  unfold SQLite.get_statistics, SQLite._get_connection, try_except, SQLite.execute.
  unfold mbind, M_bind. rewrite Hfault. simpl. rewrite Hfault. simpl.
  eexists. split; [destruct w as [c u p fs d j t]; destruct d; reflexivity|]. simpl.
  split; [reflexivity|]. split; [apply count_distinct_remove_dups|].
  split; [reflexivity|]. apply List.firstn_le_length.
Qed.

(** What [get_statistics] reports on the JSON file: [total_scans] is the
    number of all stored sessions, whatever their status. *)
Lemma json_statistics (store : JSON.JSONStorage) w :
  is_document w ->
  exists st,
    JSON.get_statistics store w = (Ok (Some st), w) /\
    Stats.total_results st = length (doc_results (document w)) /\
    Stats.unique_hosts st = length (remove_dups (map rd_ip (doc_results (document w)))) /\
    Stats.total_scans st = length (doc_sessions (document w)) /\
    length (Stats.popular_ports st) <= 10.
Proof.
  unfold is_document, JSON.get_statistics, JSON._load_data, document.
  unfold mbind, M_bind. intros Hdoc.
  destruct (content (json w)) as [data| |g]; [| |now elim Hdoc];
    simpl; eexists; (split; [reflexivity|]); simpl;
    (split; [reflexivity|]); (split; [apply count_distinct_remove_dups|]);
    (split; [reflexivity|]); first [apply List.firstn_le_length | simpl; lia].
Qed.

End StoreFacts.

(** *** The scenarios of the specification, evaluated *)

Section Scenarios.
Import Models World Disk Env Observe Scenario.

(** Scenario B: after the second session the statistics of both backends
    still count two results. *)
Lemma statistics_after_second_session :
  fst (SQLite.get_statistics the_database
         (snd (SQLite.save_scan_session the_database quiet second_session seen_in_database)))
  = Ok (Some (Stats.mkStatistics 2 1 2 [(80%Z, 1); (22%Z, 1)])) /\
  fst (JSON.get_statistics the_document
         (snd (JSON.save_scan_session the_document quiet second_session seen_in_document)))
  = Ok (Some (Stats.mkStatistics 2 1 2 [(22%Z, 1); (80%Z, 1)])).
Proof. split; vm_compute; reflexivity. Qed.

(** Scenario C: the scan engine exits with code 1; the session fails with
    the text of the error, holds no result, and nothing was probed. *)
Lemma engine_exit_code_fails_session :
  let out := Scanner.scan_async the_scanner engine_fails ["10.0.0.1"] [22%Z] true
                                initial_world in
  (exists session,
      fst out = Ok session /\
      status session = FAILED /\
      errors session = ["Masscan failed: permission denied"] /\
      results session = [] /\
      end_time session = Some 1) /\
  connections (trace (snd out)) = [].
Proof.
  vm_compute. split; [|reflexivity].
  eexists. repeat split.
Qed.

(** Scenario E: the probe of a reported port runs into the timeout; the
    result is still in the session, without a banner and with the service
    of the port table. *)
Lemma probe_timeout_keeps_result :
  exists session,
    fst (Scanner.scan_async the_scanner rescan ["10.0.0.1"] [22%Z] true initial_world)
    = Ok session /\
    status session = COMPLETED /\
    map (fun r => (ip r, port r, service r, banner r)) (results session)
    = [("10.0.0.1", 22%Z, Some "SSH", None)].
Proof. vm_compute. eexists. repeat split. Qed.

(** With the JSON backend a port that was seen before is announced again:
    the run counts it as new and calls both channels. *)
Lemma json_backend_notifies_again :
  option_map new_results
             (fst (snd (Main.run_scan_body app_with_document rescan (None, seen_in_document))))
  = Some 1 /\
  length (sends (trace (snd (Main.run_scan app_with_document rescan seen_in_document)))) = 2.
Proof. split; vm_compute; reflexivity. Qed.

End Scenarios.

(** *** What the matcher finds *)

Section Matching.
Import Re Observe.
Variable ignorecase : bool.

Lemma many1_sound {R} cls (s : string) cap (k : string -> option string -> option R) x :
  many1 ignorecase cls s cap k = Some x ->
  exists t s', s = t +:+ s' /\ t <> "" /\
               all_chars (class_matches ignorecase cls) t = true /\
               k s' cap = Some x.
Proof.
  induction s as [|a s IH]; simpl; [discriminate|].
  destruct (class_matches ignorecase cls a) eqn:Ha; [|discriminate].
  destruct (many1 ignorecase cls s cap k) as [y|] eqn:Hm.
  - intros [= ->]. destruct (IH eq_refl) as (t & s' & -> & _ & Hall & Hk).
    exists (String a t), s'. rewrite append_cons. simpl. rewrite Ha.
    repeat split; auto; discriminate.
  - intros Hk. exists (String a ""), s. simpl. rewrite Ha.
    repeat split; auto; discriminate.
Qed.

(** Whatever the matcher finds is in the language of the pattern. *)
Lemma run_sound {R} (r : regex) :
  forall (s : string) cap (k : string -> option string -> option R) x,
    run ignorecase r s cap k = Some x ->
    exists t s' cap', s = t +:+ s' /\ accepts ignorecase r t /\ k s' cap' = Some x.
Proof.
  induction r as [|cls|r1 IH1 r2 IH2|r1 IH1|cls|r1 IH1]; intros s cap k x; simpl.
  - intros Hk. exists "", s, cap. auto.
  - destruct s as [|a s]; [discriminate|].
    destruct (class_matches ignorecase cls a) eqn:Ha; [|discriminate].
    intros Hk. exists (String a ""), s, cap. repeat split; eauto.
  - intros H1. apply IH1 in H1 as (t1 & s1 & cap1 & -> & Ht1 & H2).
    apply IH2 in H2 as (t2 & s2 & cap2 & -> & Ht2 & Hk).
    exists (t1 +:+ t2), s2, cap2. rewrite append_assoc. repeat split; eauto.
  - destruct (run ignorecase r1 s cap k) as [y|] eqn:H1.
    + intros [= ->]. apply IH1 in H1 as (t & s' & cap' & -> & Ht & Hk).
      exists t, s', cap'. auto.
    + intros Hk. exists "", s, cap. auto.
  - intros Hm. apply many1_sound in Hm as (t & s' & -> & Hne & Hall & Hk).
    exists t, s', cap. auto.
  - intros H1. apply IH1 in H1 as (t & s' & cap' & -> & Ht & Hk).
    eexists t, s', _. eauto.
Qed.

Lemma many1_complete {R} cls (t s' : string) cap (k : string -> option string -> option R) :
  t <> "" ->
  all_chars (class_matches ignorecase cls) t = true ->
  k s' cap <> None ->
  many1 ignorecase cls (t +:+ s') cap k <> None.
Proof.
  induction t as [|a t IH]; [congruence|]. intros _ Hall Hk.
  simpl in Hall. apply andb_true_iff in Hall as [Ha Hall].
  rewrite append_cons. simpl. rewrite Ha.
  destruct t as [|b t].
  - rewrite append_nil. now destruct (many1 ignorecase cls s' cap k).
  - specialize (IH ltac:(discriminate) Hall Hk).
    now destruct (many1 ignorecase cls (String b t +:+ s') cap k).
Qed.

(** Whatever is in the language of the pattern, the matcher finds a match
    (possibly another one) when the rest of the subject is acceptable. *)
Lemma run_complete {R} (r : regex) :
  forall (t s' : string) cap (k : string -> option string -> option R),
    accepts ignorecase r t ->
    (forall cap', k s' cap' <> None) ->
    run ignorecase r (t +:+ s') cap k <> None.
Proof.
  induction r as [|cls|r1 IH1 r2 IH2|r1 IH1|cls|r1 IH1]; intros t s' cap k; simpl.
  - intros -> Hk. apply Hk.
  - intros (a & -> & Ha) Hk. rewrite append_cons, append_nil, Ha. apply Hk.
  - intros (t1 & t2 & -> & Ht1 & Ht2) Hk. rewrite append_assoc.
    apply IH1; [exact Ht1|]. intros cap'. now apply IH2.
  - intros [->|Ht] Hk.
    + rewrite append_nil. destruct (run ignorecase r1 s' cap k); [discriminate | apply Hk].
    + specialize (IH1 t s' cap k Ht Hk).
      now destruct (run ignorecase r1 (t +:+ s') cap k).
  - intros [Hne Hall] Hk. now apply many1_complete.
  - intros Ht Hk. apply IH1; [exact Ht|]. intros cap'. apply Hk.
Qed.

Lemma match_here_sound r s m :
  match_here r s ignorecase = Some m ->
  exists t s', s = t +:+ s' /\ accepts ignorecase r t.
Proof.
  unfold match_here. intros H.
  apply run_sound in H as (t & s' & cap' & -> & Ht & _). eauto.
Qed.

Lemma match_here_complete r t s' :
  accepts ignorecase r t -> match_here r (t +:+ s') ignorecase <> None.
Proof. intros Ht. unfold match_here. now apply run_complete. Qed.

(** [search] finds a match exactly when the pattern occurs in the
    subject. *)
Lemma search_occurs r s :
  search r s ignorecase <> None <-> occurs ignorecase r s.
Proof.
  split.
  - induction s as [|a s IH]; simpl.
    + destruct (match_here r "" ignorecase) as [m|] eqn:Hm; [|congruence].
      intros _. apply match_here_sound in Hm as (t & s' & Hs & Ht).
      exists "", t, s'. auto.
    + destruct (match_here r (String a s) ignorecase) as [m|] eqn:Hm.
      * intros _. apply match_here_sound in Hm as (t & s' & Hs & Ht).
        exists "", t, s'. auto.
      * intros Hs. destruct (IH Hs) as (pre & t & post & -> & Ht).
        exists (String a pre), t, post. auto.
  - intros (pre & t & post & -> & Ht). induction pre as [|a pre IH].
    + rewrite append_nil. pose proof (match_here_complete r t post Ht) as Hm.
      destruct (t +:+ post); simpl;
        destruct (match_here r _ ignorecase); congruence.
    + rewrite append_cons. simpl.
      destruct (match_here r _ ignorecase); [discriminate | exact IH].
Qed.

Lemma search_none r s :
  search r s ignorecase = None <-> ~ occurs ignorecase r s.
Proof.
  rewrite <- search_occurs. destruct (search r s ignorecase); split; try congruence.
  intros H. exfalso. apply H. discriminate.
Qed.

End Matching.

(** *** Entries of the pattern table that never decide *)

Section ShadowedPatterns.
Import Re BannerAnalyzer Observe.

(** A pattern followed by something optional occurs wherever the pattern
    followed by anything else does. *)
Lemma occurs_seq_optional r1 r2 r3 s :
  accepts true r3 "" -> occurs true (Seq r1 r2) s -> occurs true (Seq r1 r3) s.
Proof.
  intros H3 (pre & t & post & -> & t1 & t2 & -> & Ht1 & _).
  exists pre, (t1 +:+ ""), (t2 +:+ post). split.
  - now rewrite append_empty_r, append_assoc.
  - exists t1, "". auto.
Qed.

Lemma occurs_alone_optional r1 r3 s :
  accepts true r3 "" -> occurs true r1 s -> occurs true (Seq r1 r3) s.
Proof.
  intros H3 (pre & t & post & -> & Ht).
  exists pre, (t +:+ ""), post. split.
  - now rewrite append_empty_r.
  - exists t, "". auto.
Qed.

(** An entry that is found only where an earlier entry is found can be
    taken out of the table. *)
Lemma try_patterns_drop l1 e0 l2 e l3 s :
  (search (fst e) s true <> None -> search (fst e0) s true <> None) ->
  try_patterns (l1 ++ e0 :: l2 ++ e :: l3) s = try_patterns (l1 ++ e0 :: l2 ++ l3) s.
Proof.
  intros Hsub. induction l1 as [|[p [n t]] l1 IH]; simpl.
  - destruct e0 as [p0 [n0 t0]]. simpl in *.
    destruct (search p0 s true) as [m|] eqn:H0; [reflexivity|].
    assert (He : search (fst e) s true = None).
    { destruct (search (fst e) s true); [|reflexivity]. exfalso. now apply Hsub. }
    clear Hsub H0. induction l2 as [|[p2 [n2 t2]] l2 IH2]; simpl.
    + destruct e as [p1 [n1 t1]]. simpl in He. now rewrite He.
    + destruct (search p2 s true); [reflexivity | exact IH2].
  - destruct (search p s true); [reflexivity | exact IH].
Qed.

Lemma second_nginx_shadowed s :
  search (lit "nginx") s true <> None ->
  search (Seq (lit "nginx") opt_slash_triple) s true <> None.
Proof.
  rewrite !search_occurs. apply occurs_alone_optional. now left.
Qed.

Lemma apache_http_shadowed s :
  search (seqs [lit "Apache"; sep; lit "HTTP"]) s true <> None ->
  search (Seq (lit "Apache") opt_slash_triple) s true <> None.
Proof.
  rewrite !search_occurs. apply occurs_seq_optional. now left.
Qed.

(** X1.  Two entries of [PATTERNS] never decide a classification: the
    second [nginx] entry (type [reverse_proxy]) and [Apache[_\-]HTTP] are
    found only in banners in which the first two entries of the table are
    found, so [analyze] gives the same answer for every banner when the
    two are taken out. *)
Theorem analyze_ignores_shadowed_entries (banner : string) :
  analyze banner = analyze_with live_patterns banner.
Proof.
  unfold analyze, analyze_with. destruct (Py.is_empty banner); [reflexivity|].
  set (s := Py.strip banner).
  enough (Ht : try_patterns PATTERNS s = try_patterns live_patterns s) by now rewrite Ht.
  set (nginx2 := (lit "nginx", ("Nginx", "reverse_proxy"))).
  set (apache2 := (seqs [lit "Apache"; sep; lit "HTTP"], ("Apache", "web_server"))).
  transitivity (try_patterns (firstn 37 PATTERNS ++ skipn 38 PATTERNS) s).
  - change PATTERNS
      with ([] ++ (Seq (lit "Apache") opt_slash_triple, ("Apache", "web_server"))
               :: firstn 36 (skipn 1 PATTERNS) ++ apache2 :: skipn 38 PATTERNS) at 1.
    rewrite try_patterns_drop by apply apache_http_shadowed. reflexivity.
  - change (firstn 37 PATTERNS ++ skipn 38 PATTERNS)
      with (firstn 1 PATTERNS
              ++ (Seq (lit "nginx") opt_slash_triple, ("Nginx", "web_server"))
              :: firstn 34 (skipn 2 PATTERNS) ++ nginx2 :: skipn 38 PATTERNS).
    rewrite try_patterns_drop by apply second_nginx_shadowed. reflexivity.
Qed.

End ShadowedPatterns.

(** *** Vulnerable versions and version numbers *)

Section BannerFacts.
Import Re BannerAnalyzer Observe.

Lemma space_isspace (a : ascii) : class_matches true space a = Py.isspace a.
Proof. destruct a as [[] [] [] [] [] [] [] []]; reflexivity. Qed.

Lemma any_char_app f (a b : string) :
  any_char f (a +:+ b) = any_char f a || any_char f b.
Proof.
  induction a as [|x a IH]; [reflexivity|].
  rewrite append_cons. simpl. now rewrite IH, orb_assoc.
Qed.

Lemma many1_space_any t :
  accepts true (Many1 space) t -> any_char Py.isspace t = true.
Proof.
  intros [Hne Hall]. destruct t as [|a t]; [congruence|].
  change (class_matches true space a && all_chars (class_matches true space) t = true)
    in Hall.
  apply andb_true_iff in Hall as [Ha _]. rewrite space_isspace in Ha.
  simpl. now rewrite Ha.
Qed.

Lemma vulnerable_patterns_shape :
  Forall (fun p => exists r1 r3, p = Seq r1 (Seq (Many1 space) r3)) vulnerable_patterns.
Proof. repeat constructor; eexists _, _; reflexivity. Qed.

(** X2.  [is_vulnerable] flags a banner only if it holds a white-space
    character: each of its patterns asks for white space between the
    product name and the version.  A banner that writes the version after
    [/] or [_], as in [Apache/2.2.3] or [OpenSSH_5.1], is never flagged. *)
Theorem is_vulnerable_needs_white_space (banner : string) :
  is_vulnerable banner = true -> any_char Py.isspace banner = true.
Proof.
  unfold is_vulnerable. rewrite existsb_exists. intros (p & Hin & Hp).
  assert (Hocc : occurs true p banner).
  { apply search_occurs. destruct (search p banner true); congruence. }
  pose proof vulnerable_patterns_shape as Hshape.
  rewrite List.Forall_forall in Hshape. destruct (Hshape p Hin) as (r1 & r3 & ->).
  destruct Hocc as (pre & t & post & -> & t1 & t2 & -> & _ & t21 & t22 & -> & Hsp & _).
  apply many1_space_any in Hsp.
  rewrite !any_char_app, Hsp. now rewrite !orb_true_r.
Qed.

Lemma is_vulnerable_needs_white_space_witness :
  any_char Py.isspace "Server: Apache 2.2.3" = true.
Proof. apply (is_vulnerable_needs_white_space "Server: Apache 2.2.3"). reflexivity. Defined.

Lemma length_append (a b : string) :
  String.length (a +:+ b) = String.length a + String.length b.
Proof.
  induction a as [|x a IH]; [reflexivity|]. rewrite append_cons. simpl. now rewrite IH.
Qed.

Lemma take_append (a b : string) : Py.take (String.length a) (a +:+ b) = a.
Proof.
  induction a as [|x a IH]; [reflexivity|]. rewrite append_cons. simpl. now rewrite IH.
Qed.

Lemma consumed_append (t s' : string) : consumed (t +:+ s') s' = t.
Proof.
  unfold consumed. rewrite length_append.
  replace (String.length t + String.length s' - String.length s') with (String.length t) by lia.
  apply take_append.
Qed.

(** The text captured by a pattern that is one capturing group. *)
Lemma match_here_group ic r s m :
  match_here (Group r) s ic = Some m ->
  exists t s', s = t +:+ s' /\ accepts ic r t /\ groups m = [Some t].
Proof.
  unfold match_here. simpl. intros H.
  apply run_sound in H as (t & s' & cap' & -> & Ht & [= <-]).
  exists t, s'. simpl. now rewrite consumed_append.
Qed.

Lemma search_group ic r s m :
  search (Group r) s ic = Some m ->
  exists pre t post, s = pre +:+ t +:+ post /\ accepts ic r t /\ groups m = [Some t].
Proof.
  induction s as [|a s IH]; simpl.
  - destruct (match_here (Group r) "" ic) as [m'|] eqn:Hm; [|discriminate].
    intros [= <-]. apply match_here_group in Hm as (t & s' & Hs & Ht & Hg).
    exists "", t, s'. auto.
  - destruct (match_here (Group r) (String a s) ic) as [m'|] eqn:Hm.
    + intros [= <-]. apply match_here_group in Hm as (t & s' & Hs & Ht & Hg).
      exists "", t, s'. auto.
    + intros Hs. destruct (IH Hs) as (pre & t & post & -> & Ht & Hg).
      exists (String a pre), t, post. auto.
Qed.

(** X3.  A version returned by [extract_version] is a piece of the banner
    that starts with a digit and holds a dot. *)
Theorem extract_version_shape (banner v : string) :
  extract_version banner = Some v ->
  (exists pre post, banner = pre +:+ v +:+ post) /\
  (exists a rest, v = String a rest /\ Py.isdigit a = true) /\
  any_char (Ascii.eqb ".") v = true.
Proof.
  unfold extract_version, version_pattern.
  destruct (search _ banner false) as [m|] eqn:Hs; [|discriminate].
  apply search_group in Hs as (pre & t & post & -> & Ht & Hg).
  unfold group1. rewrite Hg. intros [= <-].
  split; [eauto|].
  destruct Ht as (d1 & rest & -> & [Hne Hd1] & (d & rest' & -> & (a & -> & Ha) & _)).
  split.
  - destruct d1 as [|x d1]; [congruence|]. simpl in Hd1.
    apply andb_true_iff in Hd1 as [Hx _].
    exists x, (d1 +:+ String a "" +:+ rest'). split; [reflexivity|].
    simpl in Hx. now rewrite orb_false_r in Hx.
  - rewrite !any_char_app. simpl in Ha. rewrite orb_false_r in Ha.
    apply Ascii.eqb_eq in Ha. subst a. simpl. now rewrite orb_true_r.
Qed.

Lemma extract_version_shape_witness :
  (exists pre post, "SSH-2.0-OpenSSH_8.2p1" = pre +:+ "2.0" +:+ post) /\
  (exists a rest, "2.0" = String a rest /\ Py.isdigit a = true) /\
  any_char (Ascii.eqb ".") "2.0" = true.
Proof. apply (extract_version_shape "SSH-2.0-OpenSSH_8.2p1" "2.0"). reflexivity. Defined.

End BannerFacts.

(** *** The output file of the scan engine *)

Section ParseOutput.
Import Models World Env Observe Scanner.

Lemma later_refl w : later w w.
Proof. unfold later. now destruct w. Qed.

Lemma later_trans w1 w2 w3 : later w1 w2 -> later w2 w3 -> later w1 w3.
Proof. unfold later. intros -> ->. reflexivity. Qed.

Lemma later_tick w : later w (set_clock (S (clock w)) w).
Proof. reflexivity. Qed.

(** The loop over the ports of one host entry. *)
Lemma ports_loop ip (body : option Z -> M (list ScanResult * world) unit) ports :
  (forall port_data,
      body port_data
      = (port ← match port_data with
                | Some p => mret p
                | None => raise (mkExn OtherException "port")
                end;
         let service := Utils.get_service_name port "" in
         t ← zoom now;
         if valid_port port
         then assign (fun results =>
                        results ++ [mkScanResult ip port (Some service) None true t None])
         else raise (mkExn OtherException "validation error"))) ->
  forall acc w,
  exists out new w',
    for_each ports body (acc, w) = (out, (acc ++ new, w')) /\
    (if snd (port_pairs ip ports) then out = Ok tt else exists e, out = Raise e) /\
    map result_key new = fst (port_pairs ip ports) /\
    Forall fresh_result new /\
    later w w'.
Proof.
  intros Hbody. induction ports as [|[p|] ports IH]; intros acc w; simpl.
  - exists (Ok tt), [], w. rewrite app_nil_r.
    repeat split; auto using later_refl.
  - unfold mbind at 1, M_bind at 1. rewrite Hbody.
    unfold mbind, M_bind, mret, M_ret, zoom, now, assign, raise. simpl.
    destruct (valid_port p) eqn:Hp; simpl.
    + set (r := mkScanResult ip p _ None true (clock w) None).
      destruct (IH (acc ++ [r]) (set_clock (S (clock w)) w))
        as (out & new & w' & Hrun & Hout & Hkeys & Hfresh & Hlater).
      exists out, (r :: new), w'.
      split; [rewrite Hrun; now rewrite <- app_assoc|].
      split; [exact Hout|]. split; [simpl; now rewrite Hkeys|].
      split; [constructor; [now repeat split | exact Hfresh]|].
      eapply later_trans; [apply later_tick | exact Hlater].
    + exists (Raise (mkExn OtherException "validation error")), [],
        (set_clock (S (clock w)) w).
      rewrite app_nil_r. repeat split; eauto using later_tick.
  - unfold mbind at 1, M_bind at 1. rewrite Hbody.
    unfold mbind, M_bind, raise. simpl.
    exists (Raise (mkExn OtherException "port")), [], w.
    rewrite app_nil_r. repeat split; eauto using later_refl.
Qed.

Lemma parse_host_run h acc w :
  exists out new w',
    parse_host h (acc, w) = (out, (acc ++ new, w')) /\
    (if snd (host_pairs h) then out = Ok tt else exists e, out = Raise e) /\
    map result_key new = fst (host_pairs h) /\
    Forall fresh_result new /\
    later w w'.
Proof.
  unfold parse_host, host_pairs. destruct (addr h) as [ip|].
  - unfold mbind at 1, M_bind at 1. simpl.
    apply ports_loop. intros port_data. reflexivity.
  - exists (Raise (mkExn OtherException "addr")), [], w.
    rewrite app_nil_r. simpl. repeat split; eauto using later_refl.
Qed.

(** The loop over the host entries of one line. *)
Lemma hosts_loop hosts :
  forall acc w,
  exists out new w',
    for_each hosts parse_host (acc, w) = (out, (acc ++ new, w')) /\
    map result_key new = fst (hosts_pairs hosts) /\
    Forall fresh_result new /\
    later w w'.
Proof.
  induction hosts as [|h hosts IH]; intros acc w; simpl.
  - exists (Ok tt), [], w. rewrite app_nil_r. repeat split; auto using later_refl.
  - destruct (parse_host_run h acc w) as (out & new & w1 & Hrun & Hout & Hkeys & Hfresh & Hl).
    unfold mbind, M_bind. rewrite Hrun.
    destruct (snd (host_pairs h)).
    + subst out. destruct (IH (acc ++ new) w1)
        as (out' & new' & w2 & Hrun' & Hkeys' & Hfresh' & Hl').
      exists out', (new ++ new'), w2. rewrite Hrun', app_assoc.
      split; [reflexivity|]. split; [now rewrite map_app, Hkeys, Hkeys'|].
      split; [now apply Forall_app | eapply later_trans; eassumption].
    + destruct Hout as [e ->]. exists (Raise e), new, w1. auto.
Qed.

Lemma parse_line_run line acc w :
  exists new w',
    parse_line line (acc, w) = (Ok tt, (acc ++ new, w')) /\
    map result_key new = line_pairs line /\
    Forall fresh_result new /\
    later w w'.
Proof.
  destruct line as [| |hosts]; simpl.
  - exists [], w. rewrite app_nil_r. repeat split; auto using later_refl.
  - exists [], w. rewrite app_nil_r. repeat split; auto using later_refl.
  - destruct (hosts_loop hosts acc w) as (out & new & w' & Hrun & Hkeys & Hfresh & Hl).
    exists new, w'. unfold try_except. rewrite Hrun.
    split; [now destruct out as [[]|e] | auto].
Qed.

(** The loop over the lines of the file. *)
Lemma lines_loop lines :
  forall acc w,
  exists new w',
    for_each lines parse_line (acc, w) = (Ok tt, (acc ++ new, w')) /\
    map result_key new = reported lines /\
    Forall fresh_result new /\
    later w w'.
Proof.
  induction lines as [|line lines IH]; intros acc w; simpl.
  - exists [], w. rewrite app_nil_r. repeat split; auto using later_refl.
  - destruct (parse_line_run line acc w) as (new & w1 & Hrun & Hkeys & Hfresh & Hl).
    unfold mbind, M_bind. rewrite Hrun.
    destruct (IH (acc ++ new) w1) as (new' & w2 & Hrun' & Hkeys' & Hfresh' & Hl').
    exists (new ++ new'), w2. rewrite Hrun', app_assoc.
    split; [reflexivity|]. split; [unfold reported in *; now rewrite map_app, Hkeys, Hkeys'|].
    split; [now apply Forall_app | eapply later_trans; eassumption].
Qed.

Lemma parse_masscan_output_run path w :
  exists rs w',
    _parse_masscan_output path w = (Ok rs, w') /\
    map result_key rs = reported (default [] (files w !! path)) /\
    Forall fresh_result rs /\
    later w w'.
Proof.
  unfold _parse_masscan_output, with_local, try_except, zoom, get, local.
  unfold mbind, M_bind. simpl.
  destruct (files w !! path) as [lines|]; simpl.
  - destruct (lines_loop lines [] w) as (new & w' & Hrun & Hkeys & Hfresh & Hl).
    rewrite Hrun. simpl. eauto 10.
  - exists [], w. repeat split; auto using later_refl.
Qed.

(** X4.  [_parse_masscan_output] never raises, and it reads each line of
    the output file on its own: the results are, in order, the (host,
    port) pairs of every line up to the first host or port of that line
    that cannot be read or is out of range; blank and malformed lines
    contribute nothing, and a missing file gives the empty list.  Every
    result carries the service of the port table, no banner and
    [is_new = True].  Nothing but the clock is touched. *)
Theorem parse_masscan_output_reports (path : string) (w : world) :
  exists rs w',
    _parse_masscan_output path w = (Ok rs, w') /\
    map result_key rs = reported (default [] (files w !! path)) /\
    Forall fresh_result rs /\
    later w w'.
Proof. apply parse_masscan_output_run. Qed.

End ParseOutput.

(** *** What the scanner leaves alone *)

Section ScannerFrame.
Import Models World Env Observe Scanner.
Context {O : Type} (obs : world -> O).
Hypothesis obs_clock : forall v w, obs (set_clock v w) = obs w.
Hypothesis obs_uuid_count : forall v w, obs (set_uuid_count v w) = obs w.
Hypothesis obs_proc : forall v w, obs (set_proc v w) = obs w.
Hypothesis obs_files : forall v w, obs (set_files v w) = obs w.
Hypothesis obs_trace : forall v w, obs (set_trace v w) = obs w.

Lemma now_frame : preserves obs now.
Proof. intros w. apply obs_clock. Qed.

Lemma uuid4_frame E : preserves obs (uuid4 E).
Proof. intros w. apply obs_uuid_count. Qed.

Lemma emit_frame ev : preserves obs (emit ev).
Proof. intros w. apply obs_trace. Qed.

Lemma parse_masscan_output_frame path : preserves obs (_parse_masscan_output path).
Proof.
  intros w. destruct (parse_masscan_output_run path w) as (rs & w' & Hrun & _ & _ & Hl).
  rewrite Hrun. simpl. rewrite Hl. apply obs_clock.
Qed.

Lemma run_masscan_frame self E targets ports :
  preserves obs (_run_masscan self E targets ports).
Proof.
  unfold _run_masscan.
  apply preserves_bind; [apply uuid4_frame|]. intros u.
  apply preserves_try_finally.
  2: { apply preserves_try_except; [|intros e; apply preserves_ret].
       intros w. unfold unlink. destruct (unlink_error E); [reflexivity | apply obs_files]. }
  apply preserves_try_except; [|intros e; apply preserves_raise].
  apply preserves_bind.
  { intros w. unfold create_subprocess_exec.
    destruct (spawn_error E); [reflexivity|]. simpl. now rewrite obs_proc, obs_trace. }
  intros _. apply preserves_bind.
  { intros w. unfold wait_for_communicate.
    destruct (masscan_written E), (masscan_finished E) as [[rc err]|]; simpl;
      now rewrite ?obs_proc, ?obs_files. }
  intros err. apply preserves_bind; [apply preserves_get|]. intros w.
  destruct (bool_decide _); [apply preserves_raise | apply parse_masscan_output_frame].
Qed.

Lemma get_banner_for_port_frame E r : preserves obs (_get_banner_for_port E r).
Proof.
  unfold _get_banner_for_port.
  apply preserves_with_local, preserves_bind.
  - apply preserves_try_except; [|intros e; destruct (kind e); apply preserves_ret].
    apply preserves_bind.
    { apply preserves_zoom. unfold open_connection. apply preserves_bind.
      - apply emit_frame.
      - intros _. destruct (on_connect _); [apply preserves_raise | apply preserves_ret]. }
    intros _. apply preserves_bind.
    { apply preserves_zoom. unfold drain.
      destruct (on_drain _); [apply preserves_raise | apply preserves_ret]. }
    intros _. apply preserves_bind.
    { apply preserves_zoom. unfold read.
      destruct (on_read _); [apply preserves_raise | apply preserves_ret]. }
    intros data. apply preserves_bind; [apply preserves_assign|]. intros _.
    apply preserves_bind; [apply preserves_local|]. intros r'.
    apply preserves_bind; [apply preserves_assign|]. intros _.
    apply preserves_zoom. unfold wait_closed.
    destruct (on_wait_closed _); [apply preserves_raise | apply preserves_ret].
  - intros _. apply preserves_bind; [apply preserves_local|]. intros r'. apply preserves_ret.
Qed.

Lemma scan_async_frame self E targets ports get_banners :
  preserves obs (scan_async self E targets ports get_banners).
Proof.
  unfold scan_async.
  apply preserves_bind; [apply uuid4_frame|]. intros sid.
  apply preserves_bind; [apply now_frame|]. intros t0.
  apply preserves_with_local, preserves_bind; [|intros _; apply preserves_local].
  apply preserves_try_except.
  - apply preserves_bind; [apply preserves_zoom, run_masscan_frame|]. intros rs.
    apply preserves_bind; [apply preserves_assign|]. intros _.
    apply preserves_bind.
    { destruct (get_banners && _); [|apply preserves_ret].
      apply preserves_bind.
      - apply preserves_zoom. unfold _get_banners_async. apply preserves_bind.
        + apply preserves_gather, Forall_map, Forall_forall.
          intros r _. apply get_banner_for_port_frame.
        + intros out. apply preserves_ret.
      - intros rs'. apply preserves_bind; [apply preserves_assign|]. intros _.
        apply preserves_ret. }
    intros rs'. apply preserves_bind; [apply preserves_assign|]. intros _.
    apply preserves_bind; [apply preserves_assign|]. intros _.
    apply preserves_bind; [apply preserves_zoom, now_frame|]. intros t.
    apply preserves_assign.
  - intros e. apply preserves_bind; [apply preserves_assign|]. intros _.
    apply preserves_bind; [apply preserves_assign|]. intros _.
    apply preserves_bind; [apply preserves_zoom, now_frame|]. intros t.
    apply preserves_assign.
Qed.

End ScannerFrame.

(** *** The bulk scan, the probes and the session *)

Section ScannerFacts.
Import Models World Env Observe Scanner.

(** X5.  What [_run_masscan] leaves of its output file.  When the file
    can be removed, it is gone on every path out of the call (results
    returned, exit code other than zero, timeout, the program could not be
    started).  When removing it fails, the failure is swallowed: the file
    stays, with what the scan engine has written to it.  In both cases no
    other file has been touched, and the call returns or raises as the
    scan engine decides: a failing removal never changes its outcome. *)
Theorem run_masscan_removes_output_file
        (self : MasscanScanner) (E : env) (targets : list string) (ports : list Z)
        (w : world) :
  files (snd (_run_masscan self E targets ports w))
  = match unlink_error E with
    | None => delete (output_file E w) (files w)
    | Some _ =>
        match spawn_error E, masscan_written E with
        | None, Some lines => <[output_file E w := lines]> (files w)
        | _, _ => files w
        end
    end /\
  match masscan_failure E with
  | Some e => fst (_run_masscan self E targets ports w) = Raise e
  | None => exists rs, fst (_run_masscan self E targets ports w) = Ok rs
  end.
Proof.
  split; [|apply run_masscan_outcome].
  unfold _run_masscan, output_file, uuid4, try_finally, try_except,
    create_subprocess_exec, wait_for_communicate, unlink, modify, get, raise.
  unfold mbind, M_bind. simpl.
  destruct (unlink_error E) as [ue|];
    (destruct (spawn_error E) as [e|]; [reflexivity|]);
    destruct (masscan_finished E) as [[rc err]|];
    destruct (masscan_written E) as [lines|]; simpl; unfold returncode; simpl;
    try (destruct (bool_decide (Some rc ≠ Some 0%Z)); simpl);
    try match goal with
        | |- context [_parse_masscan_output ?p ?w0] =>
            destruct (parse_masscan_output_run p w0) as (rs & w3 & -> & _ & _ & ->)
        end;
    simpl; first [reflexivity | apply delete_insert_eq].
Qed.

(** An engine that hangs after writing one record, and an output file
    that cannot be removed: the file stays, and the call raises
    [TimeoutError] all the same. *)
Lemma run_masscan_removes_output_file_witness :
  files (snd (_run_masscan Scenario.the_scanner Scenario.file_stays ["10.0.0.0/24"] [22]%Z
                           initial_world))
  = {[ "/tmp/masscan_output_uuid-0.json"
       := [Record_ [mkHost (Some "10.0.0.1") [Some 22%Z]]] ]} /\
  fst (_run_masscan Scenario.the_scanner Scenario.file_stays ["10.0.0.0/24"] [22]%Z
                    initial_world)
  = Raise (mkExn TimeoutError "").
Proof.
  exact (run_masscan_removes_output_file Scenario.the_scanner Scenario.file_stays
           ["10.0.0.0/24"] [22]%Z initial_world).
Defined.

(** What [_run_masscan] returns: the exception that the environment
    decides, or results as the parser builds them. *)
Lemma run_masscan_run self E targets ports w :
  match masscan_failure E with
  | Some e => fst (_run_masscan self E targets ports w) = Raise e
  | None => exists rs, fst (_run_masscan self E targets ports w) = Ok rs /\
                       Forall fresh_result rs
  end.
Proof.
  unfold masscan_failure, _run_masscan, uuid4, try_finally, try_except,
    create_subprocess_exec, wait_for_communicate, unlink, modify, get, raise.
  unfold mbind, M_bind. simpl.
  destruct (unlink_error E) as [ue|];
    (destruct (spawn_error E) as [e|]; [reflexivity|]);
    destruct (masscan_finished E) as [[rc err]|].
  1, 3: destruct (masscan_written E); simpl; unfold returncode; simpl;
      (destruct (Z.eqb_spec rc 0) as [->|Hrc];
       [ rewrite bool_decide_eq_false_2 by (intros H; now apply H);
         match goal with |- context [_parse_masscan_output ?p ?w0] =>
           destruct (parse_masscan_output_run p w0) as (rs & w3 & -> & _ & Hfresh & _)
         end; simpl; eauto
       | rewrite bool_decide_eq_true_2 by congruence; reflexivity ]).
  all: destruct (masscan_written E); reflexivity.
Qed.

(** One probe: it always returns its result, for the same host and port,
    and the only thing the world keeps of it is the connection attempt. *)
Lemma get_banner_for_port_run E r w :
  exists r',
    _get_banner_for_port E r w
    = (Ok (Some r'), set_trace (trace w ++ [probe_event r]) w) /\
    result_key r' = result_key r /\
    (serviced r -> serviced r').
Proof.
  unfold _get_banner_for_port, with_local, try_except, zoom, assign, local,
    open_connection, drain, read, wait_closed, emit, modify, raise, probe_event.
  unfold mbind, M_bind, mret, M_ret. simpl.
  destruct (net E (ip r) (port r)) as [c d rd cl]. simpl.
  destruct c as [e|]; simpl; [destruct (kind e); eauto|].
  destruct d as [e|]; simpl; [destruct (kind e); eauto|].
  destruct rd as [e|data]; simpl; [destruct (kind e); eauto|].
  destruct cl as [e|]; simpl; [destruct (kind e)|];
    (eexists; split; [reflexivity|]; split; [reflexivity|]; intros _; now eexists).
Qed.

Lemma gather_probes_run E results :
  forall w,
  exists out,
    gather (map (_get_banner_for_port E) results) w
    = (Ok (map (fun r' => Ok (Some r')) out),
       set_trace (trace w ++ map probe_event results) w) /\
    map result_key out = map result_key results /\
    (Forall serviced results -> Forall serviced out).
Proof.
  induction results as [|r results IH]; intros w; simpl.
  - exists []. rewrite app_nil_r. split; [now destruct w | auto].
  - destruct (get_banner_for_port_run E r w) as (r' & Hr & Hkey & Hserv).
    rewrite Hr. destruct (IH (set_trace (trace w ++ [probe_event r]) w))
      as (out & Hg & Hkeys & Hservs).
    rewrite Hg. exists (r' :: out). simpl. rewrite <- app_assoc. simpl.
    split; [reflexivity|]. split; [now rewrite Hkey, Hkeys|].
    intros Hall. apply Forall_cons in Hall as [H1 H2]. constructor; auto.
Qed.

Lemma get_banners_async_run E results w :
  exists out,
    _get_banners_async E results w
    = (Ok out, set_trace (trace w ++ map probe_event results) w) /\
    map result_key out = map result_key results /\
    (Forall serviced results -> Forall serviced out).
Proof.
  destruct (gather_probes_run E results w) as (out & Hg & Hkeys & Hserv).
  exists out. split; [|auto].
  unfold _get_banners_async. unfold mbind, M_bind. rewrite Hg.
  unfold mret, M_ret. now rewrite keep_results_all.
Qed.

(** X6.  The probing step opens exactly one connection per result, in the
    order of the list and whatever happens to the earlier probes; it
    never raises, returns the results for the same hosts and ports, and
    changes nothing else in the world. *)
Theorem get_banners_async_probes_each_once
        (E : env) (results : list ScanResult) (w : world) :
  exists out,
    _get_banners_async E results w
    = (Ok out, set_trace (trace w ++ map probe_event results) w) /\
    map result_key out = map result_key results.
Proof.
  destruct (get_banners_async_run E results w) as (out & Hrun & Hkeys & _). eauto.
Qed.

Lemma fresh_serviced rs : Forall fresh_result rs -> Forall serviced rs.
Proof.
  intros H. eapply Forall_impl; [exact H|].
  intros r (_ & Hs & _). unfold serviced. rewrite Hs. now eexists.
Qed.

(** What [scan_async] hands back. *)
Lemma scan_async_run self E targets ports get_banners w :
  exists session w',
    scan_async self E targets ports get_banners w = (Ok session, w') /\
    id session = uuid4_at E (uuid_count w) /\
    start_time session = clock w /\
    Models.targets session = targets /\
    is_Some (end_time session) /\
    new_results session = 0 /\
    match masscan_failure E with
    | Some e =>
        status session = FAILED /\ results session = [] /\
        errors session = [str_exn e] /\ Models.total_results session = 0
    | None =>
        status session = COMPLETED /\ errors session = [] /\
        Models.total_results session = length (results session) /\
        Forall serviced (results session)
    end.
Proof.
  unfold scan_async, uuid4, now. unfold mbind at 1 2, M_bind at 1 2. simpl.
  set (w0 := set_clock _ _).
  pose proof (run_masscan_run self E targets ports w0) as Hrun.
  unfold with_local, try_except, zoom, assign, local.
  unfold mbind, M_bind. simpl.
  destruct (masscan_failure E) as [e|].
  - destruct (_run_masscan self E targets ports w0) as [r w1]. simpl in Hrun. subst r.
    simpl. eexists _, _. split; [reflexivity|]. simpl. repeat split; eauto.
  - destruct Hrun as (rs & Hrs & Hfresh). apply fresh_serviced in Hfresh.
    destruct (_run_masscan self E targets ports w0) as [r w1]. simpl in Hrs. subst r.
    simpl. destruct (get_banners && negb (bool_decide (rs = []))); simpl.
    + destruct (get_banners_async_run E rs w1) as (out & Hout & _ & Hserv).
      rewrite Hout. simpl. eexists _, _. split; [reflexivity|]. simpl.
      repeat split; eauto.
    + eexists _, _. split; [reflexivity|]. simpl. repeat split; eauto.
Qed.

(** X7.  [scan_async] never raises and always hands back a finished
    session: it carries the identifier drawn for the run, the given
    targets and an end time, and it is [COMPLETED], without errors and
    with [total_results] equal to the number of its results, each with a
    service, exactly when the bulk scan did not fail; otherwise it is
    [FAILED], without results and with the text of the failure as its
    only error.  [new_results] is still zero. *)
Theorem scan_async_always_ends
        (self : MasscanScanner) (E : env) (targets : list string) (ports : list Z)
        (get_banners : bool) (w : world) :
  exists session w',
    scan_async self E targets ports get_banners w = (Ok session, w') /\
    id session = uuid4_at E (uuid_count w) /\
    start_time session = clock w /\
    Models.targets session = targets /\
    is_Some (end_time session) /\
    new_results session = 0 /\
    match masscan_failure E with
    | Some e =>
        status session = FAILED /\ results session = [] /\
        errors session = [str_exn e] /\ Models.total_results session = 0
    | None =>
        status session = COMPLETED /\ errors session = [] /\
        Models.total_results session = length (results session) /\
        Forall serviced (results session)
    end.
Proof. apply scan_async_run. Qed.

End ScannerFacts.

(** *** A store that fails *)

Section StoreFailure.
Import Models World Disk Env Observe Storage.

Lemma sqlite_save_fault (store : SQLite.SQLiteStorage) E session w msg :
  fault (db w) = Some (CannotExecute msg) ->
  SQLite.save_scan_session store E session w = (Ok (false, session), w).
Proof.
  intros Hfault.
  unfold SQLite.save_scan_session, SQLite._get_connection, with_local, try_except, zoom,
    SQLite.execute, SQLite.rollback, modify, get, local.
  unfold mbind, M_bind. simpl. rewrite Hfault. simpl. rewrite Hfault. simpl.
  now destruct w.
Qed.

Lemma sqlite_save_unopened (store : SQLite.SQLiteStorage) E session w msg :
  fault (db w) = Some (CannotOpen msg) ->
  SQLite.save_scan_session store E session w = (Raise (mkExn OtherException msg), w).
Proof.
  intros Hfault. unfold SQLite.save_scan_session.
  unfold mbind at 1, M_bind at 1. now rewrite (get_connection_refused store w msg Hfault).
Qed.





Lemma flagged_service stored stored' r r' :
  flagged stored stored' r r' -> service r' = service r.
Proof. intros ([->| ->] & _); reflexivity. Qed.

(** Saving never changes what is wrong with the database. *)
Lemma sqlite_save_keeps_fault (store : SQLite.SQLiteStorage) E session f0 :
  triple (fun w => fault (db w) = f0) (SQLite.save_scan_session store E session)
         (fun w => fault (db w) = f0).
Proof.
  intros w Hw. unfold SQLite.save_scan_session.
  unfold mbind at 1, M_bind at 1.
  destruct (get_connection_cases store w) as [->|[e ->]]; [|exact Hw].
  unfold mbind at 1, M_bind at 1. simpl.
  assert (Hsnap : fault (db w) = f0) by exact Hw.
  remember (db w) as snapshot eqn:Hsn in Hsnap |- *. clear Hsn.
  assert (Hexec : forall A (q : sqlite_db -> result A * sqlite_db),
             (forall d, fault (snd (q d)) = fault d) ->
             triple (fun w => fault (db w) = f0) (SQLite.execute q)
                    (fun w => fault (db w) = f0)).
  { intros A q Hq w' Hw'. unfold SQLite.execute.
    destruct (fault (db w')) eqn:Hf; [simpl; congruence|].
    specialize (Hq (db w')). destruct (q (db w')) as [r d]. simpl in *. congruence. }
  revert w Hw. apply (keeps_with_local (fun w => fault (db w) = f0)), keeps_bind.
  - apply keeps_try_except.
    + apply keeps_bind; [apply keeps_zoom, Hexec; now intros d|]. intros _.
      apply keeps_bind; [|intros _; apply keeps_ret].
      apply keeps_for_each. intros [i r]. unfold SQLite.save_result.
      apply keeps_bind; [apply keeps_zoom; now intros w'|]. intros rid.
      apply keeps_try_except.
      * apply keeps_zoom, Hexec. intros d. unfold SQLite.insert_result.
        now destruct (SQLite.violates _ _).
      * intros e. destruct (kind e); try apply keeps_raise. apply keeps_assign.
    + intros e. apply keeps_bind; [|intros _; apply keeps_ret].
      apply keeps_zoom. intros w' _. exact Hsnap.
  - intros ok. apply keeps_bind; [apply keeps_local|]. intros s. apply keeps_ret.
Qed.

Lemma sqlite_steady (store : SQLite.SQLiteStorage) : steady_storage can_connect store.
Proof.
  intros E session w. simpl.
  pose proof (sqlite_save_keeps_fault store E session (fault (db w)) w eq_refl) as Hkeep.
  unfold can_connect. rewrite Hkeep.
  destruct (fault (db w)) as [[msg|msg]|] eqn:Hfault.
  - rewrite (sqlite_save_unopened store E session w msg Hfault). eauto.
  - rewrite (sqlite_save_fault store E session w msg Hfault). eauto.
  - destruct (sqlite_save_flags store E session w Hfault) as (rs' & w' & -> & Hflags & _).
    exists true, (set_results rs' session). split; [reflexivity|]. simpl.
    split; [|reflexivity].
    induction Hflags as [|r r' rs rs'' Hr _ IH]; [reflexivity|].
    simpl. now rewrite (flagged_service _ _ _ _ Hr), IH.
Qed.

Lemma json_steady (store : JSON.JSONStorage) : steady_storage is_document store.
Proof.
  intros E session w. simpl.
  unfold is_document, JSON.save_scan_session, JSON._load_data, JSON._save_data.
  unfold mbind, M_bind.
  destruct (content (json w)) as [data| |g] eqn:Hc; simpl; [| |eauto];
    destruct (writable (json w)); simpl; rewrite ?Hc; eauto.
Qed.

End StoreFailure.

(** *** What a run reports *)

Section RunOutcome.
Import Models World Disk Env Observe Storage Notify Main.

Lemma notify_all_total (m : NotificationManager) E message w :
  exists n w', notify_all m E message w = (Ok n, w').
Proof.
  unfold notify_all. destruct (bool_decide (notifiers m = [])); [now eexists _, _|].
  destruct (gather_total (map (call_send E message) (notifiers m)) w) as (rs & Hrs & _).
  unfold mbind, M_bind.
  destruct (gather (map (call_send E message) (notifiers m)) w) as [r w'].
  simpl in Hrs. subst r. now eexists _, _.
Qed.

Lemma log_discovery_ok rs (w : world) :
  Forall serviced rs -> for_each rs log_discovery w = (Ok tt, w).
Proof.
  induction 1 as [|r rs [svc Hr] _ IH]; [reflexivity|].
  simpl. unfold mbind, M_bind, log_discovery. now rewrite Hr.
Qed.

Lemma insert_by_port_serviced r rs :
  serviced r -> Forall serviced rs -> Forall serviced (insert_by_port r rs).
Proof.
  intros Hr. induction 1 as [|x rs Hx Hrs IH]; simpl.
  - now repeat constructor.
  - destruct (port r <=? port x)%Z; repeat constructor; auto.
Qed.

Lemma sorted_by_port_serviced rs :
  Forall serviced rs -> Forall serviced (sorted_by_port rs).
Proof.
  induction 1 as [|r rs Hr _ IH]; [constructor|].
  now apply insert_by_port_serviced.
Qed.

Lemma serviced_same_services rs rs' :
  map service rs' = map service rs -> Forall serviced rs -> Forall serviced rs'.
Proof.
  revert rs'. induction rs as [|r rs IH]; intros [|r' rs'] Hmap Hall;
    try discriminate; [constructor|].
  injection Hmap as Hr Hrs. apply Forall_cons in Hall as [H1 H2].
  constructor; [unfold serviced in *; now rewrite Hr | now apply IH].
Qed.

(** The bulk scan fails: the run ends at once. *)
Lemma run_scan_failed {T} `{BaseStorage T} (self : PortScannerApplication T) E w e :
  masscan_failure E = Some e ->
  run_scan self E w
  = (Ok false,
     snd (Scanner.scan_async (scanner self) E (config_targets self) (config_ports self)
                             true (set_clock (S (clock w)) w))).
Proof.
  intros Hfail.
  destruct (scan_async_run (scanner self) E (config_targets self) (config_ports self)
              true (set_clock (S (clock w)) w))
    as (session & w1 & Hscan & _ & _ & _ & _ & _ & Hcase).
  rewrite Hfail in Hcase. destruct Hcase as (Hst & _).
  unfold run_scan, run_scan_body, with_local, try_except, zoom, now, assign.
  unfold mbind, M_bind. simpl. rewrite Hscan. simpl. now rewrite Hst.
Qed.

(** X9.  When the bulk scan fails, [run_scan] returns [False] and the run
    ends there, with any backend: the database and the JSON file are
    exactly as before (the failed session is not stored), and no
    channel's [send] has been called. *)
Theorem run_scan_after_failed_scan {T} `{BaseStorage T}
        (self : PortScannerApplication T) (E : env) (w : world) (e : exn) :
  masscan_failure E = Some e ->
  fst (run_scan self E w) = Ok false /\
  db (snd (run_scan self E w)) = db w /\
  json (snd (run_scan self E w)) = json w /\
  sends (trace (snd (run_scan self E w))) = sends (trace w).
Proof.
  intros Hfail. rewrite (run_scan_failed self E w e Hfail). simpl.
  split; [reflexivity|]. split; [|split].
  - now rewrite (scan_async_frame db).
  - now rewrite (scan_async_frame json).
  - apply (scan_async_preserves is_send); reflexivity.
Qed.

Lemma run_scan_after_failed_scan_witness :
  fst (run_scan Scenario.app_with_database Scenario.engine_fails initial_world) = Ok false /\
  db (snd (run_scan Scenario.app_with_database Scenario.engine_fails initial_world))
  = empty_db /\
  json (snd (run_scan Scenario.app_with_database Scenario.engine_fails initial_world))
  = initial_file /\
  sends (trace (snd (run_scan Scenario.app_with_database Scenario.engine_fails
                              initial_world))) = [].
Proof.
  exact (run_scan_after_failed_scan Scenario.app_with_database Scenario.engine_fails
           initial_world
           (mkExn RuntimeError "Masscan failed: permission denied") eq_refl).
Defined.

(** The bulk scan succeeds: the run goes through to its end when the
    store is ready, and ends with the exception of the first save when it
    is not. *)
Lemma run_scan_completed {T} `{BaseStorage T} (self : PortScannerApplication T) E w
      (ready : world -> bool) :
  steady_storage ready (storage self) ->
  (forall w', ready (snd (Scanner.scan_async (scanner self) E (config_targets self)
                                             (config_ports self) true w')) = ready w') ->
  (forall v w', ready (set_clock v w') = ready w') ->
  masscan_failure E = None ->
  fst (run_scan self E w) = Ok (ready w).
Proof.
  intros Hsteady Hframe Hclock Hfine.
  destruct (scan_async_run (scanner self) E (config_targets self) (config_ports self)
              true (set_clock (S (clock w)) w))
    as (session & w1 & Hscan & _ & _ & _ & _ & _ & Hcase).
  rewrite Hfine in Hcase. destruct Hcase as (Hst & _ & _ & Hserv).
  assert (Hready : ready w1 = ready w).
  { pose proof (Hframe (set_clock (S (clock w)) w)) as Hf.
    rewrite Hscan in Hf. simpl in Hf. now rewrite Hf, Hclock. }
  unfold run_scan, run_scan_body, with_local, try_except, zoom, now, assign.
  unfold mbind, M_bind. simpl. rewrite Hscan. simpl. rewrite Hst. cbn [fst snd].
  pose proof (Hsteady E session w1) as Hsave1. rewrite Hready in Hsave1.
  destruct (ready w).
  2: { destruct Hsave1 as (e & He).
       destruct (save_scan_session (storage self) E session w1) as [r1 w2].
       simpl in He. subst r1. reflexivity. }
  destruct Hsave1 as (ok1 & s1 & Hs1 & Hserv1 & Hready2).
  destruct (save_scan_session (storage self) E session w1) as [r1 w2].
  simpl in Hs1, Hready2. subst r1. cbn [fst snd].
  set (session2 := set_total_results _ _).
  pose proof (Hsteady E session2 w2) as Hsave2. rewrite Hready2 in Hsave2.
  destruct Hsave2 as (ok2 & s3 & Hs3 & Hserv3 & _).
  destruct (save_scan_session (storage self) E session2 w2) as [r3 w3].
  simpl in Hs3. subst r3. cbn [fst snd].
  assert (Hlog : forall w', for_each (take 10 (sorted_by_port (results s3))) log_discovery w'
                            = (Ok tt, w')).
  { intros w'. apply log_discovery_ok, Forall_take, sorted_by_port_serviced.
    apply (serviced_same_services (results session2)); [exact Hserv3|].
    apply (serviced_same_services (results session)); [exact Hserv1 | exact Hserv]. }
  destruct (List.filter is_new (results s1)) as [|r found].
  - unfold mret, M_ret. cbn [fst snd]. now rewrite Hlog.
  - cbn [fst snd].
    match goal with
    | |- context [notify_all ?m ?e ?msg ?w0] =>
        destruct (notify_all_total m e msg w0) as (n & w4 & ->)
    end.
    unfold mret, M_ret. cbn [fst snd]. now rewrite Hlog.
Qed.

(** X10.  With either backend, [run_scan] never raises.  It returns
    [True] exactly when the bulk scan did not fail and the store can be
    opened: the database file can be connected to, the JSON file holds a
    document or cannot be read.  A save that raises, because the database
    cannot be opened or the JSON file holds no document, is caught by
    [run_scan], which then returns [False] although the scan succeeded.
    A save that fails without raising (its result is not looked at) and
    a channel that fails or raises do not turn a run into a failure. *)
Theorem run_scan_reports_the_bulk_scan (E : env) (w : world) :
  (forall self : PortScannerApplication SQLite.SQLiteStorage,
      fst (run_scan self E w)
      = Ok (match masscan_failure E with None => can_connect w | Some _ => false end)) /\
  (forall self : PortScannerApplication JSON.JSONStorage,
      fst (run_scan self E w)
      = Ok (match masscan_failure E with None => is_document w | Some _ => false end)).
Proof.
  split; intros self; destruct (masscan_failure E) as [e|] eqn:Hm.
  - now rewrite (run_scan_failed self E w e Hm).
  - apply (run_scan_completed self E w can_connect);
      [apply sqlite_steady | | reflexivity | exact Hm].
    intros w'. unfold can_connect. now rewrite (scan_async_frame db).
  - now rewrite (run_scan_failed self E w e Hm).
  - apply (run_scan_completed self E w is_document);
      [apply json_steady | | reflexivity | exact Hm].
    intros w'. unfold is_document. now rewrite (scan_async_frame json).
Qed.

End RunOutcome.

(** *** Reading the store *)

Section StoreReads.
Import Models World Disk Env Observe Storage.
Context {S O : Type} (obs : S -> O).

Lemma new_ScanResult_preserves ip port service banner is_new timestamp scan_id :
  preserves obs (new_ScanResult (S := S) ip port service banner is_new timestamp scan_id).
Proof.
  unfold new_ScanResult. destruct (valid_port port);
    [apply preserves_ret | apply preserves_raise].
Qed.

Lemma subscript_preserves data key : preserves obs (JSON.subscript (S := S) data key).
Proof.
  unfold JSON.subscript. destruct data; [apply preserves_ret | apply preserves_raise].
Qed.

Lemma cutoff_date_preserves t day days :
  preserves obs (cutoff_date (S := S) t day days).
Proof.
  unfold cutoff_date. destruct (negb _); [apply preserves_raise|].
  destruct (in_datetime_range _ _); [apply preserves_ret | apply preserves_raise].
Qed.

Lemma new_ScanSession_preserves id status start_time end_time targets total new errors :
  preserves obs (new_ScanSession (S := S) id status start_time end_time targets
                                 total new errors).
Proof.
  unfold new_ScanSession. destruct (status_of_value status);
    [apply preserves_ret | apply preserves_raise].
Qed.

End StoreReads.

Section StoreReadsWorld.
Import Models World Disk Env Observe Storage.

(** A statement that selects leaves the database as it is. *)
Lemma execute_query {A} (q : sqlite_db -> result A * sqlite_db) :
  (forall d, snd (q d) = d) -> preserves (fun w : world => w) (SQLite.execute q).
Proof.
  intros Hq w. unfold SQLite.execute. destruct (fault (db w)); [reflexivity|].
  specialize (Hq (db w)). destruct (q (db w)) as [r d]. simpl in *. subst d.
  now destruct w.
Qed.

Lemma load_data_unchanged : preserves (fun w : world => w) JSON._load_data.
Proof. intros w. unfold JSON._load_data. now destruct (content (json w)). Qed.

Lemma sqlite_get_scan_session_unchanged store scan_id :
  preserves (fun w : world => w) (SQLite.get_scan_session store scan_id).
Proof.
  unfold SQLite.get_scan_session.
  apply preserves_bind; [apply get_connection_preserves|]. intros _.
  apply preserves_try_except; [|intros e; apply preserves_ret].
  apply preserves_bind; [now apply execute_query|]. intros [row|]; [|apply preserves_ret].
  apply preserves_bind; [apply new_ScanSession_preserves|]. intros session.
  apply preserves_bind; [now apply execute_query|]. intros rows.
  apply preserves_with_local, preserves_bind.
  - apply preserves_for_each. intros row'. apply preserves_bind.
    + apply new_ScanResult_preserves.
    + intros r. apply preserves_assign.
  - intros _. apply preserves_bind; [apply preserves_local|]. intros s. apply preserves_ret.
Qed.

Lemma sqlite_get_all_results_unchanged store :
  preserves (fun w : world => w) (SQLite.get_all_results store).
Proof.
  unfold SQLite.get_all_results.
  apply preserves_bind; [apply get_connection_preserves|]. intros _.
  apply preserves_try_except; [|intros e; apply preserves_ret].
  apply preserves_bind; [now apply execute_query|]. intros rows.
  apply preserves_with_local, preserves_bind; [|intros _; apply preserves_local].
  apply preserves_for_each. intros row. apply preserves_bind.
  - apply new_ScanResult_preserves.
  - intros r. apply preserves_assign.
Qed.

Lemma json_get_scan_session_unchanged store scan_id :
  preserves (fun w : world => w) (JSON.get_scan_session store scan_id).
Proof.
  unfold JSON.get_scan_session.
  apply preserves_bind; [apply load_data_unchanged|]. intros loaded.
  apply preserves_bind; [apply subscript_preserves|]. intros data.
  destruct (List.find _ _) as [d|]; [|apply preserves_ret].
  apply preserves_bind; [apply new_ScanSession_preserves|]. intros session.
  apply preserves_with_local, preserves_bind.
  - apply preserves_for_each. intros rd.
    destruct (String.eqb _ _); [|apply preserves_ret]. apply preserves_bind.
    + apply new_ScanResult_preserves.
    + intros r. apply preserves_assign.
  - intros _. apply preserves_bind; [apply preserves_local|]. intros s. apply preserves_ret.
Qed.

Lemma json_get_all_results_unchanged store :
  preserves (fun w : world => w) (JSON.get_all_results store).
Proof.
  unfold JSON.get_all_results.
  apply preserves_bind; [apply load_data_unchanged|]. intros loaded.
  apply preserves_bind; [apply subscript_preserves|]. intros data.
  apply preserves_with_local, preserves_bind; [|intros _; apply preserves_local].
  apply preserves_for_each. intros rd. apply preserves_bind.
  - apply new_ScanResult_preserves.
  - intros r. apply preserves_assign.
Qed.

(** X11.  Reading never changes anything: [get_scan_session],
    [get_all_results], [check_is_new_result] and [get_statistics] of both
    backends leave the world exactly as it was, whether they return or
    raise and whatever state the store is in. *)
Theorem reading_changes_nothing (w : world) (scan_id : string) (result : ScanResult) :
  (forall store : SQLite.SQLiteStorage,
      snd (SQLite.get_scan_session store scan_id w) = w /\
      snd (SQLite.get_all_results store w) = w /\
      snd (SQLite.check_is_new_result store result w) = w /\
      snd (SQLite.get_statistics store w) = w) /\
  (forall store : JSON.JSONStorage,
      snd (JSON.get_scan_session store scan_id w) = w /\
      snd (JSON.get_all_results store w) = w /\
      snd (JSON.check_is_new_result store result w) = w /\
      snd (JSON.get_statistics store w) = w).
Proof.
  split; intros store; repeat split.
  - apply sqlite_get_scan_session_unchanged.
  - apply sqlite_get_all_results_unchanged.
  - revert w. apply (preserves_bind (fun w : world => w));
      [apply get_connection_preserves|]. intros _.
    apply preserves_try_except; [|intros e; apply preserves_ret].
    apply preserves_bind; [now apply execute_query | intros n; apply preserves_ret].
  - revert w. apply (preserves_bind (fun w : world => w));
      [apply get_connection_preserves|]. intros _.
    apply preserves_try_except; [|intros e; apply preserves_ret].
    apply preserves_bind; [now apply execute_query | intros n; apply preserves_ret].
  - apply json_get_scan_session_unchanged.
  - apply json_get_all_results_unchanged.
  - revert w. apply (preserves_bind (fun w : world => w));
      [apply load_data_unchanged|]. intros loaded.
    apply preserves_bind; [apply subscript_preserves | intros d; apply preserves_ret].
  - revert w. apply (preserves_bind (fun w : world => w));
      [apply load_data_unchanged|]. intros loaded.
    apply preserves_bind; [apply subscript_preserves | intros d; apply preserves_ret].
Qed.

End StoreReadsWorld.

(** *** Pruning *)

Section Pruning.
Import Models World Disk Env Observe Storage.

Lemma filter_keys_unique {A} (key : A -> string * Z) (P : A -> Prop)
      `{forall x, Decision (P x)} (l : list A) :
  NoDup (map key l) -> NoDup (map key (filter P l)).
Proof.
  intros Hl. eapply sublist_NoDup; [exact Hl|].
  apply fmap_sublist, sublist_filter.
Qed.

Lemma cutoff_date_same {S} t day days (s : S) : snd (cutoff_date t day days s) = s.
Proof.
  unfold cutoff_date. destruct (negb _); [reflexivity|].
  now destruct (in_datetime_range _ _).
Qed.

Lemma cutoff_date_run {S} t day days (s : S) :
  representable day days (cutoff t day days) ->
  cutoff_date t day days s = (Ok (cutoff t day days), s).
Proof.
  unfold representable, cutoff, cutoff_date, in_timedelta_range, in_datetime_range.
  intros [Hd Hc].
  assert (H1 : (Z.abs days <=? 999999999)%Z = true) by (apply Z.leb_le; lia).
  assert (H2 : ((0 <=? Z.of_nat t - days * Z.of_nat day)
                && (Z.of_nat t - days * Z.of_nat day <? 3652059 * Z.of_nat day))%Z = true).
  { apply andb_true_iff. split; [apply Z.leb_le | apply Z.ltb_lt]; lia. }
  rewrite H1. simpl. now rewrite H2.
Qed.

Lemma cutoff_date_overflow {S} t day days (s : S) :
  ~ representable day days (cutoff t day days) ->
  exists e, cutoff_date t day days s = (Raise e, s).
Proof.
  unfold representable, cutoff, cutoff_date, in_timedelta_range, in_datetime_range.
  intros Hno.
  destruct (Z.leb_spec (Z.abs days) 999999999) as [Hd|Hd]; simpl; [|eauto].
  destruct (Z.leb_spec 0 (Z.of_nat t - days * Z.of_nat day)) as [H0|H0]; simpl; [|eauto].
  destruct (Z.ltb_spec (Z.of_nat t - days * Z.of_nat day) (3652059 * Z.of_nat day))
    as [H1|H1]; simpl; [|eauto].
  exfalso. apply Hno. lia.
Qed.

Lemma sqlite_prune_unique (store : SQLite.SQLiteStorage) day days :
  triple unique_in_database (SQLite.delete_old_results store day days)
         unique_in_database.
Proof.
  intros w Hw. unfold SQLite.delete_old_results.
  unfold mbind at 1, M_bind at 1.
  destruct (get_connection_cases store w) as [->|[e ->]]; [|exact Hw].
  unfold mbind at 1, M_bind at 1. simpl.
  assert (Hsnap : NoDup (map row_key (scan_results (db w)))) by exact Hw.
  remember (db w) as snapshot eqn:Hsn in Hsnap |- *. clear Hsn.
  revert w Hw. apply keeps_try_except.
  - apply keeps_bind; [now intros w'|]. intros t.
    apply keeps_bind; [intros w' Hw'; now rewrite cutoff_date_same|]. intros c.
    apply keeps_bind; [|intros n; apply keeps_ret].
    apply execute_unique. intros d Hd. simpl. now apply filter_keys_unique.
  - intros e. apply keeps_bind; [|intros _; apply keeps_ret].
    intros w' _. exact Hsnap.
Qed.

Lemma json_prune_unique (store : JSON.JSONStorage) day days :
  triple unique_in_document (JSON.delete_old_results store day days)
         unique_in_document.
Proof.
  intros w Hw. unfold JSON.delete_old_results.
  unfold mbind at 1, M_bind at 1.
  assert (Hkeep : forall w', json w' = json w -> unique_in_document w').
  { intros w' Hj. unfold unique_in_document, doc_keys, document in *. now rewrite Hj. }
  destruct (JSON._load_data w) as [[loaded|e] w0] eqn:Hload;
    pose proof (load_data_unchanged w) as Hw0; rewrite Hload in Hw0; simpl in Hw0;
    subst w0; [|exact Hw].
  unfold mbind at 1, M_bind at 1, now at 1.
  unfold mbind at 1, M_bind at 1.
  destruct (cutoff_date (clock w) day days (set_clock (S (clock w)) w)) as [[c|e] w1] eqn:Hcut;
    pose proof (cutoff_date_same (clock w) day days (set_clock (S (clock w)) w)) as Hw1;
    rewrite Hcut in Hw1; simpl in Hw1; subst w1; [|now apply Hkeep].
  unfold JSON._load_data in Hload.
  destruct (content (json w)) as [data| |g] eqn:Hc; injection Hload as <-;
    unfold JSON.subscript, JSON._save_data; unfold mbind, M_bind; simpl;
    try (now apply Hkeep);
    (destruct (writable (json w)); simpl; [|now apply Hkeep]);
    unfold unique_in_document, doc_keys, document in *; simpl.
  - rewrite Hc in Hw. now apply filter_keys_unique.
  - constructor.
Qed.

(** X12.  The dedup invariant of the store: whatever sessions are saved
    and whatever pruning is done, in whatever order and environments,
    starting from an empty store, no (host, port) pair is ever stored
    twice, in the database as in the JSON file. *)
Theorem stores_never_hold_a_pair_twice (calls : list store_call) :
  (forall store : SQLite.SQLiteStorage,
      unique_in_database (fold_left (call_database store) calls initial_world)) /\
  (forall store : JSON.JSONStorage,
      unique_in_document (fold_left (call_document store) calls initial_world)).
Proof.
  split; intros store.
  - assert (Hgen : forall w, unique_in_database w ->
                             unique_in_database (fold_left (call_database store) calls w)).
    { induction calls as [|[E session|day days] calls IH]; intros w Hw; simpl;
        [exact Hw | apply IH | apply IH].
      - now apply (sqlite_save_unique store E session).
      - now apply (sqlite_prune_unique store day days). }
    apply Hgen. constructor.
  - assert (Hgen : forall w, unique_in_document w ->
                             unique_in_document (fold_left (call_document store) calls w)).
    { induction calls as [|[E session|day days] calls IH]; intros w Hw; simpl;
        [exact Hw | apply IH | apply IH].
      - now apply (json_save_unique store E session).
      - now apply (json_prune_unique store day days). }
    apply Hgen. constructor.
Qed.

Lemma sqlite_prune_run (store : SQLite.SQLiteStorage) day days w :
  fault (db w) = None ->
  representable day days (cutoff (clock w) day days) ->
  let kept := filter (fun r => (cutoff (clock w) day days ≤ Z.of_nat (r_timestamp r))%Z)
                     (scan_results (db w)) in
  SQLite.delete_old_results store day days w
  = (Ok (length (scan_results (db w)) - length kept),
     set_db (mkDb (scan_sessions (db w)) kept None) (set_clock (S (clock w)) w)).
Proof.
  intros Hfault Hrep. unfold SQLite.delete_old_results. connected Hfault.
  unfold try_except, now, get.
  unfold mbind at 1 2 3, M_bind at 1 2 3. simpl.
  rewrite (cutoff_date_run _ _ _ _ Hrep).
  unfold SQLite.execute. unfold mbind, M_bind. simpl. rewrite Hfault. simpl. reflexivity.
Qed.

(** A cutoff that cannot be computed: the handler of the SQLite backend
    returns 0, and the JSON backend raises.  Only the clock has been
    read. *)
Lemma sqlite_prune_overflow (store : SQLite.SQLiteStorage) day days w :
  can_connect w ->
  ~ representable day days (cutoff (clock w) day days) ->
  SQLite.delete_old_results store day days w = (Ok 0, set_clock (S (clock w)) w).
Proof.
  intros Hopen Hno. unfold SQLite.delete_old_results.
  unfold mbind at 1, M_bind at 1.
  assert (Hconn : SQLite._get_connection store w = (Ok tt, w)).
  { unfold can_connect in Hopen. unfold SQLite._get_connection.
    now destruct (fault (db w)) as [[msg|msg]|]. }
  rewrite Hconn. unfold try_except, now, get, SQLite.rollback, modify.
  unfold mbind at 1 2 3, M_bind at 1 2 3. simpl.
  destruct (cutoff_date_overflow (clock w) day days (set_clock (S (clock w)) w) Hno)
    as [e ->].
  unfold mbind, M_bind. simpl. now destruct w.
Qed.

Lemma json_prune_overflow (store : JSON.JSONStorage) day days w :
  ~ representable day days (cutoff (clock w) day days) ->
  exists e, JSON.delete_old_results store day days w = (Raise e, set_clock (S (clock w)) w).
Proof.
  intros Hno. unfold JSON.delete_old_results, JSON._load_data, now.
  unfold mbind at 1 2 3, M_bind at 1 2 3.
  destruct (cutoff_date_overflow (clock w) day days (set_clock (S (clock w)) w) Hno)
    as [e He].
  exists e. destruct (content (json w)); simpl; now rewrite He.
Qed.

Lemma json_prune_run (store : JSON.JSONStorage) day days w :
  is_document w ->
  representable day days (cutoff (clock w) day days) ->
  let kept := filter (fun r => (cutoff (clock w) day days < Z.of_nat (rd_timestamp r))%Z)
                     (doc_results (document w)) in
  JSON.delete_old_results store day days w
  = (Ok (length (doc_results (document w)) - length kept),
     if writable (json w)
     then set_json (mkFile (Document (mkData (doc_sessions (document w)) kept)) true)
                   (set_clock (S (clock w)) w)
     else set_clock (S (clock w)) w).
Proof.
  intros Hdoc Hrep. unfold JSON.delete_old_results.
  erewrite bind_ok by (apply load_data_document; exact Hdoc).
  unfold now. unfold mbind at 1, M_bind at 1.
  unfold mbind at 1, M_bind at 1. rewrite (cutoff_date_run _ _ _ _ Hrep).
  unfold JSON.subscript, JSON._save_data. unfold mbind, M_bind. simpl.
  destruct (writable (json w)); reflexivity.
Qed.

(** X13.  What pruning removes.  The cutoff is the time of the call minus
    the given number of days.  When Python can compute it (the number of
    days is in the range of [timedelta] and the date in the range of
    [datetime]): the SQLite backend removes exactly the rows stamped
    before the cutoff, the JSON backend the entries stamped at or before
    it (an entry stamped exactly at the cutoff goes in the JSON file and
    stays in the database).  Both leave the sessions alone and return the
    number of results removed.  On a file that cannot be written the JSON
    backend still returns that number, although the file is as it was.
    When the cutoff cannot be computed, the subtraction raises
    [OverflowError]: the SQLite backend, on a database that can be
    opened, returns 0, the JSON backend raises, and nothing is removed. *)
Theorem delete_old_results_removes_old_results (day : nat) (days : Z) (w : world) :
  (forall store : SQLite.SQLiteStorage,
      fault (db w) = None ->
      representable day days (cutoff (clock w) day days) ->
      exists n w',
        SQLite.delete_old_results store day days w = (Ok n, w') /\
        scan_sessions (db w') = scan_sessions (db w) /\
        (forall r, r ∈ scan_results (db w')
                   <-> r ∈ scan_results (db w) /\
                       (cutoff (clock w) day days ≤ Z.of_nat (r_timestamp r))%Z) /\
        n + length (scan_results (db w')) = length (scan_results (db w))) /\
  (forall store : JSON.JSONStorage,
      is_document w ->
      writable (json w) = true ->
      representable day days (cutoff (clock w) day days) ->
      exists n w',
        JSON.delete_old_results store day days w = (Ok n, w') /\
        doc_sessions (document w') = doc_sessions (document w) /\
        (forall r, r ∈ doc_results (document w')
                   <-> r ∈ doc_results (document w) /\
                       (cutoff (clock w) day days < Z.of_nat (rd_timestamp r))%Z) /\
        n + length (doc_results (document w')) = length (doc_results (document w))) /\
  (forall store : JSON.JSONStorage,
      is_document w ->
      writable (json w) = false ->
      representable day days (cutoff (clock w) day days) ->
      exists n w',
        JSON.delete_old_results store day days w = (Ok n, w') /\
        json w' = json w /\
        n + length (filter (fun r => (cutoff (clock w) day days
                                      < Z.of_nat (rd_timestamp r))%Z)
                           (doc_results (document w)))
        = length (doc_results (document w))) /\
  (forall store : SQLite.SQLiteStorage,
      can_connect w ->
      ~ representable day days (cutoff (clock w) day days) ->
      exists w',
        SQLite.delete_old_results store day days w = (Ok 0, w') /\ db w' = db w) /\
  (forall store : JSON.JSONStorage,
      ~ representable day days (cutoff (clock w) day days) ->
      exists e w',
        JSON.delete_old_results store day days w = (Raise e, w') /\ json w' = json w).
Proof.
  split; [|split; [|split; [|split]]].
  - intros store Hfault Hrep. rewrite (sqlite_prune_run store day days w Hfault Hrep).
    eexists _, _. split; [reflexivity|]. simpl. split; [reflexivity|]. split.
    + intros r. rewrite list_elem_of_filter. tauto.
    + pose proof (length_filter
                    (fun r => (cutoff (clock w) day days ≤ Z.of_nat (r_timestamp r))%Z)
                    (scan_results (db w))). lia.
  - intros store Hdoc Hw Hrep. rewrite (json_prune_run store day days w Hdoc Hrep), Hw.
    eexists _, _. split; [reflexivity|]. unfold document at 1 2 3. simpl.
    split; [reflexivity|]. split.
    + intros r. rewrite list_elem_of_filter. tauto.
    + pose proof (length_filter
                    (fun r => (cutoff (clock w) day days < Z.of_nat (rd_timestamp r))%Z)
                    (doc_results (document w))). lia.
  - intros store Hdoc Hw Hrep. rewrite (json_prune_run store day days w Hdoc Hrep), Hw.
    eexists _, _. split; [reflexivity|]. simpl. split; [reflexivity|].
    pose proof (length_filter
                  (fun r => (cutoff (clock w) day days < Z.of_nat (rd_timestamp r))%Z)
                  (doc_results (document w))). lia.
  - intros store Hopen Hno. rewrite (sqlite_prune_overflow store day days w Hopen Hno).
    eexists. split; reflexivity.
  - intros store Hno. destruct (json_prune_overflow store day days w Hno) as [e ->].
    eexists _, _. split; reflexivity.
Qed.

(** Thirty days after the first session was saved at time 1, with one
    point of the clock per day: the cutoff is 1.  With 800000 days the
    cutoff would lie before the first day of the calendar. *)
Lemma delete_old_results_removes_old_results_witness :
  (exists n w',
      SQLite.delete_old_results Scenario.the_database 1 30
                                (set_clock 31 Scenario.seen_in_database) = (Ok n, w') /\
      scan_sessions (db w') = scan_sessions (db (set_clock 31 Scenario.seen_in_database)) /\
      (forall r, r ∈ scan_results (db w')
                 <-> r ∈ scan_results (db (set_clock 31 Scenario.seen_in_database)) /\
                     (cutoff 31%nat 1%nat 30 ≤ Z.of_nat (r_timestamp r))%Z) /\
      n + length (scan_results (db w')) = 2) /\
  (exists n w',
      JSON.delete_old_results Scenario.the_document 1 30
                              (set_clock 31 Scenario.seen_in_document) = (Ok n, w') /\
      doc_sessions (document w')
      = doc_sessions (document (set_clock 31 Scenario.seen_in_document)) /\
      (forall r, r ∈ doc_results (document w')
                 <-> r ∈ doc_results (document (set_clock 31 Scenario.seen_in_document)) /\
                     (cutoff 31%nat 1%nat 30 < Z.of_nat (rd_timestamp r))%Z) /\
      n + length (doc_results (document w')) = 2) /\
  (exists w',
      SQLite.delete_old_results Scenario.the_database 1 800000
                                (set_clock 31 Scenario.seen_in_database) = (Ok 0, w') /\
      db w' = db Scenario.seen_in_database) /\
  (exists e w',
      JSON.delete_old_results Scenario.the_document 1 800000
                              (set_clock 31 Scenario.seen_in_document) = (Raise e, w') /\
      json w' = json Scenario.seen_in_document).
Proof.
  split; [|split; [|split]].
  - refine (proj1 (delete_old_results_removes_old_results
                     1 30 (set_clock 31 Scenario.seen_in_database))
                  Scenario.the_database eq_refl _).
    unfold representable, cutoff. simpl. lia.
  - refine (proj1 (proj2 (delete_old_results_removes_old_results
                            1 30 (set_clock 31 Scenario.seen_in_document)))
                  Scenario.the_document I eq_refl _).
    unfold representable, cutoff. simpl. lia.
  - refine (proj1 (proj2 (proj2 (proj2 (delete_old_results_removes_old_results
                            1 800000 (set_clock 31 Scenario.seen_in_database)))))
                  Scenario.the_database I _).
    unfold representable, cutoff. simpl. lia.
  - refine (proj2 (proj2 (proj2 (proj2 (delete_old_results_removes_old_results
                            1 800000 (set_clock 31 Scenario.seen_in_document)))))
                  Scenario.the_document _).
    unfold representable, cutoff. simpl. lia.
Defined.

(** X14.  A pair whose stored result has been pruned is new again: when
    the cutoff can be computed and every stored result for the (host,
    port) pair of a result is older than the cutoff (at most as old, for
    the JSON file), [check_is_new_result] answers [True] after
    [delete_old_results]. *)
Theorem pruned_pair_is_new_again (day : nat) (days : Z) (w : world) (result : ScanResult) :
  representable day days (cutoff (clock w) day days) ->
  (forall store : SQLite.SQLiteStorage,
      fault (db w) = None ->
      (forall r, r ∈ scan_results (db w) -> row_key r = result_key result ->
                 (Z.of_nat (r_timestamp r) < cutoff (clock w) day days)%Z) ->
      fst (SQLite.check_is_new_result store result
             (snd (SQLite.delete_old_results store day days w))) = Ok true) /\
  (forall store : JSON.JSONStorage,
      is_document w ->
      writable (json w) = true ->
      (forall r, r ∈ doc_results (document w) -> dict_key r = result_key result ->
                 (Z.of_nat (rd_timestamp r) ≤ cutoff (clock w) day days)%Z) ->
      fst (JSON.check_is_new_result store result
             (snd (JSON.delete_old_results store day days w))) = Ok true).
Proof.
  intros Hrep. split.
  - intros store Hfault Hold. rewrite (sqlite_prune_run store day days w Hfault Hrep). simpl.
    unfold SQLite.check_is_new_result, SQLite._get_connection, try_except, SQLite.execute.
    unfold mbind, M_bind. simpl.
    match goal with |- context [length ?l] => assert (Hnil : l = []) end.
    { apply elem_of_nil_inv. intros r Hr.
      apply list_elem_of_filter in Hr as [[Hip Hport] Hr].
      apply list_elem_of_filter in Hr as [Hnew Hr].
      specialize (Hold r Hr). unfold row_key, result_key in Hold.
      rewrite Hip, Hport in Hold. specialize (Hold eq_refl). lia. }
    now rewrite Hnil.
  - intros store Hdoc Hw Hold. rewrite (json_prune_run store day days w Hdoc Hrep), Hw. simpl.
    unfold JSON.check_is_new_result, JSON._load_data.
    unfold mbind, M_bind. simpl. f_equal. apply negb_true_iff.
    destruct (existsb _ _) eqn:Hex; [|reflexivity]. exfalso.
    apply existsb_exists in Hex as (r & Hr & Hmatch).
    apply list_elem_of_In, list_elem_of_filter in Hr as [Hnew Hr].
    apply andb_true_iff in Hmatch as [Hip Hport].
    apply String.eqb_eq in Hip. apply Z.eqb_eq in Hport.
    specialize (Hold r Hr). unfold dict_key, result_key in Hold.
    rewrite Hip, Hport in Hold. specialize (Hold eq_refl). lia.
Qed.

Lemma pruned_pair_is_new_again_witness :
  fst (SQLite.check_is_new_result Scenario.the_database Scenario.openssh_22
         (snd (SQLite.delete_old_results Scenario.the_database 1 30
                 (set_clock 32 Scenario.seen_in_database)))) = Ok true /\
  fst (JSON.check_is_new_result Scenario.the_document Scenario.openssh_22
         (snd (JSON.delete_old_results Scenario.the_document 1 30
                 (set_clock 31 Scenario.seen_in_document)))) = Ok true.
Proof.
  split.
  - apply (proj1 (pruned_pair_is_new_again 1 30 (set_clock 32 Scenario.seen_in_database)
                    Scenario.openssh_22
                    ltac:(unfold representable, cutoff; simpl; lia))
                 Scenario.the_database eq_refl).
    intros r Hr _. vm_compute in Hr.
    apply elem_of_cons in Hr as [->|Hr]; [vm_compute; reflexivity|].
    apply elem_of_cons in Hr as [->|Hr]; [vm_compute; reflexivity|].
    now apply elem_of_nil in Hr.
  - apply (proj2 (pruned_pair_is_new_again 1 30 (set_clock 31 Scenario.seen_in_document)
                    Scenario.openssh_22
                    ltac:(unfold representable, cutoff; simpl; lia))
                 Scenario.the_document I eq_refl).
    intros r Hr _. vm_compute in Hr.
    apply elem_of_cons in Hr as [->|Hr]; [vm_compute; discriminate|].
    apply elem_of_cons in Hr as [->|Hr]; [vm_compute; discriminate|].
    now apply elem_of_nil in Hr.
Defined.

End Pruning.

(** *** Saving a session and reading it back *)

Section RoundTrip.
Import Models World Disk Env Observe Storage.

Lemma status_of_status_value st : status_of_value (status_value st) = Some st.
Proof. now destruct st. Qed.

Lemma keeps_for_each_in {S A} (P : S -> Prop) (xs : list A) (body : A -> M S unit) :
  (forall x, x ∈ xs -> triple P (body x) P) -> triple P (for_each xs body) P.
Proof.
  induction xs as [|x xs IH]; intros Hb; simpl.
  - apply keeps_ret.
  - apply keeps_bind; [apply Hb; left|].
    intros _. apply IH. intros y Hy. apply Hb. now right.
Qed.

Lemma find_upserted {A} (key : A -> string) (sid : string) (l : list A) (row : A) :
  key row = sid ->
  List.find (fun s => String.eqb (key s) sid) (filter (fun s => key s ≠ sid) l ++ [row])
  = Some row.
Proof.
  intros Hrow. induction l as [|x l IH]; simpl.
  - now rewrite Hrow, String.eqb_refl.
  - rewrite filter_cons. destruct (decide (key x ≠ sid)) as [Hx|Hx]; [|exact IH].
    simpl. apply String.eqb_neq in Hx. now rewrite Hx.
Qed.

(** Reading rows back: when the constructor accepts every row, the
    results are appended in order and nothing else happens. *)
Lemma load_rows {S} (rows : list result_row) :
  Forall valid_row rows ->
  forall (s : ScanSession) (w : S),
    for_each rows (fun row => result ← SQLite.result_of_row row;
                              assign (append_result result)) (s, w)
    = (Ok tt, (set_results (results s ++ map row_result rows) s, w)).
Proof.
  induction 1 as [|row rows Hrow _ IH]; intros s w; simpl.
  - rewrite app_nil_r. now destruct s.
  - unfold mbind at 1 2, M_bind at 1 2, SQLite.result_of_row, new_ScanResult.
    unfold valid_row in Hrow. rewrite Hrow. simpl.
    rewrite IH. simpl. now rewrite <- app_assoc.
Qed.

Lemma load_dicts {S} (sid : string) (dicts : list result_dict) :
  Forall valid_dict dicts ->
  forall (s : ScanSession) (w : S),
    for_each dicts (fun result_dict =>
                      if String.eqb (rd_scan_id result_dict) sid
                      then result ← JSON.result_of_dict result_dict;
                           assign (append_result result)
                      else mret tt) (s, w)
    = (Ok tt,
       (set_results (results s
                     ++ map dict_result (filter (fun d => rd_scan_id d = sid) dicts)) s,
        w)).
Proof.
  induction 1 as [|d dicts Hd _ IH]; intros s w; simpl.
  - rewrite app_nil_r. now destruct s.
  - rewrite filter_cons. unfold mbind at 1, M_bind at 1.
    destruct (String.eqb_spec (rd_scan_id d) sid) as [Heq|Hne].
    + rewrite decide_True by exact Heq.
      unfold mbind at 1, M_bind at 1, JSON.result_of_dict, new_ScanResult.
      unfold valid_dict in Hd. rewrite Hd. simpl.
      rewrite IH. simpl. now rewrite <- app_assoc.
    + rewrite decide_False by exact Hne. simpl. apply IH.
Qed.

(** The world after a save on a working database is the one in which the
    loop over the results ends. *)
Lemma sqlite_save_world (store : SQLite.SQLiteStorage) E session w :
  fault (db w) = None ->
  let w1 := set_db (mkDb (filter (fun s => s_id s ≠ id session) (scan_sessions (db w))
                          ++ [SQLite.session_row_of session])
                         (scan_results (db w)) (fault (db w))) w in
  snd (SQLite.save_scan_session store E session w)
  = snd (snd (for_each (imap pair (results session))
                       (SQLite.save_result E (id session)) (session, w1))).
Proof.
  intros Hfault w1. unfold SQLite.save_scan_session. connected Hfault.
  unfold mbind at 1, M_bind at 1. simpl.
  assert (Hfault1 : fault (db w1) = None) by exact Hfault.
  destruct (save_loop E (id session) (results session) [] session w1 Hfault1 eq_refl)
    as (rs' & w2 & Hloop & _).
  rewrite (imap_ext _ pair) in Hloop by (intros i x _; reflexivity).
  assert (Hupsert :
    zoom (SQLite.execute (SQLite.upsert_session (SQLite.session_row_of session)))
         (session, w) = (Ok tt, (session, w1))).
  { unfold zoom, SQLite.execute, w1. simpl. now rewrite Hfault. }
  rewrite Hloop. simpl.
  match goal with
  | |- snd (with_local session (?blk ≫= _) w) = _ =>
      assert (Hblock : blk (session, w) = (Ok true, (set_results rs' session, w2)))
  end.
  { unfold try_except.
    erewrite bind_ok by exact Hupsert.
    erewrite bind_ok by exact Hloop.
    reflexivity. }
  unfold with_local. erewrite bind_ok by exact Hblock. reflexivity.
Qed.

(** One iteration of the loop of a save, on the tables. *)
Lemma save_result_tables E sid (sessions : list session_row) (old : list result_row)
      (rs : list ScanResult) i x :
  x ∈ rs ->
  let P := fun xs : ScanSession * world =>
             fault (db (snd xs)) = None /\
             scan_sessions (db (snd xs)) = sessions /\
             (forall r, r ∈ scan_results (db (snd xs)) ->
                        r ∈ old \/ exists rid y, y ∈ rs /\ r = SQLite.result_row_of rid sid y) /\
             (Forall (fun y => result_key y ∈ map row_key old) rs ->
              scan_results (db (snd xs)) = old) in
  triple P (SQLite.save_result E sid (i, x)) P.
Proof.
  intros Hx P [s w] (Hfault & Hsessions & Hrows & Hsame). simpl in *.
  unfold SQLite.save_result, uuid4, try_except, zoom, assign, SQLite.execute, raise.
  unfold mbind, M_bind. simpl. rewrite Hfault.
  unfold SQLite.insert_result at 1. simpl.
  set (row := SQLite.result_row_of _ sid x).
  destruct (SQLite.violates row (scan_results (db w))) eqn:Hv; simpl.
  - repeat split; auto.
  - repeat split; auto.
    + intros r Hr. apply elem_of_app in Hr as [Hr|Hr]; [now apply Hrows|].
      apply list_elem_of_singleton in Hr. subst r. right. eauto.
    + intros Hall. exfalso. apply violates_false in Hv. apply Hv.
      rewrite (Hsame Hall). rewrite List.Forall_forall in Hall.
      apply (Hall x). now apply list_elem_of_In.
Qed.

(** What a save on a working database does to the tables: the session row
    replaces the row with the same identifier, every new result row is a
    result of the session under the session's identifier, and when every
    pair of the session is stored already the result table stays as it
    is. *)
Lemma sqlite_save_tables (store : SQLite.SQLiteStorage) E session w :
  fault (db w) = None ->
  let w' := snd (SQLite.save_scan_session store E session w) in
  fault (db w') = None /\
  scan_sessions (db w')
  = filter (fun s => s_id s ≠ id session) (scan_sessions (db w))
    ++ [SQLite.session_row_of session] /\
  (forall r, r ∈ scan_results (db w') ->
             r ∈ scan_results (db w) \/
             exists rid y, y ∈ results session /\
                           r = SQLite.result_row_of rid (id session) y) /\
  (Forall (fun y => result_key y ∈ db_keys w) (results session) ->
   scan_results (db w') = scan_results (db w)).
Proof.
  intros Hfault w'. subst w'. rewrite (sqlite_save_world store E session w Hfault).
  set (w1 := set_db _ w).
  apply (keeps_for_each_in
           (fun xs : ScanSession * world =>
              fault (db (snd xs)) = None /\
              scan_sessions (db (snd xs))
              = filter (fun s => s_id s ≠ id session) (scan_sessions (db w))
                ++ [SQLite.session_row_of session] /\
              (forall r, r ∈ scan_results (db (snd xs)) ->
                         r ∈ scan_results (db w) \/
                         exists rid y, y ∈ results session /\
                                       r = SQLite.result_row_of rid (id session) y) /\
              (Forall (fun y => result_key y ∈ map row_key (scan_results (db w)))
                      (results session) ->
               scan_results (db (snd xs)) = scan_results (db w)))).
  - intros [i x] Hix. apply save_result_tables.
    apply elem_of_lookup_imap in Hix as (j & y & [= -> ->] & Hj).
    now apply list_elem_of_lookup_2 in Hj.
  - simpl. repeat split; auto.
Qed.

(** Reading a session whose row is stored with a valid status and whose
    result rows the constructor accepts. *)
Lemma sqlite_get_run (store : SQLite.SQLiteStorage) sid w row st :
  fault (db w) = None ->
  List.find (fun s => String.eqb (s_id s) sid) (scan_sessions (db w)) = Some row ->
  status_of_value (s_status row) = Some st ->
  Forall valid_row (filter (fun r => r_scan_id r = sid) (scan_results (db w))) ->
  SQLite.get_scan_session store sid w
  = (Ok (Some (mkScanSession (s_id row) st (s_start_time row) (s_end_time row)
                 (s_targets row)
                 (map row_result (filter (fun r => r_scan_id r = sid)
                                         (scan_results (db w))))
                 (s_total_results row) (s_new_results row) (default [] (s_errors row)))),
     w).
Proof.
  intros Hfault Hfind Hst Hrows.
  assert (Hw : set_db (db w) w = w) by now destruct w.
  assert (H1 : SQLite.execute (SQLite.select_session sid) w = (Ok (Some row), w)).
  { unfold SQLite.execute, SQLite.select_session. now rewrite Hfault, Hfind, Hw. }
  assert (H2 : SQLite.execute (SQLite.select_results_of sid) w
               = (Ok (filter (fun r => r_scan_id r = sid) (scan_results (db w))), w)).
  { unfold SQLite.execute, SQLite.select_results_of. now rewrite Hfault, Hw. }
  unfold SQLite.get_scan_session. connected Hfault. unfold try_except.
  erewrite bind_ok by exact H1. unfold new_ScanSession. rewrite Hst.
  erewrite bind_ok by reflexivity.
  erewrite bind_ok by exact H2.
  unfold with_local.
  erewrite bind_ok by (apply load_rows; exact Hrows).
  reflexivity.
Qed.

Lemma json_get_run (store : JSON.JSONStorage) sid w d st :
  is_document w ->
  List.find (fun s => String.eqb (sd_id s) sid) (doc_sessions (document w)) = Some d ->
  status_of_value (sd_status d) = Some st ->
  Forall valid_dict (doc_results (document w)) ->
  JSON.get_scan_session store sid w
  = (Ok (Some (mkScanSession (sd_id d) st (sd_start_time d) (sd_end_time d)
                 (sd_targets d)
                 (map dict_result (filter (fun r => rd_scan_id r = sid)
                                          (doc_results (document w))))
                 (sd_total_results d) (sd_new_results d) [])),
     w).
Proof.
  intros Hdoc Hfind Hst Hrows.
  unfold JSON.get_scan_session.
  erewrite bind_ok by (apply load_data_document; exact Hdoc).
  erewrite bind_ok by reflexivity.
  rewrite Hfind. unfold new_ScanSession. rewrite Hst.
  erewrite bind_ok by reflexivity.
  unfold with_local.
  erewrite bind_ok by (apply load_dicts; exact Hrows).
  reflexivity.
Qed.

Lemma json_save_run (store : JSON.JSONStorage) E session w :
  is_document w ->
  writable (json w) = true ->
  JSON.save_scan_session store E session w
  = (Ok (true, session),
     set_json (mkFile (Document
                 (fold_left (JSON.add_result (id session)) (results session)
                    (mkData (filter (fun s => sd_id s ≠ id session)
                                    (doc_sessions (document w))
                             ++ [JSON.session_dict_of session])
                            (doc_results (document w))))) true) w).
Proof.
  unfold is_document. intros Hdoc Hw.
  unfold JSON.save_scan_session, JSON._load_data, JSON._save_data, document.
  unfold mbind, M_bind. destruct (content (json w)); [| |now elim Hdoc]; simpl; now rewrite Hw.
Qed.

Lemma add_results_document sid (valid : list ScanResult) rs :
  forall data,
    (forall y, y ∈ rs -> y ∈ valid) ->
    let data' := fold_left (JSON.add_result sid) rs data in
    doc_sessions data' = doc_sessions data /\
    (forall r, r ∈ doc_results data' ->
               r ∈ doc_results data \/
               exists y, y ∈ valid /\ r = JSON.result_dict_of sid y) /\
    (Forall (fun y => result_key y ∈ map dict_key (doc_results data)) rs ->
     doc_results data' = doc_results data).
Proof.
  induction rs as [|x rs IH]; intros data Hin; simpl.
  - auto.
  - assert (Hx : x ∈ valid) by (apply Hin; left).
    assert (Hrs : forall y, y ∈ rs -> y ∈ valid) by (intros y Hy; apply Hin; now right).
    destruct (IH (JSON.add_result sid data x) Hrs) as (Hs & Hr & Hsame).
    unfold JSON.add_result in *.
    destruct (existsb _ (doc_results data)) eqn:Hex; simpl in *.
    + repeat split; auto. intros Hall. apply Forall_cons in Hall as [_ Hall]. auto.
    + split; [exact Hs|]. split.
      * intros r Hr'. destruct (Hr r Hr') as [Hold|Hnew]; [|now right].
        apply elem_of_app in Hold as [Hold|Hold]; [now left|].
        apply list_elem_of_singleton in Hold. subst r. right. eauto.
      * intros Hall. apply Forall_cons in Hall as [Hkey _]. exfalso.
        apply list_elem_of_fmap in Hkey as (d & Hkey & Hd).
        apply list_elem_of_In in Hd.
        assert (Hex' : existsb (fun r => String.eqb (rd_ip r) (ip x)
                                         && (rd_port r =? port x)%Z)
                               (doc_results data) = true).
        { apply existsb_exists. exists d. split; [exact Hd|].
          unfold dict_key, result_key in Hkey. injection Hkey as Hip Hport.
          now rewrite <- Hip, <- Hport, String.eqb_refl, Z.eqb_refl. }
        congruence.
Qed.

Lemma errors_round_trip (es : list string) :
  default [] (match es with [] => None | e :: es' => Some (e :: es') end) = es.
Proof. now destruct es. Qed.

(** X15.  A session that has been saved reads back with the header it was
    saved with: identifier, status, start and end time, targets and both
    counters.  The database also gives back its errors; the JSON file does
    not store them, so there the errors read back empty.  The results
    read back are, in the order in which they are stored, the results
    that the store holds under the session's identifier after the save,
    each one with that identifier as its [scan_id].  (Stored ports and the
    ports of the session are in range, as the constructor of [ScanResult]
    makes sure.) *)
Theorem saved_session_reads_back (E : env) (session : ScanSession) (w : world) :
  Forall valid_result (results session) ->
  (forall store : SQLite.SQLiteStorage,
      fault (db w) = None ->
      Forall valid_row (scan_results (db w)) ->
      exists s',
        fst (SQLite.get_scan_session store (id session)
               (snd (SQLite.save_scan_session store E session w))) = Ok (Some s') /\
        same_header session s' /\
        errors s' = errors session /\
        results s'
        = map row_result
              (filter (fun r => r_scan_id r = id session)
                      (scan_results (db (snd (SQLite.save_scan_session store E session w))))) /\
        Forall (fun r => scan_id r = Some (id session) /\ valid_result r) (results s')) /\
  (forall store : JSON.JSONStorage,
      is_document w ->
      writable (json w) = true ->
      Forall valid_dict (doc_results (document w)) ->
      exists s',
        fst (JSON.get_scan_session store (id session)
               (snd (JSON.save_scan_session store E session w))) = Ok (Some s') /\
        same_header session s' /\
        errors s' = [] /\
        results s'
        = map dict_result
              (filter (fun r => rd_scan_id r = id session)
                      (doc_results
                         (document (snd (JSON.save_scan_session store E session w))))) /\
        Forall (fun r => scan_id r = Some (id session) /\ valid_result r) (results s')).
Proof.
  intros Hvalid. rewrite List.Forall_forall in Hvalid. split.
  - intros store Hfault Hrows. rewrite List.Forall_forall in Hrows.
    destruct (sqlite_save_tables store E session w Hfault) as (Hf' & Hs' & Hr' & _).
    set (w' := snd (SQLite.save_scan_session store E session w)) in *.
    assert (Hvalid' : Forall valid_row (filter (fun r => r_scan_id r = id session)
                                               (scan_results (db w')))).
    { apply List.Forall_forall. intros r Hr. apply list_elem_of_In in Hr.
      apply list_elem_of_filter in Hr as [_ Hr].
      destruct (Hr' r Hr) as [Hold|(rid & y & Hy & ->)].
      - apply Hrows. now apply list_elem_of_In.
      - apply Hvalid. now apply list_elem_of_In. }
    rewrite (sqlite_get_run store (id session) w' (SQLite.session_row_of session)
               (status session)); auto.
    + eexists. split; [reflexivity|]. simpl.
      split; [now repeat split|]. split; [apply errors_round_trip|].
      split; [reflexivity|].
      apply List.Forall_forall. intros r Hr. apply in_map_iff in Hr as (row & <- & Hrow).
      apply list_elem_of_In, list_elem_of_filter in Hrow as [Hid Hrow].
      split; [simpl; now rewrite Hid|].
      rewrite List.Forall_forall in Hvalid'. apply Hvalid'.
      apply list_elem_of_In, list_elem_of_filter. auto.
    + rewrite Hs'. now apply find_upserted.
    + apply status_of_status_value.
  - intros store Hisdoc Hw Hrows. rewrite List.Forall_forall in Hrows.
    rewrite (json_save_run store E session w Hisdoc Hw). simpl.
    set (data0 := mkData _ (doc_results (document w))).
    destruct (add_results_document (id session) (results session) (results session)
                data0 (fun y Hy => Hy)) as (Hs' & Hr' & _).
    set (data' := fold_left _ _ data0) in *.
    set (w' := set_json _ w).
    assert (Hdoc : document w' = data') by reflexivity.
    assert (Hvalid' : Forall valid_dict (doc_results (document w'))).
    { rewrite Hdoc. apply List.Forall_forall. intros r Hr. apply list_elem_of_In in Hr.
      destruct (Hr' r Hr) as [Hold|(y & Hy & ->)].
      - apply Hrows. now apply list_elem_of_In.
      - apply Hvalid. now apply list_elem_of_In. }
    rewrite (json_get_run store (id session) w' (JSON.session_dict_of session)
               (status session)); auto.
    + eexists. split; [reflexivity|]. simpl.
      split; [now repeat split|]. split; [reflexivity|].
      split; [reflexivity|].
      apply List.Forall_forall. intros r Hr. apply in_map_iff in Hr as (d & <- & Hd).
      apply list_elem_of_In, list_elem_of_filter in Hd as [Hid Hd].
      split; [simpl; now rewrite Hid|].
      rewrite List.Forall_forall in Hvalid'. apply Hvalid'. now apply list_elem_of_In.
    + rewrite Hdoc, Hs'. now apply (find_upserted sd_id).
    + apply status_of_status_value.
Qed.

(** The first session, saved to an empty store, reads back with its two
    results. *)
Lemma saved_session_reads_back_witness :
  (exists s',
      fst (SQLite.get_scan_session Scenario.the_database "session-1"
             (snd (SQLite.save_scan_session Scenario.the_database Scenario.quiet
                     Scenario.first_session initial_world))) = Ok (Some s') /\
      same_header Scenario.first_session s' /\
      errors s' = [] /\
      results s'
      = [mkScanResult "10.0.0.1" 22 (Some "OpenSSH") (Some "OpenSSH") true 1
                      (Some "session-1");
         mkScanResult "10.0.0.1" 80 (Some "Apache") (Some "Apache") true 1
                      (Some "session-1")] /\
      Forall (fun r => scan_id r = Some "session-1" /\ valid_result r) (results s')) /\
  (exists s',
      fst (JSON.get_scan_session Scenario.the_document "session-1"
             (snd (JSON.save_scan_session Scenario.the_document Scenario.quiet
                     Scenario.first_session initial_world))) = Ok (Some s') /\
      same_header Scenario.first_session s' /\
      errors s' = [] /\
      results s'
      = [mkScanResult "10.0.0.1" 22 (Some "OpenSSH") (Some "OpenSSH") true 1
                      (Some "session-1");
         mkScanResult "10.0.0.1" 80 (Some "Apache") (Some "Apache") true 1
                      (Some "session-1")] /\
      Forall (fun r => scan_id r = Some "session-1" /\ valid_result r) (results s')).
Proof.
  assert (Hvalid : Forall valid_result (results Scenario.first_session))
    by (repeat constructor).
  split.
  - exact (proj1 (saved_session_reads_back Scenario.quiet Scenario.first_session
                    initial_world Hvalid)
                 Scenario.the_database eq_refl (Forall_nil_2 _)).
  - exact (proj2 (saved_session_reads_back Scenario.quiet Scenario.first_session
                    initial_world Hvalid)
                 Scenario.the_document I eq_refl (Forall_nil_2 _)).
Defined.

Lemma filter_none {A} (P : A -> Prop) `{forall x, Decision (P x)} (l : list A) :
  Forall (fun x => ~ P x) l -> filter P l = [].
Proof.
  induction 1 as [|x l Hx _ IH]; [reflexivity|].
  rewrite filter_cons. now rewrite decide_False.
Qed.

Lemma skip_dicts {S} (sid : string) (dicts : list result_dict) :
  Forall (fun r => rd_scan_id r <> sid) dicts ->
  forall (s : ScanSession) (w : S),
    for_each dicts (fun result_dict =>
                      if String.eqb (rd_scan_id result_dict) sid
                      then result ← JSON.result_of_dict result_dict;
                           assign (append_result result)
                      else mret tt) (s, w)
    = (Ok tt, (s, w)).
Proof.
  induction 1 as [|d ds Hd _ IH]; intros s w; [reflexivity|].
  simpl. unfold mbind at 1, M_bind at 1. apply String.eqb_neq in Hd. rewrite Hd.
  apply IH.
Qed.

(** X16.  The history of a session lists only what the session was the
    first to see: when every (host, port) pair of a session is stored
    already and no stored result carries the session's identifier, the
    session reads back without any result, while its [total_results]
    still is the number it was saved with. *)
Theorem rescan_reads_back_without_results (E : env) (session : ScanSession) (w : world) :
  (forall store : SQLite.SQLiteStorage,
      fault (db w) = None ->
      Forall (fun y => result_key y ∈ db_keys w) (results session) ->
      Forall (fun r => r_scan_id r <> id session) (scan_results (db w)) ->
      exists s',
        fst (SQLite.get_scan_session store (id session)
               (snd (SQLite.save_scan_session store E session w))) = Ok (Some s') /\
        results s' = [] /\
        Models.total_results s' = Models.total_results session) /\
  (forall store : JSON.JSONStorage,
      is_document w ->
      writable (json w) = true ->
      Forall (fun y => result_key y ∈ doc_keys w) (results session) ->
      Forall (fun r => rd_scan_id r <> id session) (doc_results (document w)) ->
      exists s',
        fst (JSON.get_scan_session store (id session)
               (snd (JSON.save_scan_session store E session w))) = Ok (Some s') /\
        results s' = [] /\
        Models.total_results s' = Models.total_results session).
Proof.
  split.
  - intros store Hfault Hkeys Hids.
    destruct (sqlite_save_tables store E session w Hfault) as (Hf' & Hs' & _ & Hsame).
    set (w' := snd (SQLite.save_scan_session store E session w)) in *.
    specialize (Hsame Hkeys).
    assert (Hnone : filter (fun r => r_scan_id r = id session) (scan_results (db w')) = [])
      by (rewrite Hsame; now apply filter_none).
    rewrite (sqlite_get_run store (id session) w' (SQLite.session_row_of session)
               (status session)); auto.
    + eexists. split; [reflexivity|]. simpl. now rewrite Hnone.
    + rewrite Hs'. now apply find_upserted.
    + apply status_of_status_value.
    + rewrite Hnone. constructor.
  - intros store Hisdoc Hw Hkeys Hids.
    rewrite (json_save_run store E session w Hisdoc Hw). simpl.
    set (data0 := mkData _ (doc_results (document w))).
    destruct (add_results_document (id session) (results session) (results session)
                data0 (fun y Hy => Hy)) as (Hs' & _ & Hsame).
    specialize (Hsame Hkeys).
    set (data' := fold_left _ _ data0) in *.
    set (w' := set_json _ w).
    assert (Hdoc : document w' = data') by reflexivity.
    assert (Hnone : filter (fun r => rd_scan_id r = id session) (doc_results (document w'))
                    = [])
      by (rewrite Hdoc, Hsame; now apply filter_none).
    assert (Hvalid' : Forall valid_dict
                        (filter (fun r => rd_scan_id r = id session)
                                (doc_results (document w'))))
      by (rewrite Hnone; constructor).
    assert (Hfind : List.find (fun s => String.eqb (sd_id s) (id session))
                              (doc_sessions (document w'))
                    = Some (JSON.session_dict_of session))
      by (rewrite Hdoc, Hs'; now apply (find_upserted sd_id)).
    assert (H1 : JSON._load_data w' = (Ok (Dict (document w')), w')) by reflexivity.
    unfold JSON.get_scan_session.
    erewrite bind_ok by exact H1. erewrite bind_ok by reflexivity.
    rewrite Hfind. unfold new_ScanSession.
    change (sd_status (JSON.session_dict_of session)) with (status_value (status session)).
    rewrite status_of_status_value.
    erewrite bind_ok by reflexivity.
    unfold with_local.
    erewrite bind_ok by (rewrite Hdoc, Hsame; apply skip_dicts; exact Hids).
    eexists. split; [reflexivity|]. split; reflexivity.
Qed.

(** The second session of the scenario sees 10.0.0.1:22 again. *)
Lemma rescan_reads_back_without_results_witness :
  exists s',
    fst (SQLite.get_scan_session Scenario.the_database "session-2"
           (snd (SQLite.save_scan_session Scenario.the_database Scenario.quiet
                   Scenario.second_session Scenario.seen_in_database))) = Ok (Some s') /\
    results s' = [] /\
    Models.total_results s' = 1.
Proof.
  apply (proj1 (rescan_reads_back_without_results Scenario.quiet Scenario.second_session
                  Scenario.seen_in_database) Scenario.the_database eq_refl).
  - repeat constructor.
  - repeat constructor; discriminate.
Defined.

End RoundTrip.

(** *** Every stored result *)

Section AllResults.
Import Models World Disk Env Observe Storage.

Lemma insert_by_time_perm {A} (time : A -> datetime) x l :
  insert_by_time time x l ≡ₚ x :: l.
Proof.
  induction l as [|y l IH]; simpl; [reflexivity|].
  destruct (time y <=? time x)%nat; [reflexivity|].
  rewrite IH. apply Permutation_swap.
Qed.

Lemma sort_by_time_desc_perm {A} (time : A -> datetime) l :
  sort_by_time_desc time l ≡ₚ l.
Proof.
  induction l as [|x l IH]; simpl; [reflexivity|].
  now rewrite insert_by_time_perm, IH.
Qed.

Lemma newest_first_insert (x : result_row) (l : list result_row) :
  newest_first (map row_result l) ->
  newest_first (map row_result (insert_by_time r_timestamp x l)).
Proof.
  induction l as [|y l IH]; simpl; [auto|].
  intros [Hy Hl]. destruct (Nat.leb_spec (r_timestamp y) (r_timestamp x)) as [Hle|Hgt]; simpl.
  - split; [|auto]. constructor; [exact Hle|].
    eapply Forall_impl; [exact Hy|]. simpl. intros r Hr. lia.
  - split; [|auto].
    change (map row_result (insert_by_time r_timestamp x l))
      with (row_result <$> insert_by_time r_timestamp x l).
    rewrite insert_by_time_perm.
    constructor; [simpl; lia | exact Hy].
Qed.

Lemma newest_first_sort (l : list result_row) :
  newest_first (map row_result (sort_by_time_desc r_timestamp l)).
Proof.
  induction l as [|x l IH]; simpl; [exact I|]. now apply newest_first_insert.
Qed.

Lemma load_all_rows {S} (rows : list result_row) :
  Forall valid_row rows ->
  forall (acc : list ScanResult) (w : S),
    for_each rows (fun row => result ← SQLite.result_of_row row;
                              assign (fun results => results ++ [result])) (acc, w)
    = (Ok tt, (acc ++ map row_result rows, w)).
Proof.
  induction 1 as [|row rows Hrow _ IH]; intros acc w; simpl.
  - now rewrite app_nil_r.
  - unfold mbind at 1 2, M_bind at 1 2, SQLite.result_of_row, new_ScanResult.
    unfold valid_row in Hrow. rewrite Hrow. simpl.
    rewrite IH. now rewrite <- app_assoc.
Qed.

Lemma load_all_dicts {S} (dicts : list result_dict) :
  Forall valid_dict dicts ->
  forall (acc : list ScanResult) (w : S),
    for_each dicts (fun d => result ← JSON.result_of_dict d;
                             assign (fun results => results ++ [result])) (acc, w)
    = (Ok tt, (acc ++ map dict_result dicts, w)).
Proof.
  induction 1 as [|d dicts Hd _ IH]; intros acc w; simpl.
  - now rewrite app_nil_r.
  - unfold mbind at 1 2, M_bind at 1 2, JSON.result_of_dict, new_ScanResult.
    unfold valid_dict in Hd. rewrite Hd. simpl.
    rewrite IH. now rewrite <- app_assoc.
Qed.

Lemma sqlite_get_all_results_run (store : SQLite.SQLiteStorage) w :
  fault (db w) = None ->
  Forall valid_row (scan_results (db w)) ->
  SQLite.get_all_results store w
  = (Ok (map row_result (sort_by_time_desc r_timestamp (rev (scan_results (db w))))), w).
Proof.
  intros Hfault Hrows.
  assert (H1 : SQLite.execute SQLite.select_all_results w
               = (Ok (sort_by_time_desc r_timestamp (rev (scan_results (db w)))), w)).
  { unfold SQLite.execute, SQLite.select_all_results. rewrite Hfault. now destruct w. }
  unfold SQLite.get_all_results. connected Hfault. unfold try_except.
  erewrite bind_ok by exact H1. unfold with_local.
  erewrite bind_ok.
  2:{ apply load_all_rows. now rewrite sort_by_time_desc_perm, <- Permutation_rev. }
  reflexivity.
Qed.

Lemma json_get_all_results_run (store : JSON.JSONStorage) w :
  is_document w ->
  Forall valid_dict (doc_results (document w)) ->
  JSON.get_all_results store w = (Ok (map dict_result (doc_results (document w))), w).
Proof.
  intros Hdoc Hrows.
  unfold JSON.get_all_results.
  erewrite bind_ok by (apply load_data_document; exact Hdoc).
  erewrite bind_ok by reflexivity.
  unfold with_local. erewrite bind_ok by (apply load_all_dicts; exact Hrows).
  reflexivity.
Qed.

(** X17.  [get_all_results] gives one result per stored result.  The
    SQLite backend lists them newest first; the JSON backend lists them in
    the order in which they were stored, oldest first. *)
Theorem get_all_results_lists_every_result (w : world) :
  (forall store : SQLite.SQLiteStorage,
      fault (db w) = None ->
      Forall valid_row (scan_results (db w)) ->
      exists rs,
        fst (SQLite.get_all_results store w) = Ok rs /\
        rs ≡ₚ map row_result (scan_results (db w)) /\
        newest_first rs) /\
  (forall store : JSON.JSONStorage,
      is_document w ->
      Forall valid_dict (doc_results (document w)) ->
      fst (JSON.get_all_results store w)
      = Ok (map dict_result (doc_results (document w)))).
Proof.
  split.
  - intros store Hfault Hrows.
    rewrite (sqlite_get_all_results_run store w Hfault Hrows).
    eexists. split; [reflexivity|]. split.
    + apply fmap_Permutation. now rewrite sort_by_time_desc_perm, <- Permutation_rev.
    + apply newest_first_sort.
  - intros store Hdoc Hrows. now rewrite (json_get_all_results_run store w Hdoc Hrows).
Qed.

Lemma get_all_results_lists_every_result_witness :
  (exists rs,
      fst (SQLite.get_all_results Scenario.the_database Scenario.seen_in_database) = Ok rs /\
      rs ≡ₚ map row_result (scan_results (db Scenario.seen_in_database)) /\
      newest_first rs) /\
  fst (JSON.get_all_results Scenario.the_document Scenario.seen_in_document)
  = Ok (map dict_result (doc_results (document Scenario.seen_in_document))).
Proof.
  split.
  - apply (proj1 (get_all_results_lists_every_result Scenario.seen_in_database)
             Scenario.the_database eq_refl).
    repeat constructor.
  - apply (proj2 (get_all_results_lists_every_result Scenario.seen_in_document)
             Scenario.the_document I).
    repeat constructor.
Defined.

End AllResults.

(** *** The configuration *)

Section Configuration.
Import World Observe Config.

Lemma insert_sorted_elem x l p : p ∈ insert_sorted x l <-> p = x \/ p ∈ l.
Proof.
  induction l as [|y l IH]; simpl.
  - rewrite list_elem_of_singleton, elem_of_nil. tauto.
  - destruct (x <=? y)%Z.
    + now rewrite elem_of_cons.
    + rewrite !elem_of_cons, IH. tauto.
Qed.

Lemma sorted_elem l p : p ∈ sorted l <-> p ∈ l.
Proof.
  induction l as [|x l IH]; simpl; [reflexivity|].
  now rewrite insert_sorted_elem, elem_of_cons, IH.
Qed.

Lemma increasing_insert x l :
  increasing l -> x ∉ l -> increasing (insert_sorted x l).
Proof.
  induction l as [|y l IH]; simpl.
  - intros _ _. split; constructor.
  - intros [Hy Hl] Hx. apply not_elem_of_cons in Hx as [Hxy Hx].
    destruct (Z.leb_spec x y) as [Hle|Hgt]; simpl.
    + split; [|now split]. constructor; [lia|].
      eapply Forall_impl; [exact Hy|]. simpl. intros z Hz. lia.
    + split; [|now apply IH].
      apply Forall_forall. intros z Hz. apply insert_sorted_elem in Hz as [->|Hz]; [lia|].
      rewrite Forall_forall in Hy. now apply Hy.
Qed.

Lemma increasing_sorted l : NoDup l -> increasing (sorted l).
Proof.
  induction 1 as [|x l Hx _ IH]; simpl; [exact I|].
  apply increasing_insert; [exact IH|]. now rewrite sorted_elem.
Qed.

Lemma increasing_NoDup l : increasing l -> NoDup l.
Proof.
  induction l as [|x l IH]; simpl; [constructor|].
  intros [Hx Hl]. constructor; [|now apply IH].
  intros Hin. rewrite Forall_forall in Hx. specialize (Hx x Hin). lia.
Qed.

Lemma sorted_increasing l : increasing l -> sorted l = l.
Proof.
  induction l as [|x l IH]; simpl; [reflexivity|].
  intros [Hx Hl]. rewrite IH by exact Hl.
  destruct l as [|y l]; [reflexivity|]. simpl.
  apply Forall_cons in Hx as [Hxy _].
  destruct (Z.leb_spec x y); [reflexivity | lia].
Qed.

Lemma remove_dups_NoDup (l : list Z) : NoDup l -> remove_dups l = l.
Proof.
  induction 1 as [|x l Hx _ IH]; simpl; [reflexivity|].
  destruct (decide_rel elem_of x l); [contradiction | now rewrite IH].
Qed.

Lemma find_out_of_range_none v :
  List.find (fun port => negb ((1 <=? port) && (port <=? 65535))%Z) v = None
  <-> Forall port_in_range v.
Proof.
  induction v as [|p v IH]; simpl.
  - split; [constructor | reflexivity].
  - destruct (Z.leb_spec 1 p), (Z.leb_spec p 65535); simpl;
      rewrite ?IH, Forall_cons; unfold port_in_range;
      split; try discriminate; try tauto; intros [? ?]; lia.
Qed.

Lemma find_out_of_range_some v p :
  List.find (fun port => negb ((1 <=? port) && (port <=? 65535))%Z) v = Some p ->
  Exists (fun p => ~ port_in_range p) v.
Proof.
  intros Hfind. apply find_some in Hfind as [Hin Hp].
  apply Exists_exists. exists p. split; [now apply list_elem_of_In|].
  unfold port_in_range. intros [H1 H2].
  apply Z.leb_le in H1, H2. now rewrite H1, H2 in Hp.
Qed.

(** What [validate_ports] accepts, and what it makes of it. *)
Lemma validate_ports_run v :
  match validate_ports v with
  | Ok ports =>
      v <> [] /\ Forall port_in_range v /\
      (forall p, p ∈ ports <-> p ∈ v) /\
      increasing ports /\
      validate_ports ports = Ok ports
  | Raise _ => v = [] \/ Exists (fun p => ~ port_in_range p) v
  end.
Proof.
  unfold validate_ports at 1. destruct v as [|p0 v0] eqn:Hv; [now left|]. rewrite <- Hv.
  assert (Hne : v <> []) by (rewrite Hv; discriminate). clear Hv.
  destruct (List.find _ v) as [p|] eqn:Hfind.
  - right. eapply find_out_of_range_some, Hfind.
  - apply find_out_of_range_none in Hfind.
    assert (Helem : forall p, p ∈ sorted (remove_dups v) <-> p ∈ v)
      by (intros p; now rewrite sorted_elem, elem_of_remove_dups).
    assert (Hinc : increasing (sorted (remove_dups v)))
      by apply increasing_sorted, NoDup_remove_dups.
    repeat split; auto; try apply Helem.
    unfold validate_ports.
    destruct (sorted (remove_dups v)) as [|q ports] eqn:Hs.
    + exfalso. destruct v as [|x v]; [congruence|].
      specialize (Helem x). rewrite elem_of_nil in Helem. apply Helem. now left.
    + rewrite <- Hs in *.
      assert (Hrange : Forall port_in_range (sorted (remove_dups v))).
      { apply Forall_forall. intros p Hp. rewrite Forall_forall in Hfind.
        now apply Hfind, Helem. }
      apply find_out_of_range_none in Hrange. rewrite Hrange.
      rewrite remove_dups_NoDup by now apply increasing_NoDup.
      now rewrite sorted_increasing.
Qed.

(** X18.  [validate_ports] rejects the empty list and any list with a
    port outside 1..65535; every other list it turns into the list of the
    same ports in strictly ascending order, each port once.  A list that
    it returned is accepted again and comes back, unchanged. *)
Theorem validate_ports_sorts_and_dedups (v : list Z) :
  match validate_ports v with
  | Ok ports =>
      v <> [] /\ Forall port_in_range v /\
      (forall p, p ∈ ports <-> p ∈ v) /\
      increasing ports /\
      validate_ports ports = Ok ports
  | Raise _ => v = [] \/ Exists (fun p => ~ port_in_range p) v
  end.
Proof. apply validate_ports_run. Qed.

(** X19.  [ConfigManager] keeps the first configuration it has loaded:
    once [load] has returned, every later [load], whatever path it is
    given and whatever the files hold by then, and every [get] return
    that same configuration; a [load] that raises leaves the manager
    without a configuration, so the next [load] reads the file again;
    [get] before any [load] raises [RuntimeError]; [reset] empties the
    manager. *)
Theorem load_keeps_the_first_configuration
        (fs : string -> config_file) (path : string) (cache : option AppConfig) :
  match ConfigManager.load fs path cache with
  | (Ok config, cache') =>
      cache' = Some config /\
      (forall fs' path', ConfigManager.load fs' path' cache' = (Ok config, cache')) /\
      ConfigManager.get cache' = (Ok config, cache')
  | (Raise e, cache') => cache = None /\ cache' = None
  end /\
  (exists e, ConfigManager.get None = (Raise e, None) /\ kind e = RuntimeError) /\
  snd (ConfigManager.reset cache) = None.
Proof.
  split; [|split; [eexists; split; reflexivity | reflexivity]].
  unfold ConfigManager.load. unfold mbind at 1, M_bind at 1. simpl.
  destruct cache as [config|]; [now repeat split|].
  destruct (fs path) as [|e|raw]; try (now split);
    (destruct (new_AppConfig _) as [config|e]; [now repeat split | now split]).
Qed.

Lemma ge_run bound v x : ge bound v = Ok x -> (bound <= x)%Z.
Proof. unfold ge. destruct (Z.leb_spec bound v); [intros [= <-]; lia | discriminate]. Qed.

Lemma le_run bound v x : le bound v = Ok x -> x = v /\ (x <= bound)%Z.
Proof. unfold le. destruct (Z.leb_spec v bound); [intros [= <-]; lia | discriminate]. Qed.

Lemma bind_result_ok {A B} (r : result A) (f : A -> result B) (b : B) :
  r ≫= f = Ok b -> exists a, r = Ok a /\ f a = Ok b.
Proof. destruct r as [a|e]; [eauto | discriminate]. Qed.

Lemma new_ScanConfig_valid given c :
  new_ScanConfig given = Ok c ->
  scan_targets c <> [] /\ scan_ports c <> [] /\
  increasing (scan_ports c) /\ Forall port_in_range (scan_ports c) /\
  (10 <= scan_rate c)%Z /\ (30 <= scan_timeout c)%Z /\ (1 <= scan_threads c)%Z.
Proof.
  unfold new_ScanConfig. intros H.
  apply bind_result_ok in H as (targets & Ht & H).
  apply bind_result_ok in H as (ports & Hp & H).
  apply bind_result_ok in H as (rate & Hr & H).
  apply bind_result_ok in H as (timeout & Hto & H).
  apply bind_result_ok in H as (threads & Hth & [= <-]). simpl.
  split; [|split; [|split; [|split; [|split; [|split]]]]].
  - destruct (given_targets given) as [[|t ts]|]; simpl in Ht; congruence.
  - destruct (given_ports given) as [v|]; [|injection Hp as <-; discriminate].
    pose proof (validate_ports_run v) as Hv. rewrite Hp in Hv.
    destruct Hv as (Hne & _ & Helem & _). intros ->.
    destruct v as [|x v]; [congruence|].
    specialize (Helem x). rewrite elem_of_nil in Helem. apply Helem. now left.
  - destruct (given_ports given) as [v|].
    + pose proof (validate_ports_run v) as Hv. rewrite Hp in Hv. tauto.
    + injection Hp as <-. simpl. repeat constructor.
  - destruct (given_ports given) as [v|].
    + pose proof (validate_ports_run v) as Hv. rewrite Hp in Hv.
      destruct Hv as (_ & Hrange & Helem & _).
      apply Forall_forall. intros p Hpin. rewrite Forall_forall in Hrange.
      now apply Hrange, Helem.
    + injection Hp as <-. repeat constructor; lia.
  - destruct (given_rate given); [now apply ge_run in Hr | injection Hr as <-; lia].
  - destruct (given_timeout given); [now apply ge_run in Hto | injection Hto as <-; lia].
  - destruct (given_threads given); [now apply ge_run in Hth | injection Hth as <-; lia].
Qed.

Lemma validate_if_enabled_run enabled v v' :
  validate_if_enabled enabled v = Ok v' -> v' = v /\ (enabled = true -> falsy v = false).
Proof.
  unfold validate_if_enabled. destruct enabled, (falsy v); simpl;
    try discriminate; intros [= <-]; auto.
Qed.

Lemma new_AppConfig_valid raw config :
  new_AppConfig raw = Ok config ->
  scan_targets (scan config) <> [] /\
  scan_ports (scan config) <> [] /\
  increasing (scan_ports (scan config)) /\
  Forall port_in_range (scan_ports (scan config)) /\
  (10 <= scan_rate (scan config))%Z /\
  (30 <= scan_timeout (scan config))%Z /\
  (1 <= scan_threads (scan config))%Z /\
  (database_type (database config) = "sqlite" \/
   database_type (database config) = "json") /\
  (telegram_on (telegram (notifications config)) = true ->
   falsy (telegram_token (telegram (notifications config))) = false /\
   falsy (telegram_chat_id (telegram (notifications config))) = false) /\
  port_in_range (dashboard_port (dashboard config)).
Proof.
  unfold new_AppConfig. intros H.
  apply bind_result_ok in H as (sc & Hsc & H).
  apply bind_result_ok in H as (dbc & Hdb & H).
  apply bind_result_ok in H as (sch & _ & H).
  apply bind_result_ok in H as (nc & Hnc & H).
  apply bind_result_ok in H as (cc & _ & H).
  apply bind_result_ok in H as (dc & Hdc & [= <-]). simpl.
  apply new_ScanConfig_valid in Hsc as (H1 & H2 & H3 & H4 & H5 & H6 & H7).
  repeat (split; [assumption|]). split; [|split].
  - unfold new_DatabaseConfig in Hdb.
    apply bind_result_ok in Hdb as (ty & Hty & [= <-]). simpl.
    destruct (given_type _) as [v|]; [|injection Hty as <-; now left].
    unfold validate_type in Hty.
    destruct (String.eqb v "sqlite") eqn:Hsqlite; simpl in Hty.
    { injection Hty as <-. left. now apply String.eqb_eq. }
    destruct (String.eqb v "json") eqn:Hjson; [|discriminate].
    injection Hty as <-. right. now apply String.eqb_eq.
  - unfold new_NotificationsConfig in Hnc.
    apply bind_result_ok in Hnc as (tg & Htg & Hnc).
    apply bind_result_ok in Hnc as (em & _ & Hnc).
    apply bind_result_ok in Hnc as (di & _ & [= <-]). simpl.
    unfold new_TelegramNotifyConfig in Htg.
    apply bind_result_ok in Htg as (tok & Htok & Htg).
    apply bind_result_ok in Htg as (chat & Hchat & [= <-]). simpl.
    apply validate_if_enabled_run in Htok as [-> Htok].
    apply validate_if_enabled_run in Hchat as [-> Hchat]. auto.
  - unfold new_DashboardConfig in Hdc.
    apply bind_result_ok in Hdc as (port & Hport & [= <-]). simpl.
    destruct (given_port _) as [v|]; [|injection Hport as <-; unfold port_in_range; lia].
    apply bind_result_ok in Hport as (v' & Hge & Hle).
    pose proof Hge as Hge'. apply ge_run in Hge'.
    unfold ge in Hge. destruct (1 <=? v)%Z; [injection Hge as <-|discriminate].
    apply le_run in Hle as [-> Hle]. unfold port_in_range. lia.
Qed.

(** X20.  Every configuration that [load] hands out from an empty
    manager, read from a file or made of the defaults, is valid: there is
    at least one target and one port, the ports are in range, in strictly
    ascending order and without duplicates, rate, timeout and threads are
    at least 10, 30 and 1, the storage type is [sqlite] or [json], the
    dashboard port is in range, and a Telegram channel that is enabled
    has a token and a chat identifier. *)
Theorem loaded_configuration_is_valid
        (fs : string -> config_file) (path : string)
        (config : AppConfig) (cache' : option AppConfig) :
  ConfigManager.load fs path None = (Ok config, cache') ->
  scan_targets (scan config) <> [] /\
  scan_ports (scan config) <> [] /\
  increasing (scan_ports (scan config)) /\
  Forall port_in_range (scan_ports (scan config)) /\
  (10 <= scan_rate (scan config))%Z /\
  (30 <= scan_timeout (scan config))%Z /\
  (1 <= scan_threads (scan config))%Z /\
  (database_type (database config) = "sqlite" \/
   database_type (database config) = "json") /\
  (telegram_on (telegram (notifications config)) = true ->
   falsy (telegram_token (telegram (notifications config))) = false /\
   falsy (telegram_chat_id (telegram (notifications config))) = false) /\
  port_in_range (dashboard_port (dashboard config)).
Proof.
  unfold ConfigManager.load, World.get. unfold mbind at 1, M_bind at 1. cbv beta iota.
  destruct (fs path) as [|e|raw]; [| discriminate |].
  - destruct (new_AppConfig empty_config) as [c|e] eqn:Hnew; [|discriminate].
    intros [= <- _]. now apply new_AppConfig_valid in Hnew.
  - destruct (new_AppConfig raw) as [c|e] eqn:Hnew; [|discriminate].
    intros [= <- _]. now apply new_AppConfig_valid in Hnew.
Qed.

(** Without a file the defaults are loaded. *)
Lemma loaded_configuration_is_valid_witness :
  scan_ports (scan (mkAppConfig
                      (mkScanConfig ["192.168.1.0/24"] [21; 22; 80; 443]%Z 1000 300 4)
                      (mkDatabaseConfig "sqlite" "scan_history.db")
                      (mkScheduleConfig true "0 */4 * * *")
                      (mkNotificationsConfig
                         (mkTelegramNotifyConfig false None None)
                         (mkEmailNotifyConfig false None None None None None)
                         (mkDiscordNotifyConfig false None))
                      (mkCVECheckConfig false None)
                      (mkDashboardConfig true "127.0.0.1" 5000 false))) <> [].
Proof.
  apply (loaded_configuration_is_valid (fun _ => Missing) "config.yaml" _ _ eq_refl).
Defined.

End Configuration.

(** *** From the configuration to the channels *)

Section ConfiguredChannels.
Import World Observe Config.

Lemma falsy_false v : falsy v = false -> exists s, v = Some s /\ Py.truthy s = true.
Proof.
  destruct v as [s|]; simpl; [|discriminate].
  intros H. exists s. split; [reflexivity|]. now apply negb_false_iff.
Qed.

(** X21.  A Telegram channel that is enabled in a configuration that
    passed validation is never dropped when the channels are set up: the
    manager built from the dumped configuration holds the Telegram sender,
    with the configured token and chat, as its first channel, whatever
    the other sections say. *)
Theorem enabled_telegram_channel_is_set_up
        (raw : raw_config) (config : AppConfig)
        (em : option Notify.email_section) (dc : option Notify.discord_section) :
  new_AppConfig raw = Ok config ->
  telegram_on (telegram (notifications config)) = true ->
  exists token chat_id rest,
    telegram_token (telegram (notifications config)) = Some token /\
    telegram_chat_id (telegram (notifications config)) = Some chat_id /\
    Notify.notifiers
      (Notify.create_notification_manager
         {| Notify.cfg_telegram := Some (dump_telegram (telegram (notifications config)));
            Notify.cfg_email := em;
            Notify.cfg_discord := dc |})
    = Notify.Notifier (Notify.new_TelegramNotifier token chat_id) :: rest.
Proof.
  intros Hnew Hon.
  destruct (new_AppConfig_valid raw config Hnew) as (_ & _ & _ & _ & _ & _ & _ & _ & Htg & _).
  destruct (Htg Hon) as [Htok Hchat].
  apply falsy_false in Htok as (token & Htok & Htt).
  apply falsy_false in Hchat as (chat_id & Hchat & Htc).
  exists token, chat_id.
  unfold Notify.create_notification_manager, dump_telegram. simpl.
  rewrite Hon, Htok, Hchat. simpl.
  assert (Hfirst : Notify.add_notifier Notify.new_NotificationManager
                     (Notify.Notifier (Notify.new_TelegramNotifier token chat_id))
                   = Notify.mkManager
                       [Notify.Notifier (Notify.new_TelegramNotifier token chat_id)]).
  { unfold Notify.add_notifier. simpl. now rewrite Htt, Htc. }
  rewrite Hfirst.
  destruct em as [e|]; [destruct (Notify.em_enabled e)|];
    (destruct dc as [d|]; [destruct (Notify.dc_enabled d)|]);
    rewrite ?add_notifier_notifiers;
    repeat match goal with
           | |- context [if ?b then _ else _] => destruct b
           end;
    simpl; eauto.
Qed.

Lemma enabled_telegram_channel_is_set_up_witness :
  exists token chat_id rest,
    Some "123:abc" = Some token /\
    Some "42" = Some chat_id /\
    Notify.notifiers
      (Notify.create_notification_manager
         {| Notify.cfg_telegram :=
              Some (dump_telegram (mkTelegramNotifyConfig true (Some "123:abc") (Some "42")));
            Notify.cfg_email := None;
            Notify.cfg_discord := None |})
    = Notify.Notifier (Notify.new_TelegramNotifier token chat_id) :: rest.
Proof.
  exact (enabled_telegram_channel_is_set_up
           {| raw_scan := None; raw_database := None; raw_schedule := None;
              raw_notifications :=
                Some {| given_telegram :=
                          Some {| given_telegram_enabled := Some true;
                                  given_token := Some "123:abc";
                                  given_chat_id := Some "42" |};
                        given_email := None; given_discord := None |};
              raw_cve_check := None; raw_dashboard := None |}
           _ None None eq_refl eq_refl).
Defined.

End ConfiguredChannels.

(** *** The table of known vulnerabilities *)

Section KnownVulnerabilities.
Import Observe CVEChecker.

Lemma prefix_split (n h : string) :
  String.prefix n h = true -> exists post, h = n +:+ post.
Proof.
  revert h. induction n as [|a n IH]; intros h; simpl.
  - intros _. now exists h.
  - destruct h as [|b h]; [discriminate|].
    change (String.prefix (String a n) (String b h))
      with (if ascii_dec a b then String.prefix n h else false).
    destruct (ascii_dec a b) as [->|_]; [|discriminate].
    intros H. destruct (IH h H) as [post ->]. now exists post.
Qed.

(** [needle in hay] holds only if [hay] has [needle] as a part. *)
Lemma contains_split (n h : string) :
  Py.contains n h = true -> exists pre post, h = pre +:+ n +:+ post.
Proof.
  induction h as [|b h IH]; unfold Py.contains; fold Py.contains.
  - rewrite orb_false_r. intros H. apply prefix_split in H as [post ->]. now exists "", post.
  - intros H. apply orb_true_iff in H as [H|H].
    + apply prefix_split in H as [post ->]. now exists "", post.
    + destruct (IH H) as (pre & post & ->). now exists (String b pre), post.
Qed.

(** X22.  For the service [OpenSSH] the table of known vulnerabilities is
    matched only by a banner that holds the text [3.x] or [4.x] itself:
    a banner without the letter [x] is never reported, whatever version
    it names. *)
Theorem known_openssh_versions_are_never_matched (banner : string) :
  any_char (Ascii.eqb "x") banner = false ->
  check_known_vulnerabilities "OpenSSH" banner = [].
Proof.
  intros Hx. unfold check_known_vulnerabilities. simpl.
  assert (Hno : forall v, any_char (Ascii.eqb "x") v = true -> Py.contains v banner = false).
  { intros v Hv. destruct (Py.contains v banner) eqn:Hc; [|reflexivity].
    apply contains_split in Hc as (pre & post & ->).
    rewrite !any_char_app, Hv in Hx. now rewrite orb_true_r in Hx. }
  now rewrite !Hno.
Qed.

Lemma known_openssh_versions_are_never_matched_witness :
  check_known_vulnerabilities "OpenSSH" "SSH-2.0-OpenSSH_3.9p1" = [].
Proof.
  apply (known_openssh_versions_are_never_matched "SSH-2.0-OpenSSH_3.9p1"). reflexivity.
Defined.

End KnownVulnerabilities.

(** *** The service of a port *)

Section ServiceName.
Import Observe Utils.

Lemma lower_str_append (a b : string) :
  Py.lower_str (a +:+ b) = Py.lower_str a +:+ Py.lower_str b.
Proof.
  induction a as [|x a IH]; [reflexivity|]. rewrite append_cons. simpl. now rewrite IH.
Qed.

Lemma prefix_append (n post : string) : String.prefix n (n +:+ post) = true.
Proof.
  induction n as [|a n IH]; [now destruct post|].
  rewrite append_cons.
  change (String.prefix (String a n) (String a (n +:+ post)))
    with (if ascii_dec a a then String.prefix n (n +:+ post) else false).
  now destruct (ascii_dec a a).
Qed.

Lemma contains_append (n pre post : string) : Py.contains n (pre +:+ n +:+ post) = true.
Proof.
  induction pre as [|a pre IH].
  - rewrite append_nil. destruct (n +:+ post) eqn:Hs; unfold Py.contains; fold Py.contains;
      rewrite <- Hs, prefix_append; reflexivity.
  - rewrite append_cons. unfold Py.contains; fold Py.contains.
    rewrite IH. apply orb_true_r.
Qed.

(** The first entry of a list that passes a test is the one that [find]
    returns. *)
Lemma find_first {A} (f : A -> bool) (l : list A) i x :
  l !! i = Some x -> f x = true ->
  (forall j y, j < i -> l !! j = Some y -> f y = false) ->
  List.find f l = Some x.
Proof.
  revert i. induction l as [|y l IH]; intros [|i] Hi Hx Hbefore; try discriminate.
  - injection Hi as ->. simpl. now rewrite Hx.
  - simpl. rewrite (Hbefore 0 y) by (simpl; auto; lia).
    apply (IH i); [exact Hi | exact Hx|].
    intros j z Hj Hz. apply (Hbefore (S j) z); [lia | exact Hz].
Qed.

Lemma find_nothing {A} (f : A -> bool) (l : list A) :
  (forall x, x ∈ l -> f x = false) -> List.find f l = None.
Proof.
  induction l as [|y l IH]; intros H; simpl; [reflexivity|].
  rewrite (H y) by now left. apply IH. intros x Hx. apply H. now right.
Qed.

Lemma banner_lower (banner : string) :
  (if Py.truthy banner then Py.lower_str banner else "") = Py.lower_str banner.
Proof. now destruct banner. Qed.

(** X23.  [get_service_name] reads the banner before the port: without a
    banner, or with a banner that names none of the twelve products, it
    answers from the port table, ["Unknown"] for a port that is not
    listed; a banner that holds a product keyword, in any letter case and
    anywhere, is answered with that product whatever the port is, the
    first keyword of the table winning when several occur. *)
Theorem get_service_name_reads_the_banner_first (port : Z) :
  get_service_name port "" = default "Unknown" (COMMON_SERVICES !! port) /\
  (forall banner,
      (forall kw sv, (kw, sv) ∈ service_keywords ->
                     Py.contains kw (Py.lower_str banner) = false) ->
      get_service_name port banner = default "Unknown" (COMMON_SERVICES !! port)) /\
  (forall i keyword service pre mid post,
      service_keywords !! i = Some (keyword, service) ->
      Py.lower_str mid = keyword ->
      (forall j kw sv, j < i -> service_keywords !! j = Some (kw, sv) ->
                       Py.contains kw (Py.lower_str (pre +:+ mid +:+ post)) = false) ->
      get_service_name port (pre +:+ mid +:+ post) = service).
Proof.
  split; [reflexivity|]. split.
  - intros banner Hnone. unfold get_service_name. rewrite banner_lower.
    rewrite find_nothing; [reflexivity|]. intros [kw sv] Hin. now apply (Hnone kw sv).
  - intros i keyword service pre mid post Hi Hmid Hbefore.
    unfold get_service_name. rewrite banner_lower.
    rewrite (find_first _ _ i (keyword, service)); [reflexivity | exact Hi | |].
    + simpl. rewrite !lower_str_append, Hmid. apply contains_append.
    + intros j [kw sv] Hj Hkw. simpl. now apply (Hbefore j kw sv).
Qed.

Lemma get_service_name_reads_the_banner_first_witness :
  get_service_name 22 ("Server: " +:+ "NGINX" +:+ "/1.18.0") = "Nginx".
Proof.
  apply (proj2 (proj2 (get_service_name_reads_the_banner_first 22))
           1 "nginx" "Nginx" "Server: " "NGINX" "/1.18.0"); [reflexivity | reflexivity|].
  intros [|j] kw sv Hj Hkw; [|lia]. injection Hkw as <- _. reflexivity.
Defined.

End ServiceName.

(** *** What the senders answer *)

Section Senders.
Import World Env Observe Notify.

(** X24.  The three senders never raise and never change the world, and
    they answer [True] only for a delivery that went through: the
    Telegram sender when it is enabled and the request is answered with
    status 200, the Discord sender when it is enabled and the status is
    200 or 204, the e-mail sender when it is enabled and the SMTP dialogue
    does not raise.  Every failure, and a disabled sender, is [False]. *)
Theorem senders_answer_true_only_on_delivery (E : env) (message : string) (w : world) :
  (forall self : TelegramNotifier,
      exists b,
        telegram_send self E message w = (Ok b, w) /\
        (b = true <-> telegram_enabled self = true /\
                      http_post E (api_url self +:+ "/sendMessage") = inr 200%Z)) /\
  (forall self : DiscordNotifier,
      exists b,
        discord_send self E message w = (Ok b, w) /\
        (b = true <-> discord_enabled self = true /\
                      (http_post E (webhook_url self) = inr 200%Z \/
                       http_post E (webhook_url self) = inr 204%Z))) /\
  (forall self : EmailNotifier,
      exists b,
        email_send self E message w = (Ok b, w) /\
        (b = true <-> email_enabled self = true /\ smtp_send E = None)).
Proof.
  split; [|split]; intros self.
  - unfold telegram_send, try_except, post. unfold mbind, M_bind.
    destruct (telegram_enabled self); simpl.
    + destruct (http_post E _) as [e|status]; simpl.
      * exists false. split; [reflexivity|]. split; [discriminate | intros [_ H]; discriminate].
      * destruct (Z.eqb_spec status 200) as [->|Hne]; eexists; (split; [reflexivity|]).
        -- tauto.
        -- split; [discriminate | intros [_ [= H]]; contradiction].
    + exists false. split; [reflexivity|]. split; [discriminate | intros [H _]; discriminate].
  - unfold discord_send, try_except, post. unfold mbind, M_bind.
    destruct (discord_enabled self); simpl.
    + destruct (http_post E _) as [e|status]; simpl.
      * exists false. split; [reflexivity|].
        split; [discriminate | intros [_ [H|H]]; discriminate].
      * destruct (Z.eqb_spec status 200) as [->|Hne]; simpl.
        { exists true. split; [reflexivity|]. tauto. }
        destruct (Z.eqb_spec status 204) as [->|Hne']; simpl.
        { exists true. split; [reflexivity|]. tauto. }
        exists false. split; [reflexivity|].
        split; [discriminate | intros [_ [[= H]|[= H]]]; contradiction].
    + exists false. split; [reflexivity|]. split; [discriminate | intros [H _]; discriminate].
  - unfold email_send, _send_sync, try_except. unfold mbind, M_bind.
    destruct (email_enabled self); simpl.
    + destruct (smtp_send E) as [e|]; simpl; eexists; (split; [reflexivity|]).
      * split; [discriminate | intros [_ H]; discriminate].
      * tauto.
    + exists false. split; [reflexivity|]. split; [discriminate | intros [H _]; discriminate].
Qed.

End Senders.

(** *** The dashboard *)

Section DashboardResults.
Import Models World Disk Env Observe Storage Dashboard.

Lemma newest_first_split (a b : list ScanResult) :
  newest_first (a ++ b) ->
  forall r r', r ∈ a -> r' ∈ b -> timestamp r' <= timestamp r.
Proof.
  induction a as [|x a IH]; simpl; intros Hnf r r' Hr Hr'.
  - now apply elem_of_nil in Hr.
  - destruct Hnf as [Hx Hnf]. apply elem_of_cons in Hr as [->|Hr].
    + rewrite Forall_forall in Hx. apply Hx, elem_of_app. now right.
    + now apply IH.
Qed.

(** X25.  [/api/results] never raises.  For a limit that is not negative
    it shows that many results (all of them when there are fewer): with
    the SQLite backend these are the newest ones, none of the results
    left out being newer than one that is shown; with the JSON backend
    they are the results that were stored first. *)
Theorem api_results_shows_the_first_results (limit : Z) (w : world) :
  (0 <= limit)%Z ->
  (forall get_all_results,
      exists answer, fst (api_results get_all_results limit w) = Ok answer) /\
  (forall store : SQLite.SQLiteStorage,
      fault (db w) = None ->
      Forall valid_row (scan_results (db w)) ->
      exists shown hidden,
        api_results (SQLite.get_all_results store) limit w
        = (Ok (Results (map result_json_of shown)), w) /\
        length shown = Nat.min (Z.to_nat limit) (length (scan_results (db w))) /\
        shown ++ hidden ≡ₚ map row_result (scan_results (db w)) /\
        (forall r r', r ∈ shown -> r' ∈ hidden -> timestamp r' <= timestamp r)) /\
  (forall store : JSON.JSONStorage,
      is_document w ->
      Forall valid_dict (doc_results (document w)) ->
      api_results (JSON.get_all_results store) limit w
      = (Ok (Results (map result_json_of
                          (firstn (Z.to_nat limit)
                                  (map dict_result (doc_results (document w)))))),
         w)).
Proof.
  intros Hlimit.
  assert (Hslice : forall (l : list ScanResult),
             Py.slice_to limit l = firstn (Z.to_nat limit) l).
  { intros l. unfold Py.slice_to. destruct (Z.ltb_spec limit 0); [lia | reflexivity]. }
  split; [|split].
  - intros g. unfold api_results, try_except. unfold mbind, M_bind.
    destruct (g w) as [[rs|e] w']; simpl; eauto.
  - intros store Hfault Hrows.
    set (all := map row_result (sort_by_time_desc r_timestamp (rev (scan_results (db w))))).
    exists (firstn (Z.to_nat limit) all), (skipn (Z.to_nat limit) all).
    split; [|split; [|split]].
    + unfold api_results, try_except.
      erewrite bind_ok by (apply sqlite_get_all_results_run; assumption).
      now rewrite Hslice.
    + rewrite length_take. unfold all.
      now rewrite length_map, (Permutation_length (sort_by_time_desc_perm _ _)),
        length_rev.
    + rewrite take_drop. apply fmap_Permutation.
      now rewrite sort_by_time_desc_perm, <- Permutation_rev.
    + apply newest_first_split. rewrite take_drop. apply newest_first_sort.
  - intros store Hdoc Hrows. unfold api_results, try_except.
    erewrite bind_ok by (apply json_get_all_results_run; assumption).
    now rewrite Hslice.
Qed.

Lemma api_results_shows_the_first_results_witness :
  exists shown hidden,
    api_results (SQLite.get_all_results Scenario.the_database) 1 Scenario.seen_in_database
    = (Ok (Results (map result_json_of shown)), Scenario.seen_in_database) /\
    length shown = 1 /\
    shown ++ hidden ≡ₚ map row_result (scan_results (db Scenario.seen_in_database)) /\
    (forall r r', r ∈ shown -> r' ∈ hidden -> timestamp r' <= timestamp r).
Proof.
  apply (proj1 (proj2 (api_results_shows_the_first_results 1 Scenario.seen_in_database
                         ltac:(lia)))
           Scenario.the_database eq_refl).
  repeat constructor.
Defined.

End DashboardResults.

(** *** New results and new rows *)

Section NewRows.
Import Models World Disk Env Observe Storage.

Lemma save_result_count E sid pre r rs s w :
  fault (db w) = None ->
  results s = pre ++ r :: rs ->
  is_new r = true ->
  exists r' w',
    SQLite.save_result E sid (length pre, r) (s, w)
    = (Ok tt, (set_results (pre ++ r' :: rs) s, w')) /\
    fault (db w') = None /\
    length (scan_results (db w'))
    = length (scan_results (db w)) + (if is_new r' then 1 else 0).
Proof.
  intros Hfault Hres Hnew.
  unfold SQLite.save_result, uuid4, try_except, zoom, assign, SQLite.execute, raise.
  unfold mbind, M_bind. simpl. rewrite Hfault.
  unfold SQLite.insert_result at 1. simpl.
  set (row := SQLite.result_row_of _ sid r).
  destruct (SQLite.violates row (scan_results (db w))) eqn:Hv; simpl.
  - exists (set_is_new false r), (set_uuid_count (S (uuid_count w)) w).
    split; [|split; [exact Hfault | simpl; lia]].
    unfold SQLite.mark_not_new. rewrite Hres.
    replace (length pre) with (length pre + 0) by lia.
    rewrite alter_app_r. simpl. destruct w; reflexivity.
  - exists r. eexists. split.
    { rewrite <- Hres, set_results_same. reflexivity. }
    split; [exact Hfault|]. simpl. rewrite Hnew, length_app. reflexivity.
Qed.

Lemma save_loop_count E sid rs :
  forall pre s w,
    fault (db w) = None ->
    results s = pre ++ rs ->
    Forall (fun r => is_new r = true) rs ->
    exists rs' w',
      for_each (imap (fun i r => (length pre + i, r)) rs) (SQLite.save_result E sid) (s, w)
      = (Ok tt, (set_results (pre ++ rs') s, w')) /\
      fault (db w') = None /\
      length (scan_results (db w'))
      = length (scan_results (db w)) + length (List.filter is_new rs').
Proof.
  induction rs as [|r rs IH]; intros pre s w Hfault Hres Hnew.
  - exists [], w. simpl. rewrite <- Hres, set_results_same.
    split; [reflexivity|]. split; [exact Hfault | lia].
  - apply Forall_cons in Hnew as [Hr Hrs].
    rewrite imap_cons. simpl for_each. rewrite Nat.add_0_r.
    destruct (save_result_count E sid pre r rs s w Hfault Hres Hr)
      as (r' & w1 & Hstep & Hfault1 & Hcount).
    unfold mbind at 1, M_bind at 1. rewrite Hstep.
    destruct (IH (pre ++ [r']) (set_results (pre ++ r' :: rs) s) w1 Hfault1)
      as (rs' & w2 & Hloop & Hfault2 & Hcount2).
    { simpl. now rewrite <- app_assoc. }
    { exact Hrs. }
    exists (r' :: rs'), w2. split; [|split; [exact Hfault2|]].
    + rewrite (imap_ext _ (fun i r0 => (length (pre ++ [r']) + i, r0))).
      * rewrite Hloop. rewrite set_results_twice, <- app_assoc. reflexivity.
      * intros i x _. simpl. rewrite length_app. simpl. f_equal. lia.
    + rewrite Hcount2, Hcount. simpl. destruct (is_new r'); simpl; lia.
Qed.

(** X26.  With the SQLite backend the results that a save leaves flagged
    as new are the rows it has added: for a session whose results all come
    in with [is_new] set, as the scanner makes them, the number of results
    that still have [is_new] set after [save_scan_session] is the number
    of rows by which the result table has grown. *)
Theorem sqlite_new_results_are_the_rows_added
        (store : SQLite.SQLiteStorage) (E : env) (session : ScanSession) (w : world) :
  fault (db w) = None ->
  Forall (fun r => is_new r = true) (results session) ->
  exists session',
    fst (SQLite.save_scan_session store E session w) = Ok (true, session') /\
    length (scan_results (db (snd (SQLite.save_scan_session store E session w))))
    = length (scan_results (db w)) + length (List.filter is_new (results session')).
Proof.
  intros Hfault Hnew.
  set (w1 := set_db (mkDb (filter (fun s => s_id s ≠ id session) (scan_sessions (db w))
                           ++ [SQLite.session_row_of session])
                          (scan_results (db w)) (fault (db w))) w).
  assert (Hfault1 : fault (db w1) = None) by exact Hfault.
  destruct (save_loop_count E (id session) (results session) [] session w1
              Hfault1 eq_refl Hnew) as (rs' & w2 & Hloop & _ & Hcount).
  rewrite (imap_ext _ pair) in Hloop by (intros i x _; reflexivity).
  assert (Hupsert :
    zoom (SQLite.execute (SQLite.upsert_session (SQLite.session_row_of session)))
         (session, w) = (Ok tt, (session, w1))).
  { unfold zoom, SQLite.execute, w1. simpl. now rewrite Hfault. }
  assert (Hsave : SQLite.save_scan_session store E session w
                  = (Ok (true, set_results rs' session), w2)).
  { unfold SQLite.save_scan_session. connected Hfault.
    unfold mbind at 1, M_bind at 1. simpl.
    match goal with
    | |- with_local session (?blk ≫= _) w = _ =>
        assert (Hblock : blk (session, w) = (Ok true, (set_results rs' session, w2)))
    end.
    { unfold try_except.
      erewrite bind_ok by exact Hupsert.
      erewrite bind_ok by exact Hloop.
      reflexivity. }
    unfold with_local. erewrite bind_ok by exact Hblock. reflexivity. }
  exists (set_results rs' session). rewrite Hsave. simpl.
  split; [reflexivity | exact Hcount].
Qed.

Lemma sqlite_new_results_are_the_rows_added_witness :
  exists session',
    fst (SQLite.save_scan_session Scenario.the_database Scenario.quiet
                                  Scenario.second_session Scenario.seen_in_database)
    = Ok (true, session') /\
    length (scan_results
              (db (snd (SQLite.save_scan_session Scenario.the_database Scenario.quiet
                          Scenario.second_session Scenario.seen_in_database))))
    = 2 + length (List.filter is_new (results session')).
Proof.
  apply (sqlite_new_results_are_the_rows_added Scenario.the_database Scenario.quiet
           Scenario.second_session Scenario.seen_in_database eq_refl).
  repeat constructor.
Defined.

End NewRows.

(** *** The history of scans *)

Section History.
Import Models World Disk Env Observe Storage.

Lemma descending_insert {A} (time : A -> datetime) x l :
  descending time l -> descending time (insert_by_time time x l).
Proof.
  induction l as [|y l IH]; simpl; [auto|].
  intros [Hy Hl]. destruct (Nat.leb_spec (time y) (time x)) as [Hle|Hgt]; simpl.
  - split; [|auto]. constructor; [exact Hle|].
    eapply Forall_impl; [exact Hy|]. simpl. intros z Hz. lia.
  - split; [|auto]. apply Forall_forall. intros z Hz.
    rewrite insert_by_time_perm in Hz. apply elem_of_cons in Hz as [->|Hz]; [lia|].
    rewrite Forall_forall in Hy. now apply Hy.
Qed.

Lemma descending_sort {A} (time : A -> datetime) l :
  descending time (sort_by_time_desc time l).
Proof.
  induction l as [|x l IH]; simpl; [exact I|]. now apply descending_insert.
Qed.

(** The loop of [get_scan_history], over a way [g] of reading one session
    that, in the world at hand, returns and changes nothing: the sessions
    that are found are collected in order. *)
Lemma history_loop {A} (key : A -> string) (g : string -> M world (option ScanSession))
      (w : world) :
  (forall sid, exists o, g sid w = (Ok o, w)) ->
  forall xs acc,
    for_each xs (fun x => session ← zoom (g (key x));
                          match session with
                          | Some session => assign (fun sessions => sessions ++ [session])
                          | None => mret tt
                          end) (acc, w)
    = (Ok tt, (acc ++ omap (fun x => found (fst (g (key x) w))) xs, w)).
Proof.
  intros Hg. induction xs as [|x xs IH]; intros acc; simpl.
  - now rewrite app_nil_r.
  - unfold mbind, M_bind, zoom in IH |- *. simpl.
    destruct (Hg (key x)) as [o Ho]. rewrite Ho. cbn.
    destruct o as [s|]; simpl.
    + rewrite IH, <- app_assoc. reflexivity.
    + apply IH.
Qed.

(** On a database that can be opened, [get_scan_session] returns: every
    failure of a statement or of a constructor gives [None]. *)
Lemma sqlite_get_scan_session_total (store : SQLite.SQLiteStorage) sid w :
  can_connect w -> exists o, SQLite.get_scan_session store sid w = (Ok o, w).
Proof.
  intros Hopen.
  pose proof (sqlite_get_scan_session_unchanged store sid w) as Hw.
  assert (Hconn : SQLite._get_connection store w = (Ok tt, w)).
  { unfold can_connect in Hopen. unfold SQLite._get_connection.
    now destruct (fault (db w)) as [[msg|msg]|]. }
  assert (Hrun : exists o w', SQLite.get_scan_session store sid w = (Ok o, w')).
  { unfold SQLite.get_scan_session. unfold mbind at 1, M_bind at 1.
    rewrite Hconn. unfold try_except.
    match goal with
    | |- context [(?m ≫= ?k) w] => destruct ((m ≫= k) w) as [[o|e] w']
    end; simpl; eauto. }
  destruct Hrun as (o & w' & Hrun). rewrite Hrun in Hw. simpl in Hw. subst w'. eauto.
Qed.

(** A stored session whose status and whose results the constructors
    accept is found. *)
Lemma sqlite_session_found (store : SQLite.SQLiteStorage) w row :
  fault (db w) = None ->
  Forall (fun s => is_Some (status_of_value (s_status s))) (scan_sessions (db w)) ->
  Forall valid_row (scan_results (db w)) ->
  row ∈ scan_sessions (db w) ->
  is_Some (found (fst (SQLite.get_scan_session store (s_id row) w))).
Proof.
  intros Hfault Hst Hrows Hrow.
  destruct (List.find (fun s => String.eqb (s_id s) (s_id row)) (scan_sessions (db w)))
    as [row'|] eqn:Hfind.
  - pose proof Hfind as Hin. apply find_some in Hin as [Hin _].
    rewrite List.Forall_forall in Hst. destruct (Hst row' Hin) as [st Hst'].
    rewrite (sqlite_get_run store (s_id row) w row' st Hfault Hfind Hst'); [now eexists|].
    apply Forall_forall. intros r Hr. apply list_elem_of_filter in Hr as [_ Hr].
    rewrite Forall_forall in Hrows. now apply Hrows.
  - exfalso. apply list_elem_of_In in Hrow.
    pose proof (find_none _ _ Hfind row Hrow) as Hno. simpl in Hno.
    now rewrite String.eqb_refl in Hno.
Qed.

Lemma json_get_scan_session_total (store : JSON.JSONStorage) sid w :
  is_document w ->
  Forall (fun s => is_Some (status_of_value (sd_status s))) (doc_sessions (document w)) ->
  Forall valid_dict (doc_results (document w)) ->
  exists o, JSON.get_scan_session store sid w = (Ok o, w) /\
            (is_Some (List.find (fun s => String.eqb (sd_id s) sid)
                                (doc_sessions (document w))) -> is_Some o).
Proof.
  intros Hdoc Hst Hrows.
  destruct (List.find (fun s => String.eqb (sd_id s) sid) (doc_sessions (document w)))
    as [d|] eqn:Hfind.
  - pose proof Hfind as Hin. apply find_some in Hin as [Hin _].
    rewrite List.Forall_forall in Hst. destruct (Hst d Hin) as [st Hst'].
    rewrite (json_get_run store sid w d st Hdoc Hfind Hst' Hrows). eauto.
  - exists None. split; [|now intros [? ?]].
    unfold JSON.get_scan_session.
    erewrite bind_ok by (apply load_data_document; exact Hdoc).
    erewrite bind_ok by reflexivity. now rewrite Hfind.
Qed.

(** X27.  [get_scan_history] gives the most recent sessions, as
    [get_scan_session] reads them.  With [recent] the stored sessions in
    descending order of their start time:
    - SQLite backend, on a working database and for a limit that fits an
      INTEGER: the history is, in order, what [get_scan_session] finds for
      the first [limit] sessions of [recent] (for all of them when the
      limit is negative); a session that cannot be read is left out, and
      none is when the constructors accept every stored status and result;
    - a limit that does not fit an INTEGER, or failing statements, give
      the empty history; a database that cannot be opened makes the call
      raise;
    - JSON backend, on a file that holds a document whose statuses and
      results the constructors accept: the history is, in order, what
      [get_scan_session] finds for [recent[:limit]], and every session of
      that slice is found; on a file that holds no document the call
      raises.
    Nothing is changed by the call. *)
Theorem get_scan_history_is_recent_and_bounded (limit : Z) (w : world) :
  (forall store : SQLite.SQLiteStorage,
      fault (db w) = None ->
      (- 2 ^ 63 <= limit < 2 ^ 63)%Z ->
      exists recent,
        recent ≡ₚ scan_sessions (db w) /\
        descending s_start_time recent /\
        SQLite.get_scan_history store limit w
        = (Ok (omap (fun row => found (fst (SQLite.get_scan_session store (s_id row) w)))
                    (if (limit <? 0)%Z then recent else firstn (Z.to_nat limit) recent)),
           w) /\
        (Forall (fun s => is_Some (status_of_value (s_status s))) (scan_sessions (db w)) ->
         Forall valid_row (scan_results (db w)) ->
         forall row, row ∈ recent ->
                     is_Some (found (fst (SQLite.get_scan_session store (s_id row) w))))) /\
  (forall store : SQLite.SQLiteStorage,
      can_connect w ->
      ~ (- 2 ^ 63 <= limit < 2 ^ 63)%Z ->
      SQLite.get_scan_history store limit w = (Ok [], w)) /\
  (forall (store : SQLite.SQLiteStorage) (msg : string),
      fault (db w) = Some (CannotExecute msg) ->
      SQLite.get_scan_history store limit w = (Ok [], w)) /\
  (forall (store : SQLite.SQLiteStorage) (msg : string),
      fault (db w) = Some (CannotOpen msg) ->
      SQLite.get_scan_history store limit w = (Raise (mkExn OtherException msg), w)) /\
  (forall store : JSON.JSONStorage,
      is_document w ->
      Forall (fun s => is_Some (status_of_value (sd_status s))) (doc_sessions (document w)) ->
      Forall valid_dict (doc_results (document w)) ->
      exists recent,
        recent ≡ₚ doc_sessions (document w) /\
        descending sd_start_time recent /\
        JSON.get_scan_history store limit w
        = (Ok (omap (fun d => found (fst (JSON.get_scan_session store (sd_id d) w)))
                    (Py.slice_to limit recent)),
           w) /\
        (forall d, d ∈ recent ->
                   is_Some (found (fst (JSON.get_scan_session store (sd_id d) w))))) /\
  (forall (store : JSON.JSONStorage) (getitem : string -> exn),
      content (json w) = Foreign getitem ->
      JSON.get_scan_history store limit w = (Raise (getitem "sessions"), w)).
Proof.
  assert (Hw : set_db (db w) w = w) by now destruct w.
  split; [|split; [|split; [|split; [|split]]]].
  - intros store Hfault Hfits.
    set (recent := sort_by_time_desc s_start_time (scan_sessions (db w))).
    exists recent. split; [apply sort_by_time_desc_perm|].
    split; [apply descending_sort|]. split.
    + assert (Hopen : can_connect w) by (unfold can_connect; now rewrite Hfault).
      assert (Hfit : SQLite.fits_integer limit = true).
      { unfold SQLite.fits_integer. apply andb_true_iff.
        split; [apply Z.leb_le | apply Z.ltb_lt]; lia. }
      unfold SQLite.get_scan_history. connected Hfault. unfold try_except.
      assert (H1 : SQLite.execute (SQLite.select_recent limit) w
                   = (Ok (map s_id (if (limit <? 0)%Z then recent
                                    else firstn (Z.to_nat limit) recent)), w)).
      { unfold SQLite.execute, SQLite.select_recent. rewrite Hfault, Hfit. simpl.
        rewrite Hw. fold recent. destruct (limit <? 0)%Z; [reflexivity|].
        now rewrite firstn_map. }
      erewrite bind_ok by exact H1. unfold with_local.
      erewrite bind_ok.
      2:{ apply (history_loop (fun x : string => x) (SQLite.get_scan_session store) w).
          intros sid. now apply sqlite_get_scan_session_total. }
      simpl. f_equal. f_equal.
      generalize (if (limit <? 0)%Z then recent else firstn (Z.to_nat limit) recent).
      intros rows. induction rows as [|row rows IH]; [reflexivity|].
      cbn. now rewrite IH.
    + intros Hst Hrows row Hrow. apply sqlite_session_found; auto.
      unfold recent in Hrow. now rewrite sort_by_time_desc_perm in Hrow.
  - intros store Hopen Hno.
    assert (Hfit : SQLite.fits_integer limit = false).
    { unfold SQLite.fits_integer. apply andb_false_iff.
      destruct (Z.leb_spec (- 2 ^ 63) limit); [right; apply Z.ltb_ge; lia | now left]. }
    unfold SQLite.get_scan_history.
    unfold mbind at 1, M_bind at 1.
    assert (Hconn : SQLite._get_connection store w = (Ok tt, w)).
    { unfold can_connect in Hopen. unfold SQLite._get_connection.
      now destruct (fault (db w)) as [[msg|msg]|]. }
    rewrite Hconn. unfold try_except, SQLite.execute, SQLite.select_recent.
    unfold mbind, M_bind. rewrite Hfit. simpl.
    destruct (fault (db w)); [reflexivity | now rewrite Hw].
  - intros store msg Hfault.
    unfold SQLite.get_scan_history, SQLite._get_connection, try_except, SQLite.execute.
    unfold mbind, M_bind. rewrite Hfault. simpl. now rewrite Hfault.
  - intros store msg Hfault.
    unfold SQLite.get_scan_history. unfold mbind at 1, M_bind at 1.
    now rewrite (get_connection_refused store w msg Hfault).
  - intros store Hdoc Hst Hrows.
    set (recent := sort_by_time_desc sd_start_time (doc_sessions (document w))).
    exists recent. split; [apply sort_by_time_desc_perm|].
    split; [apply descending_sort|]. split.
    + unfold JSON.get_scan_history.
      erewrite bind_ok by (apply load_data_document; exact Hdoc).
      erewrite bind_ok by reflexivity.
      fold recent. unfold with_local.
      erewrite bind_ok.
      2:{ apply (history_loop sd_id (JSON.get_scan_session store) w).
          intros sid. destruct (json_get_scan_session_total store sid w Hdoc Hst Hrows)
            as (o & Ho & _). eauto. }
      reflexivity.
    + intros d Hd.
      destruct (json_get_scan_session_total store (sd_id d) w Hdoc Hst Hrows)
        as (o & Ho & Hsome).
      rewrite Ho. simpl.
      destruct Hsome as [s ->]; [|now eexists].
      destruct (List.find _ (doc_sessions (document w))) as [d'|] eqn:Hfind; [now eexists|].
      exfalso. unfold recent in Hd. rewrite sort_by_time_desc_perm in Hd.
      apply list_elem_of_In in Hd.
      pose proof (find_none _ _ Hfind d Hd) as Hno. simpl in Hno.
      now rewrite String.eqb_refl in Hno.
  - intros store getitem Hc.
    unfold JSON.get_scan_history, JSON._load_data.
    unfold mbind, M_bind. now rewrite Hc.
Qed.

(** Both sessions of the scenario are stored; with a limit of 1 the
    history is the second one, which is the more recent and holds no
    result of its own. *)
Lemma get_scan_history_is_recent_and_bounded_witness :
  SQLite.get_scan_history Scenario.the_database 1 Scenario.seen_twice_in_database
  = (Ok [mkScanSession "session-2" COMPLETED 10 (Some 12) ["10.0.0.1"] [] 1 0 []],
     Scenario.seen_twice_in_database) /\
  JSON.get_scan_history Scenario.the_document 1 Scenario.seen_twice_in_document
  = (Ok [mkScanSession "session-2" COMPLETED 10 (Some 12) ["10.0.0.1"] [] 1 0 []],
     Scenario.seen_twice_in_document).
Proof.
  split.
  - destruct (proj1 (get_scan_history_is_recent_and_bounded 1
                       Scenario.seen_twice_in_database)
                    Scenario.the_database eq_refl ltac:(lia))
      as (recent & Hperm & Hdesc & Hrun & _).
    rewrite Hrun. f_equal. f_equal.
    symmetry in Hperm. set (stored := scan_sessions _) in Hperm.
    vm_compute in stored. subst stored.
    apply Permutation_length_2_inv in Hperm as [-> | ->].
    + simpl in Hdesc. destruct Hdesc as [Hdesc _].
      apply Forall_cons in Hdesc as [Hdesc _]. simpl in Hdesc. lia.
    + vm_compute. reflexivity.
  - destruct (proj1 (proj2 (proj2 (proj2 (proj2 (get_scan_history_is_recent_and_bounded 1
                       Scenario.seen_twice_in_document)))))
                    Scenario.the_document I)
      as (recent & Hperm & Hdesc & Hrun & _).
    + repeat constructor; now eexists.
    + repeat constructor.
    + rewrite Hrun. f_equal. f_equal.
      symmetry in Hperm. set (stored := doc_sessions _) in Hperm.
      vm_compute in stored. subst stored.
      apply Permutation_length_2_inv in Hperm as [-> | ->].
      * simpl in Hdesc. destruct Hdesc as [Hdesc _].
        apply Forall_cons in Hdesc as [Hdesc _]. simpl in Hdesc. lia.
      * vm_compute. reflexivity.
Defined.

End History.
